(** * SQRLMiner: the FPGA control plane of ethminer-sqrl

    A shallow embedding of [libethash-sqrl/SQRLMiner.cpp].

    - C++ [double] is IEEE binary64, modelled by Rocq's primitive floats.
    - [uint8_t], [uint16_t], [uint32_t], [uint64_t] are [Z] with the
      wrap-around written out.
    - Every call into the register transport (SQRLAXI), the farm, the tuner,
      the mutex and the clocks is an [Event] appended to the trace of the
      miner; what the hardware and the other threads answer is read from an
      environment [Env], so that every function is executable.
    - A log line is an event that carries the fixed part of its text; the
      readings of the clock that only time a log line are left out.
    - The loops that poll the hardware without a bound take fuel and end in
      [OutOfFuel] when it runs out; [exit(1)] ends in [Exit]. *)

From Stdlib Require Import ZArith Bool String List Floats QArith Qabs Lia.
Import ListNotations.
Open Scope Z_scope.

Set Warnings "-inexact-float".

(** ** Fixed-width unsigned integers *)

Definition u8 (x : Z) : Z := x mod 2 ^ 8.
Definition u16 (x : Z) : Z := x mod 2 ^ 16.
Definition u32 (x : Z) : Z := x mod 2 ^ 32.
Definition u64 (x : Z) : Z := x mod 2 ^ 64.

(** ** Doubles *)

Module Dbl.

(** [(double)z] for an integer [z], rounded to nearest even. *)
Definition of_Z (z : Z) : float :=
  SF2Prim (binary_normalize prec emax z 0 false).

(** The integer part of a finite double, towards zero: the C++ conversion
    [(int)x], [(uint64_t)x].  Out of the target's range the conversion is
    undefined in C++; infinities and NaN are mapped to 0 here, and the
    callers wrap the result to their width. *)
Definition to_Z (x : float) : Z :=
  match Prim2SF x with
  | S754_finite s m e =>
      let a := if 0 <=? e then Z.shiftl (Zpos m) e
               else Z.shiftr (Zpos m) (- e) in
      if s then - a else a
  | _ => 0
  end.

(** Whether a finite double has a fractional part. *)
Definition has_frac (x : float) : bool :=
  match Prim2SF x with
  | S754_finite _ m e =>
      if 0 <=? e then false
      else negb (Z.shiftl (Z.shiftr (Zpos m) (- e)) (- e) =? Zpos m)
  | _ => false
  end.

Definition is_finite (x : float) : bool :=
  match Prim2SF x with
  | S754_finite _ _ _ | S754_zero _ => true
  | _ => false
  end.

(** [floor] and [ceil] of <cmath>; infinities and NaN are returned as
    they are. *)
Definition floorZ (x : float) : Z :=
  if (x <? 0)%float && has_frac x then to_Z x - 1 else to_Z x.
Definition ceilZ (x : float) : Z :=
  if (0 <? x)%float && has_frac x then to_Z x + 1 else to_Z x.
Definition floor (x : float) : float :=
  if is_finite x then of_Z (floorZ x) else x.
Definition ceil (x : float) : float :=
  if is_finite x then of_Z (ceilZ x) else x.

(** The exact rational value of a finite double. *)
Definition toQ (x : float) : Q :=
  match Prim2SF x with
  | S754_finite s m e =>
      let a := if 0 <=? e then inject_Z (Z.shiftl (Zpos m) e)
               else Qmake (Zpos m) (Pos.shiftl 1 (Z.to_N (- e))) in
      if s then Qopp a else a
  | _ => 0%Q
  end.

Definition neqb (x y : float) : bool := negb (x =? y)%float.
Definition gtb (x y : float) : bool := (y <? x)%float.
Definition geb (x y : float) : bool := (y <=? x)%float.

End Dbl.

(** ** The voltage table *)

(** The body of the loop of [InitVoltageTbl]. *)
Definition vid_voltage (VID : float) : float :=
  (0.6 + (2.661 / (20 - (2048 / (VID + 153.6)))))%float.

(** [InitVoltageTbl]: entries 0 .. 254 by the loop, entry 255 by the last
    assignment. *)
Definition InitVoltageTbl : list float :=
  map (fun VID => vid_voltage (Dbl.of_Z (Z.of_nat VID))) (seq 0 255)
  ++ [vid_voltage 255%float].

(** The static table after [InitVoltageTbl] has run. *)
Definition VoltageTbl : list float := Eval vm_compute in InitVoltageTbl.

Definition tbl_at (tbl : list float) (VID : Z) : float :=
  nth (Z.to_nat VID) tbl 0%float.

Definition LookupVID (VID : Z) : float := tbl_at VoltageTbl VID.

(** The loop [for (int half = 0x40; half > 0x00; half >>= 1)]; [half] is
    halved at each turn, so 32 turns of fuel are never used up. *)
Fixpoint vid_loop (fuel : nat) (tbl : list float) (ReqVoltage : float)
    (half idx : Z) : Z :=
  match fuel with
  | O => idx
  | S fuel' =>
      if half >? 0 then
        if (ReqVoltage <? tbl_at tbl idx)%float then
          vid_loop fuel' tbl ReqVoltage (Z.shiftr half 1) (u8 (idx + half))
        else if Dbl.gtb ReqVoltage (tbl_at tbl idx) then
          vid_loop fuel' tbl ReqVoltage (Z.shiftr half 1) (u8 (idx - half))
        else if (ReqVoltage =? tbl_at tbl idx)%float then idx
        else vid_loop fuel' tbl ReqVoltage (Z.shiftr half 1) idx
      else idx
  end.

Definition FindClosestVIDToVoltage_in (tbl : list float) (ReqVoltage : float)
    : Z :=
  if (ReqVoltage <=? tbl_at tbl 255)%float then 255
  else if Dbl.geb ReqVoltage (tbl_at tbl 0) then 0
  else vid_loop 32 tbl ReqVoltage 64 128.

Definition FindClosestVIDToVoltage (ReqVoltage : float) : Z :=
  FindClosestVIDToVoltage_in VoltageTbl ReqVoltage.

(** The distance of table entry [i] to a requested voltage, exactly. *)
Definition vid_distance (i : Z) (v : float) : Q :=
  Qabs (Dbl.toQ (LookupVID i) - Dbl.toQ v).

(** The argument [setVoltage] passes for a request in millivolts:
    [(double)fkVCCINT / 1000.0]. *)
Definition requested_volts (fkVCCINT : Z) : float :=
  (Dbl.of_Z fkVCCINT / 1000)%float.

(** ** Events, environment and miner state *)

(** What [SQRLAXIWaitForInterrupt] answers. *)
Inductive IrqResult :=
| IrqOK (nonce : Z)
| IrqTimedOut
| IrqError.

Inductive Event :=
| EvRead (addr err val : Z)
| EvWrite (val addr : Z) (verify : bool) (err : Z)
| EvWriteBulk (data : list Z) (addr flip err : Z)
| EvCDMAWrite (pos len err : Z)
| EvCDMACopy (src dst len err : Z)
| EvWaitInterrupt (mask timeoutMs : Z) (res : IrqResult)
| EvKickInterrupts
| EvLock
| EvUnlock
| EvSleep (usec : Z)
| EvLog (msg : string)
| EvNotify
| EvLoadNewWork (b : bool)
| EvShouldStop (b : bool)
| EvNow (t : Z)
| EvSubmitProof (nonce : Z)
| EvUpdateHashRate (n : Z)
| EvTune (n : Z)
| EvStartTune (clk : float)
| EvTunerQuery.

(** The settings the tuner may override: patience, intensityN, intensityD. *)
Record IntensitySettings := {
  is_patience : Z;
  is_intensityN : Z;
  is_intensityD : Z
}.

(** The hardware, the other threads and the collaborators.  Register reads are
    answered by address and by how often the address was read before; every
    other answer is indexed by the length of the trace so far. *)
Record Env := {
  hw_read : Z -> nat -> Z * Z;
  hw_write : nat -> Z;
  hw_irq : nat -> IrqResult;
  hw_uninit : Z;
  ext_new_work : nat -> bool;
  ext_should_stop : nat -> bool;
  clock_now : nat -> Z;
  tuner_intensity : nat -> option IntensitySettings;
  tuner_error_rate : nat -> float;
  tuner_stage : nat -> Z
}.

(** [SQSettings], the fields this file reads. *)
Record SQSettings := {
  forceDAG : bool;
  skipDAG : bool;
  dieOnError : bool;
  dagMixers : Z;
  skipStallDetection : bool;
  workDelay : Z;
  showHBMStats : bool
}.

(** [EpochContext] of libethcore: [epochNumber] is an [int], [dagSize] a
    [uint64_t] count of bytes, [seed] the 32 bytes of an [h256]. *)
Record EpochContext := {
  epochNumber : Z;
  dagSize : Z;
  lightSize : Z;
  seed : list Z
}.

(** [WorkPackage]: header and boundary are [h256] values, a boundary as the
    256-bit number its big-endian bytes spell. *)
Record WorkPackage := {
  header : list Z;
  boundary : Z;
  startNonce : Z
}.

(** The members of [SQRLMiner] that change, and the trace. *)
Record Miner := {
  m_dagging : bool;
  m_new_work : bool;
  m_lastClk : float;
  m_patience : Z;
  m_intensityN : Z;
  m_intensityD : Z;
  m_hashCounter : Z;
  m_avgHashTimer : Z;
  m_10minHashAvg : list float;
  m_60minHashAvg : list float;
  m_avgValues : list float;
  m_FPGAtemps : list Z;
  trace : list Event
}.

Definition set_dagging (b : bool) (s : Miner) : Miner :=
  Build_Miner b (m_new_work s) (m_lastClk s) (m_patience s) (m_intensityN s)
    (m_intensityD s) (m_hashCounter s) (m_avgHashTimer s) (m_10minHashAvg s)
    (m_60minHashAvg s) (m_avgValues s) (m_FPGAtemps s) (trace s).

Definition set_new_work (b : bool) (s : Miner) : Miner :=
  Build_Miner (m_dagging s) b (m_lastClk s) (m_patience s) (m_intensityN s)
    (m_intensityD s) (m_hashCounter s) (m_avgHashTimer s) (m_10minHashAvg s)
    (m_60minHashAvg s) (m_avgValues s) (m_FPGAtemps s) (trace s).

Definition set_lastClk (c : float) (s : Miner) : Miner :=
  Build_Miner (m_dagging s) (m_new_work s) c (m_patience s) (m_intensityN s)
    (m_intensityD s) (m_hashCounter s) (m_avgHashTimer s) (m_10minHashAvg s)
    (m_60minHashAvg s) (m_avgValues s) (m_FPGAtemps s) (trace s).

Definition set_intensity (i : IntensitySettings) (s : Miner) : Miner :=
  Build_Miner (m_dagging s) (m_new_work s) (m_lastClk s) (is_patience i)
    (is_intensityN i) (is_intensityD i) (m_hashCounter s) (m_avgHashTimer s)
    (m_10minHashAvg s) (m_60minHashAvg s) (m_avgValues s) (m_FPGAtemps s)
    (trace s).

Definition set_hashCounter (c : Z) (s : Miner) : Miner :=
  Build_Miner (m_dagging s) (m_new_work s) (m_lastClk s) (m_patience s)
    (m_intensityN s) (m_intensityD s) c (m_avgHashTimer s) (m_10minHashAvg s)
    (m_60minHashAvg s) (m_avgValues s) (m_FPGAtemps s) (trace s).

Definition set_averages (timer : Z) (h10 h60 vals : list float) (s : Miner)
    : Miner :=
  Build_Miner (m_dagging s) (m_new_work s) (m_lastClk s) (m_patience s)
    (m_intensityN s) (m_intensityD s) (m_hashCounter s) timer h10 h60 vals
    (m_FPGAtemps s) (trace s).

Definition set_FPGAtemps (t : list Z) (s : Miner) : Miner :=
  Build_Miner (m_dagging s) (m_new_work s) (m_lastClk s) (m_patience s)
    (m_intensityN s) (m_intensityD s) (m_hashCounter s) (m_avgHashTimer s)
    (m_10minHashAvg s) (m_60minHashAvg s) (m_avgValues s) t (trace s).

Definition push (e : Event) (s : Miner) : Miner :=
  Build_Miner (m_dagging s) (m_new_work s) (m_lastClk s) (m_patience s)
    (m_intensityN s) (m_intensityD s) (m_hashCounter s) (m_avgHashTimer s)
    (m_10minHashAvg s) (m_60minHashAvg s) (m_avgValues s) (m_FPGAtemps s)
    (trace s ++ [e]).

(** ** The monad: state, [exit(1)] and fuel for the polling loops *)

Inductive Outcome (A : Type) :=
| Ret (a : A) (s : Miner)
| Exit (code : Z) (s : Miner)
| OutOfFuel (s : Miner).
Arguments Ret {A} a s.
Arguments Exit {A} code s.
Arguments OutOfFuel {A} s.

Definition M (A : Type) : Type := Miner -> Outcome A.

Definition ret {A} (a : A) : M A := fun s => Ret a s.

Definition bind {A B} (m : M A) (k : A -> M B) : M B :=
  fun s =>
    match m s with
    | Ret a s' => k a s'
    | Exit c s' => Exit c s'
    | OutOfFuel s' => OutOfFuel s'
    end.

Notation "x <- c1 ;; c2" := (bind c1 (fun x => c2))
  (at level 61, c1 at next level, right associativity).
Notation "' pat <- c1 ;; c2" :=
  (bind c1 (fun x => match x with pat => c2 end))
  (at level 61, pat pattern, c1 at next level, right associativity).
Notation "c1 ;; c2" := (bind c1 (fun _ => c2))
  (at level 61, right associativity).

Definition final {A} (o : Outcome A) : Miner :=
  match o with
  | Ret _ s | Exit _ s | OutOfFuel s => s
  end.

Definition emit (e : Event) : M unit := fun s => Ret tt (push e s).

(** A call whose answer [q s] comes from outside and is logged by [ev]. *)
Definition query {A} (q : Miner -> A) (ev : A -> Event) : M A :=
  fun s => let r := q s in Ret r (push (ev r) s).
Definition get {A} (f : Miner -> A) : M A := fun s => Ret (f s) s.
Definition modify (f : Miner -> Miner) : M unit := fun s => Ret tt (f s).
Definition exit_ {A} (code : Z) : M A := fun s => Exit code s.
Definition out_of_fuel {A} : M A := fun s => OutOfFuel s.
Definition when (b : bool) (m : M unit) : M unit := if b then m else ret tt.
Definition sqrllog (msg : string) : M unit := emit (EvLog msg).

Definition is_read_of (addr : Z) (e : Event) : bool :=
  match e with
  | EvRead a _ _ => a =? addr
  | _ => false
  end.

Definition count_reads (addr : Z) (tr : list Event) : nat :=
  length (filter (is_read_of addr) tr).

(** ** The register transport and the other collaborators *)

Definition s32 (x : Z) : Z := (x + 2 ^ 31) mod 2 ^ 32 - 2 ^ 31.

(** [(float)x]: a double rounded to single precision, kept as a double. *)
Definition to_float32 (x : float) : float :=
  match Prim2SF x with
  | S754_finite sg m e => SF2Prim (binary_round 24 128 sg m e)
  | _ => x
  end.

(** The 32 big-endian bytes of an [h256]. *)
Definition h256_data (x : Z) : list Z :=
  map (fun i => (x / 2 ^ (8 * (31 - Z.of_nat i))) mod 256) (seq 0 32).

Section Driver.

Variable env : Env.
Variable cfg : SQSettings.

(** Modelled from the spec: [SQRLAXIRead] is part of the register transport
    (SQRLAXI.h), which is not in this file.  It returns a status, 0 for
    [SQRLAXIResultOK], and stores the 32-bit value read through its pointer
    argument; on a failure the pointee keeps the value [cur] it had, which is
    what the callers' defaults ([raw = 0x3], [dagStatusWord = 0]) rely on. *)
Definition SQRLAXIRead (cur addr : Z) : M (Z * Z) :=
  fun s =>
    let '(e, v) := hw_read env addr (count_reads addr (trace s)) in
    let v' := if e =? 0 then u32 v else cur in
    Ret (e, v') (push (EvRead addr e v') s).

(** The index of the next answer of the environment. *)
Definition tick (s : Miner) : nat := length (trace s).

Definition SQRLAXIWrite (val addr : Z) (verify : bool) : M Z :=
  query (fun s => hw_write env (tick s)) (EvWrite val addr verify).

Definition SQRLAXIWriteBulk (data : list Z) (addr flip : Z) : M Z :=
  query (fun s => hw_write env (tick s)) (EvWriteBulk data addr flip).

Definition SQRLAXICDMAWriteBytes (pos len : Z) : M Z :=
  query (fun s => hw_write env (tick s)) (EvCDMAWrite pos len).

Definition SQRLAXICDMACopyBytes (src dst len : Z) : M Z :=
  query (fun s => hw_write env (tick s)) (EvCDMACopy src dst len).

Definition SQRLAXIWaitForInterrupt (mask timeoutMs : Z) : M IrqResult :=
  query (fun s => hw_irq env (tick s)) (EvWaitInterrupt mask timeoutMs).

Definition SQRLAXIKickInterrupts : M unit := emit EvKickInterrupts.
Definition lock : M unit := emit EvLock.
Definition unlock : M unit := emit EvUnlock.
Definition usleep (usec : Z) : M unit := emit (EvSleep usec).

(** [std::chrono::steady_clock::now()], in nanoseconds. *)
Definition steady_now : M Z :=
  query (fun s => clock_now env (tick s)) EvNow.

(** [m_new_work.load()]: the flag, or a store by another thread since. *)
Definition load_new_work : M bool :=
  query (fun s => m_new_work s || ext_new_work env (tick s)) EvLoadNewWork.

Definition shouldStop : M bool :=
  query (fun s => ext_should_stop env (tick s)) EvShouldStop.

(** The calls into the tuner that return a value. *)
Definition getIntensitySettings : M (option IntensitySettings) :=
  query (fun s => tuner_intensity env (tick s)) (fun _ => EvTunerQuery).

Definition getHardwareErrorRate : M float :=
  query (fun s => tuner_error_rate env (tick s)) (fun _ => EvTunerQuery).

Definition getTuningStage : M Z :=
  query (fun s => tuner_stage env (tick s)) (fun _ => EvTunerQuery).

(** ** [StopHashcore] *)

(** [while (inn > 0)]: the intensity ramp. *)
Fixpoint ramp_down (fuel : nat) (inn step dbg : Z) : M (Z * Z) :=
  match fuel with
  | O => if inn >? 0 then out_of_fuel else ret (inn, dbg)
  | S fuel' =>
      if inn >? 0 then
        let dbg' := Z.lor (Z.land dbg 0x00FFFFFF) (u32 (Z.shiftl inn 24)) in
        SQRLAXIWrite dbg' 0x5080 false ;;
        ramp_down fuel' (inn - step) step dbg'
      else ret (inn, dbg)
  end.

(** The soft part of [StopHashcore]: the intensity field of 0x5080 is
    lowered in steps of [ceil(inn / 8.0)] before the core is disabled. *)
Definition intensity_ramp : M unit :=
  '(err, dbg) <- SQRLAXIRead (hw_uninit env) 0x5080 ;;
  if err =? 0 then
    let inn := Z.land (Z.shiftr dbg 24) 0xFF in
    let step := s32 (Dbl.to_Z (Dbl.ceil (Dbl.of_Z inn / 8)%float)) in
    '(inn', dbg') <- ramp_down 256 inn step dbg ;;
    if negb (inn' =? 0) then
      SQRLAXIWrite (Z.land dbg' 0x00FFFFFF) 0x5080 false ;; ret tt
    else ret tt
  else sqrllog "Error gracefully reseting core, using hard-reset".

Definition StopHashcore (soft : bool) : M Z :=
  if soft then
    intensity_ramp ;;
    SQRLAXIWrite 0x0 0x506c false
  else SQRLAXIWrite 0x0 0x506c false.

(** ** [setClock] and [getClock] *)

(** [while (waitCnt--)] with the read of the lock bit; returns [waitCnt]. *)
Fixpoint wait_locked (fuel : nat) (waitCnt : Z) : M Z :=
  match fuel with
  | O => out_of_fuel
  | S fuel' =>
      if waitCnt =? 0 then ret (u32 (waitCnt - 1))
      else
        let waitCnt := u32 (waitCnt - 1) in
        '(_, locked) <- SQRLAXIRead (hw_uninit env) 0x8004 ;;
        if Z.odd locked then ret waitCnt else wait_locked fuel' waitCnt
  end.

(** The rounding of the divisor to a multiple of 0.125:
    [((double)((int)(desiredDiv * 8 + 0.99))) / 8.0]. *)
Definition round_div (desiredDiv : float) : float :=
  (Dbl.of_Z (s32 (Dbl.to_Z (desiredDiv * 8 + 0.99))) / 8)%float.

(** The encoding written to 0x8208. *)
Definition encode_div (desiredDiv : float) : Z :=
  Z.lor (u8 (Dbl.to_Z desiredDiv))
    (Z.shiftl
       (u16 (Dbl.to_Z ((desiredDiv - Dbl.floor desiredDiv) * 1000)%float)) 8).

(** [VCO] of the value read from 0x8200. *)
Definition vco_of (valueVCO : Z) : float :=
  let mult := Dbl.of_Z (Z.land (Z.shiftr valueVCO 8) 0xFF) in
  let frac :=
    if negb (Z.land (Z.shiftr valueVCO 16) 0x2F =? 0)
    then (Dbl.of_Z (Z.land (Z.shiftr valueVCO 16) 0x3FF) / 1000)%float
    else 0%float in
  let gdiv := Dbl.of_Z (Z.land valueVCO 0xF) in
  ((200 * (mult + frac)) / gdiv)%float.

(** The divisor a value of 0x8208 stands for. *)
Definition clk0div_of (valueClk0 : Z) : float :=
  (Dbl.of_Z (Z.land valueClk0 0xF)
   + Dbl.of_Z (Z.land (Z.shiftr valueClk0 8) 0x3FF) / 1000)%float.

Definition setClock (targetClk : float) : M float :=
  '(err, valueVCO) <- SQRLAXIRead (hw_uninit env) 0x8200 ;;
  if negb (err =? 0) then
    sqrllog "Error checking current VCO - Aborting clock change" ;;
    ret 0%float
  else
    let vco := vco_of valueVCO in
    '(err, valueClk0) <- SQRLAXIRead (hw_uninit env) 0x8208 ;;
    if negb (err =? 0) then
      sqrllog "Error checking current clock - Aborting clock change" ;;
      ret 0%float
    else
      let currentClk := (vco / clk0div_of valueClk0)%float in
      '(nItems, rnItems, daggenPwrState) <-
        (if Dbl.neqb targetClk (-1) then
           '(err, nItems) <- SQRLAXIRead (hw_uninit env) 0x5040 ;;
           nItems <-
             (if negb (err =? 0) then
                sqrllog "Fatal error preserving settings for clock change" ;;
                ret 0
              else ret nItems) ;;
           '(_, rnItems) <- SQRLAXIRead (hw_uninit env) 0x5088 ;;
           rnItems <-
             (if negb (err =? 0) then
                sqrllog "Fatal error preserving settings for clock change" ;;
                ret 0
              else ret rnItems) ;;
           '(_, pwr) <- SQRLAXIRead (hw_uninit env) 0xB000 ;;
           pwr <-
             (if negb (err =? 0) then
                sqrllog "Fatal error preserving settings for clock change" ;;
                ret 0
              else ret pwr) ;;
           SQRLAXIWrite 0xFFFFFFFF 0xB000 true ;;
           ret (nItems, rnItems, pwr)
         else ret (hw_uninit env, hw_uninit env, hw_uninit env)) ;;
      currentClk <-
        (if (0 <? targetClk)%float then
           let desiredDiv := round_div (vco / (targetClk + 1))%float in
           if (desiredDiv <? 2)%float then
             sqrllog "CoreClk would exceed limit" ;; ret currentClk
           else
             let newDiv := encode_div desiredDiv in
             SQRLAXIWrite valueVCO 0x8200 true ;;
             SQRLAXIWrite newDiv 0x8208 true ;;
             SQRLAXIWrite 0x7 0x825c true ;;
             SQRLAXIWrite 0x3 0x825c true ;;
             let currentClk := (vco / desiredDiv)%float in
             sqrllog "Setting CoreClk to" ;;
             modify (set_lastClk (Dbl.of_Z (s32 (Dbl.to_Z currentClk)))) ;;
             ret currentClk
         else if (targetClk <? -1)%float then
           sqrllog "Resetting CoreClk to Stock" ;;
           SQRLAXIWrite 0x5 0x825c true ;;
           SQRLAXIWrite 0x1 0x825c true ;;
           usleep 10000 ;;
           SQRLAXIWrite 0xA 0x8000 true ;;
           ret currentClk
         else ret currentClk) ;;
      (if Dbl.neqb targetClk (-1) then
         waitCnt <- wait_locked 1001 1000 ;;
         when (waitCnt =? 0)
           (sqrllog "Timed out waiting for clock change to re-lock") ;;
         SQRLAXIWrite nItems 0x5040 true ;;
         SQRLAXIWrite rnItems 0x5088 true ;;
         SQRLAXIWrite daggenPwrState 0xB000 true ;;
         ret tt
       else ret tt) ;;
      ret currentClk.

Definition getClock : M float := setClock (-1).

(** ** [initEpoch_internal] *)

(** [nItems] and [intR], the values written to 0x5040 and 0x5088. *)
Definition nItems_of (ctx : EpochContext) : Z := u32 (dagSize ctx / 128).

Definition reciprocal_of (nItems : Z) : Z :=
  let reciprical := (1 / Dbl.of_Z nItems * Dbl.of_Z 0x1000000000000000)%float in
  u32 (Z.shiftr (u64 (Dbl.to_Z reciprical)) 4).

Definition makeCacheOnChip : bool := true.

(** [while ((cstatus&2) != 0x2)], light cache generation on the chip. *)
Fixpoint poll_cache (fuel : nat) (cstatus : Z) : M Z :=
  match fuel with
  | O => if Z.land cstatus 2 =? 2 then ret cstatus else out_of_fuel
  | S fuel' =>
      if Z.land cstatus 2 =? 2 then ret cstatus
      else
        unlock ;;
        usleep 100000 ;;
        lock ;;
        '(err, cstatus) <- SQRLAXIRead cstatus 0x40BC ;;
        if negb (u8 err =? 0) && dieOnError cfg then exit_ 1
        else poll_cache fuel' cstatus
  end.

(** The upload loop of the branch that [makeCacheOnChip] disables; returns
    [uploadFailed]. *)
Fixpoint upload_cache (fuel : nat) (cacheSize pos steps : Z) : M Z :=
  match fuel with
  | O => if pos <? cacheSize then out_of_fuel else ret 0
  | S fuel' =>
      if pos <? cacheSize then
        let len := if cacheSize - pos >? 65536 then 65536
                   else cacheSize - pos in
        e1 <- SQRLAXICDMAWriteBytes pos len ;;
        failed <-
          (if negb (e1 =? 0) then
             sqrllog "Upload packet error, retrying..." ;;
             e2 <- SQRLAXICDMAWriteBytes pos len ;;
             ret (negb (e2 =? 0))
           else ret false) ;;
        if (failed : bool) then ret 1
        else
          when (steps mod 100 =? 0) (sqrllog "Cache upload") ;;
          upload_cache fuel' cacheSize (u32 (pos + 65536)) (u32 (steps + 1))
      else ret 0
  end.

(** The loop over the mixers: start and end of each range. *)
Fixpoint program_mixers (n : nat) (i dagPos mixer_size leftover : Z)
    : M unit :=
  match n with
  | O => ret tt
  | S n' =>
      let mixer_start := dagPos in
      SQRLAXIWrite mixer_start (u32 (0x400c + 8 * i)) true ;;
      let mixer_end := u32 (dagPos + mixer_size) in
      let mixer_end := if i =? 0 then u32 (mixer_end + leftover)
                       else mixer_end in
      SQRLAXIWrite mixer_end (u32 (0x4010 + 8 * i)) true ;;
      program_mixers n' (i + 1) mixer_end mixer_size leftover
  end.

Definition mixer_size_of (ctx : EpochContext) (num_mixers : Z) : Z :=
  u32 (dagSize ctx / 64 / num_mixers).

Definition leftover_of (ctx : EpochContext) (num_mixers : Z) : Z :=
  u32 (dagSize ctx / 64 - u32 (mixer_size_of ctx num_mixers * num_mixers)).

(** [while ((status&2) != 0x2)], DAG generation. *)
Fixpoint poll_dag (fuel : nat) (status cnt : Z) : M Z :=
  match fuel with
  | O => if Z.land status 2 =? 2 then ret status else out_of_fuel
  | S fuel' =>
      if Z.land status 2 =? 2 then ret status
      else
        unlock ;;
        usleep 1000000 ;;
        lock ;;
        '(err, status) <- SQRLAXIRead status 0x4000 ;;
        if negb (u8 err =? 0) && dieOnError cfg then exit_ 1
        else
          let cnt := u8 (cnt + 1) in
          (if cnt mod 5 =? 0 then
             SQRLAXIRead 0 0x4008 ;; sqrllog "DAG %"
           else ret tt) ;;
          poll_dag fuel' status cnt
  end.

(** The 256 chunk copies, [err] being the [uint8_t] status variable of
    [initEpoch_internal]; returns [err] as the loop leaves it. *)
Fixpoint swizzle (n : nat) (i err : Z) : M Z :=
  match n with
  | O => ret err
  | S n' =>
      let src := Z.lor 0x100000000 (Z.shiftl i 24) in
      let dst :=
        Z.shiftl (Z.lor (Z.shiftl (Z.land i 0x0f) 4)
                        (Z.shiftr (Z.land i 0xF0) 4)) 24 in
      err <- SQRLAXICDMACopyBytes src dst 0x1000000 ;;
      if negb (u8 err =? 0) then
        sqrllog "Failed to swizzle DAG!" ;; ret (u8 err)
      else swizzle n' (i + 1) (u8 err)
  end.

(** Everything after the check for an existing DAG. *)
Definition regenerate (ctx : EpochContext) (fuel : nat) : M bool :=
  SQRLAXIWrite 0xFFFFFFFD 0xB000 true ;;
  SQRLAXIWrite 0xFFFFFFFF 0xB000 true ;;
  curClk <- getClock ;;
  lastClk <- get m_lastClk ;;
  (if (curClk <? lastClk)%float then
     sqrllog "Resetting clock to Bitstream Default for Dag Generation" ;;
     setClock (-2)
   else setClock lastClk) ;;
  let num_parent_nodes := u32 (lightSize ctx / 64) in
  uploaded <-
    (if makeCacheOnChip then
       sqrllog "Generating LightCache..." ;;
       SQRLAXIWrite 0x2 0x40BC true ;;
       SQRLAXIWrite num_parent_nodes 0x4008 true ;;
       SQRLAXIWriteBulk (rev (seed ctx)) 0x40c0 1 ;;
       SQRLAXIWrite 0x1 0x40BC true ;;
       poll_cache fuel 0 ;;
       sqrllog "Final LightCache Generation Status" ;;
       sqrllog "LightCache Generation took" ;;
       ret true
     else
       sqrllog "Uploading new Light Cache...(This may take some time)" ;;
       uploadFailed <- upload_cache fuel (u32 (lightSize ctx)) 0 0 ;;
       (if negb (uploadFailed =? 0) then sqrllog "Cache upload failed"
        else sqrllog "of cache uploaded") ;;
       ret (uploadFailed =? 0)) ;;
  if negb uploaded then
    modify (set_dagging false) ;;
    unlock ;;
    ret false
  else
    sqrllog "Preparing new DAG Generator Parameters..." ;;
    sqrllog "NUM_PARENT_NODES" ;;
    let num_mixers := u32 (dagMixers cfg) in
    sqrllog "NUM_MIXERS" ;;
    let mixer_size := mixer_size_of ctx num_mixers in
    let leftover := leftover_of ctx num_mixers in
    sqrllog "DAG_ITEMS_PER_MIXER" ;;
    sqrllog "DAG_ITEMS_LEFTOVER" ;;
    SQRLAXIWrite num_parent_nodes 0x4008 true ;;
    program_mixers (Z.to_nat num_mixers) 0 0 mixer_size leftover ;;
    sqrllog "Generating DAG..." ;;
    SQRLAXIWrite 0x1 0x4000 true ;;
    '(err, status) <- SQRLAXIRead (hw_uninit env) 0x4000 ;;
    when (negb (u8 err =? 0)) (sqrllog "Error checking DAG status") ;;
    status <-
      (if negb (skipDAG cfg) then poll_dag fuel status 0
       else sqrllog "DEV - Skipping DAG, expect failed hashes" ;; ret status) ;;
    sqrllog "Final DAG Generation Status" ;;
    sqrllog "of DAG data generated" ;;
    sqrllog "Duplicating DAG Items for performance..." ;;
    err <- swizzle 256 0 (u8 err) ;;
    (if err =? 0 then
       err <- SQRLAXICDMACopyBytes 0x0 0x100000000 (4 * 1024 * 1024 * 1024) ;;
       when (negb (u8 err =? 0)) (sqrllog "Failed to copy DAG!")
     else ret tt) ;;
    sqrllog "DAG Duplication took" ;;
    SQRLAXIWrite (Z.lor (Z.shiftl 1 31) (u32 (epochNumber ctx))) 0x40B8 true ;;
    modify (set_dagging false) ;;
    sqrllog "Putting DAG Generator in low power mode..." ;;
    SQRLAXIWrite 0x0 0xB000 true ;;
    lastClk <- get m_lastClk ;;
    (if Dbl.neqb lastClk 0 then
       sqrllog "Restoring clock to target" ;;
       setClock lastClk ;; ret tt
     else ret tt) ;;
    unlock ;;
    lastClk <- get m_lastClk ;;
    emit (EvStartTune lastClk) ;;
    ret true.

(** The head of [initEpoch_internal]: stock clock, the lock, the core and
    the generator stopped. *)
Definition epoch_halt : M unit :=
  modify (set_dagging true) ;;
  setClock (-2) ;;
  lock ;;
  sqrllog "Changing to Epoch" ;;
  StopHashcore true ;;
  SQRLAXIWrite 0xFFFFFFFF 0xB000 true ;;
  SQRLAXIWrite 0x2 0x4000 true ;;
  ret tt.

(** The mining parameters: the item count and its reciprocal. *)
Definition program_items (ctx : EpochContext) : M unit :=
  let nItems := nItems_of ctx in
  err <- SQRLAXIWrite nItems 0x5040 true ;;
  when (negb (u8 err =? 0)) (sqrllog "Failed setting ethcore nItems") ;;
  let intR := reciprocal_of nItems in
  err <- SQRLAXIWrite intR 0x5088 true ;;
  when (negb (u8 err =? 0)) (sqrllog "Failed setting ethcore rnItems!").

Definition epoch_prepare (ctx : EpochContext) : M unit :=
  epoch_halt ;;
  program_items ctx.

(** The early return when the DAG on the device is the requested one. *)
Definition epoch_up_to_date : M bool :=
  sqrllog "No DAG Generation is needed" ;;
  SQRLAXIWrite 0x0 0xB000 true ;;
  modify (set_dagging false) ;;
  unlock ;;
  lastClk <- get m_lastClk ;;
  setClock lastClk ;;
  lastClk <- get m_lastClk ;;
  emit (EvStartTune lastClk) ;;
  ret true.

Definition initEpoch_internal (ctx : EpochContext) (fuel : nat) : M bool :=
  epoch_prepare ctx ;;
  '(err, dagStatusWord) <- SQRLAXIRead 0 0x40B8 ;;
  dagStatusWord <-
    (if negb (u8 err =? 0) then
       sqrllog "Failed checking current HW DAG version" ;; ret 0
     else ret dagStatusWord) ;;
  upToDate <-
    (if negb (Z.shiftr dagStatusWord 31 =? 0) && negb (forceDAG cfg) then
       sqrllog "Current HW DAG is for Epoch" ;;
       ret (Z.land dagStatusWord 0xFFFF =? u32 (epochNumber ctx))
     else ret false) ;;
  if (upToDate : bool) then epoch_up_to_date
  else regenerate ctx fuel.

(** ** [kick_miner] *)

Definition kick_miner : M unit :=
  modify (set_new_work true) ;;
  dagging <- get m_dagging ;;
  when (negb dagging) SQRLAXIKickInterrupts ;;
  emit EvNotify.

(** ** [processHashrateAverages] *)

(** [std::accumulate(v.begin(), v.end(), 0.0) / v.size()]. *)
Definition average (v : list float) : float :=
  (fold_left PrimFloat.add v 0 / Dbl.of_Z (Z.of_nat (length v)))%float.

(** [pop front] when the vector has grown past [cap]. *)
Definition pop_past (cap : nat) (v : list float) : list float :=
  if (cap <? length v)%nat then tl v else v.

(** [(m_hashCounter / 60) / pow(10, 6)], the counter being a [uint64_t]. *)
Definition avg1min_of (hashCounter : Z) : float :=
  (Dbl.of_Z (hashCounter / 60) / 1000000)%float.

Definition in_band (avg1min : float) : bool :=
  Dbl.gtb avg1min 10 && (avg1min <? 100)%float.

Definition processHashrateAverages (newTcks : Z) : M unit :=
  c <- get m_hashCounter ;;
  modify (set_hashCounter (u64 (c + newTcks))) ;;
  t <- steady_now ;;
  timer <- get m_avgHashTimer ;;
  let elapsedSeconds := Z.quot (t - timer) 1000000000 in
  if elapsedSeconds >? 60 then
    c <- get m_hashCounter ;;
    let avg1min := avg1min_of c in
    rate <- getHardwareErrorRate ;;
    let errorRate := to_float32 (rate * 100)%float in
    h10 <- get m_10minHashAvg ;;
    h60 <- get m_60minHashAvg ;;
    let h10 := if in_band avg1min then h10 ++ [avg1min] else h10 in
    let h60 := if in_band avg1min then h60 ++ [avg1min] else h60 in
    let h10 := pop_past 10 h10 in
    let h60 := pop_past 60 h60 in
    let avg10min := average h10 in
    let avg60min := average h60 in
    t' <- steady_now ;;
    modify (set_averages t' h10 h60 [avg1min; avg10min; avg60min; errorRate]) ;;
    modify (set_hashCounter 0)
  else ret tt.

(** ** [search] *)

(** The fixed boundary of [search]:
    0x0000001fffffffffffffffffffffffffffffffffffffffffffffffffffffffff. *)
Definition falseTarget0 : Z := 2 ^ 229 - 1.

(** The boundary written to 0x5020. *)
Definition falseTarget_of (w : WorkPackage) : Z :=
  if boundary w >? falseTarget0 then boundary w else falseTarget0.

(** The control word written to 0x5080. *)
Definition search_flags (patience intensityN intensityD : Z) : Z :=
  let flags := 0 in
  let flags :=
    if negb (patience =? 0)
    then Z.lor flags (Z.lor (Z.shiftl 1 6)
                            (u32 (Z.shiftl (Z.land patience 0xff) 8)))
    else flags in
  if negb (intensityN =? 0) then
    let flags :=
      Z.lor flags (Z.lor (Z.shiftl 1 0)
                         (u32 (Z.shiftl (Z.land intensityN 0xFF) 24))) in
    Z.lor flags (u32 (Z.shiftl (u32 (Z.land intensityD 0x3F * 8 - 1)) 16))
  else flags.

(** One turn of [while (true)] after its two exit checks: the wait for a
    nonce, the stall and target-check samples, the hand-off of the nonce and
    the hash-rate bookkeeping.  Returns [shouldReset], and [sCnt] and [tChks]
    as they are stored in [lastSCnt] and [lastTChecks].  The polling branch
    under [if (0)] is never taken and is left out, so only [nonce[0]] can be
    valid. *)
Definition search_iteration (lastSCnt lastTChecks : Z) : M (bool * Z * Z) :=
  unlock ;;
  axiRes <- SQRLAXIWaitForInterrupt (Z.shiftl 1 0) (workDelay cfg / 1000) ;;
  nonce0 <-
    match axiRes with
    | IrqOK interruptNonce => ret (Some (u64 interruptNonce))
    | IrqTimedOut => ret None
    | IrqError =>
        sqrllog "FPGA Interrupt Error" ;;
        if dieOnError cfg then exit_ 1 else ret None
    end ;;
  lock ;;
  sCnt <-
    (if negb (skipStallDetection cfg) then
       '(err, sCnt) <- SQRLAXIRead (hw_uninit env) 0x5084 ;;
       if negb (u8 err =? 0) then
         sqrllog "Error checking for hashcore stall" ;; ret 0
       else ret sCnt
     else ret (hw_uninit env)) ;;
  '(err, tChkLo) <- SQRLAXIRead (hw_uninit env) 0x5048 ;;
  tChkLo <-
    (if negb (u8 err =? 0) then
       sqrllog "Error reading target check counter" ;; ret 0
     else ret tChkLo) ;;
  '(err, tChkHi) <- SQRLAXIRead (hw_uninit env) 0x5044 ;;
  tChkHi <-
    (if negb (u8 err =? 0) then
       sqrllog "Error reading target check counter" ;; ret 0
     else ret tChkHi) ;;
  let tChks := u64 (Z.shiftl tChkHi 32 + tChkLo) in
  let '(tChks, newTChks) :=
    if negb ((tChkLo =? 0) && (tChkHi =? 0)) then
      let tChks :=
        if tChks <? lastTChecks
        then u64 (Z.shiftl (u32 (tChkHi + 1)) 32 + tChkLo)
        else tChks in
      (tChks, u64 (tChks - lastTChecks))
    else (tChks, 0) in
  let shouldReset := negb (skipStallDetection cfg) && (sCnt =? lastSCnt) in
  match nonce0 with
  | Some n => sqrllog "Job Sol" ;; emit (EvSubmitProof n)
  | None => ret tt
  end ;;
  emit (EvUpdateHashRate newTChks) ;;
  emit (EvTune newTChks) ;;
  processHashrateAverages newTChks ;;
  ret (shouldReset, sCnt, tChks).

(** [while (true)]: leaves on new work, on a stop request, or after a turn
    that set [shouldReset]. *)
Fixpoint search_loop (fuel : nat) (lastSCnt lastTChecks : Z) : M unit :=
  match fuel with
  | O => out_of_fuel
  | S fuel' =>
      new_work <- load_new_work ;;
      if (new_work : bool) then modify (set_new_work false)
      else
        stop <- shouldStop ;;
        if (stop : bool) then ret tt
        else
          '(shouldReset, sCnt, tChks) <-
            search_iteration lastSCnt lastTChecks ;;
          if (shouldReset : bool) then ret tt
          else search_loop fuel' sCnt tChks
  end.

(** What follows the loop: [StopHashcore(true); axiMutex.unlock();]. *)
Definition search_exit : M unit :=
  StopHashcore true ;;
  unlock.

(** What precedes the loop. *)
Definition search_entry (w : WorkPackage) : M unit :=
  let nonce := u64 (startNonce w) in
  modify (set_new_work false) ;;
  lock ;;
  err <- SQRLAXIWriteBulk (header w) 0x5000 1 ;;
  when (negb (u8 err =? 0)) (sqrllog "Failed setting ethcore header") ;;
  err <- SQRLAXIWriteBulk (h256_data (falseTarget_of w)) 0x5020 1 ;;
  when (negb (u8 err =? 0)) (sqrllog "Failed setting ethcore target") ;;
  let nonceStartHigh := u32 (Z.shiftr nonce 32) in
  let nonceStartLow := u32 (Z.land nonce 0xFFFFFFFF) in
  err <- SQRLAXIWrite nonceStartHigh 0x5068 false ;;
  when (negb (u8 err =? 0)) (sqrllog "Failed setting ethcore nonceStartHigh") ;;
  err <- SQRLAXIWrite nonceStartLow 0x5064 false ;;
  when (negb (u8 err =? 0)) (sqrllog "Failed setting ethcore nonceStartLow") ;;
  intensSet <- getIntensitySettings ;;
  match intensSet with
  | Some i => modify (set_intensity i)
  | None => ret tt
  end ;;
  patience <- get m_patience ;;
  intensityN <- get m_intensityN ;;
  intensityD <- get m_intensityD ;;
  let flags := search_flags patience intensityN intensityD in
  err <- SQRLAXIWrite flags 0x5080 false ;;
  (if negb (u8 err =? 0) then
     sqrllog "Failed setting ethcore debugFlags" ;;
     if dieOnError cfg then exit_ 1 else ret tt
   else ret tt) ;;
  SQRLAXIWrite 0x00010001 0x506c false ;;
  when (negb (u8 err =? 0)) (sqrllog "Error starting hashcore").

Definition search (w : WorkPackage) (fuel : nat) : M unit :=
  search_entry w ;;
  search_loop fuel 0 0 ;;
  search_exit.

(** ** [getTelemetry] *)

(** The four health conditions decoded from the word read at 0x7008. *)
Definition leftCalibrated (raw : Z) : bool := Z.odd (Z.shiftr raw 0).
Definition rightCalibrated (raw : Z) : bool := Z.odd (Z.shiftr raw 1).
Definition leftCatastrophic (raw : Z) : bool := Z.odd (Z.shiftr raw 2).
Definition rightCatastrophic (raw : Z) : bool := Z.odd (Z.shiftr raw 10).

Definition stack_hazard (raw : Z) : bool :=
  leftCatastrophic raw || rightCatastrophic raw
  || negb (leftCalibrated raw) || negb (rightCalibrated raw).

(** The head of [getTelemetry]: temperature, clock and power, under the
    lock.  Returns what is stored through [tempC], [fanprct] and [powerW]. *)
Definition read_sensors : M (Z * Z * Z) :=
  lock ;;
  '(err, raw) <- SQRLAXIRead (hw_uninit env) 0x3400 ;;
  let tempC :=
    if err =? 0
    then u32 (Dbl.to_Z (Dbl.of_Z raw * 507.6 / 65536 - 279.43)%float)
    else 0 in
  clk <- getClock ;;
  let fanprct := u32 (Dbl.to_Z clk) in
  '(err, raw) <- SQRLAXIRead raw 0x3404 ;;
  let powerW :=
    if err =? 0
    then u32 (Dbl.to_Z (Dbl.of_Z raw * 3 / 65536 * 1000)%float)
    else 0 in
  ret (tempC, fanprct, powerW).

(** The tail of [getTelemetry]: what is done when a stack is unsafe. *)
Definition emergency_stop (raw : Z) : M unit :=
  StopHashcore true ;;
  SQRLAXIWrite 0x0 0xB000 true ;;
  (if leftCatastrophic raw || rightCatastrophic raw then
     sqrllog "HBM STACK CATASTROPHIC TEMP - Powered Off, Refusing Work"
   else sqrllog "HBM Calibration Failed - Refusing Work") ;;
  modify (set_dagging true) ;;
  kick_miner.

Definition getTelemetry : M (Z * Z * Z) :=
  '(tempC, fanprct, powerW) <- read_sensors ;;
  let raw := 0x3 in
  '(_, raw) <- SQRLAXIRead raw 0x7008 ;;
  unlock ;;
  let leftTemp := Z.land (Z.shiftr raw 3) 0x7f in
  let rightTemp := Z.land (Z.shiftr raw 11) 0x7f in
  let temp := s32 tempC in
  modify (set_FPGAtemps [temp; leftTemp; rightTemp]) ;;
  getTuningStage ;;
  sqrllog "Avg 1m 10m 60m" ;;
  (if stack_hazard raw then emergency_stop raw else ret tt) ;;
  ret (tempC, fanprct, powerW).

End Driver.

(** ** Predicates on traces *)

(** [s'] is [s] with further events, all of them in [P]. *)
Definition extends (P : Event -> bool) (s s' : Miner) : Prop :=
  exists evs, trace s' = trace s ++ evs /\ forallb P evs = true.

(** The busy flag and the new-work flag are what they were. *)
Definition same_flags (s s' : Miner) : Prop :=
  m_dagging s' = m_dagging s /\ m_new_work s' = m_new_work s.

(** [extends], and with [fr] set the two flags are kept as well. *)
Definition evolves (fr : bool) (P : Event -> bool) (s s' : Miner) : Prop :=
  extends P s s' /\ (fr = true -> same_flags s s').

(** [m] always returns, having logged events of [P] only (and, with [fr]
    set, having kept the two flags). *)
Definition returns {A} (fr : bool) (P : Event -> bool) (m : M A) : Prop :=
  forall s, exists a s', m s = Ret a s' /\ evolves fr P s s'.

(** However [m] ends, it has logged events of [P] only. *)
Definition emits {A} (P : Event -> bool) (m : M A) : Prop :=
  forall s, extends P s (final (m s)).

Definition addr_in (a : Z) (l : list Z) : bool := existsb (Z.eqb a) l.

(** The events of [setClock]. *)
Definition clock_ev (e : Event) : bool :=
  match e with
  | EvRead a _ _ => addr_in a [0x8200; 0x8208; 0x5040; 0x5088; 0xB000; 0x8004]
  | EvWrite _ a _ _ =>
      addr_in a [0xB000; 0x8200; 0x8208; 0x825c; 0x8000; 0x5040; 0x5088]
  | EvLog _ | EvSleep _ => true
  | _ => false
  end.

(** The events of [StopHashcore]. *)
Definition stop_ev (e : Event) : bool :=
  match e with
  | EvRead a _ _ => a =? 0x5080
  | EvWrite _ a _ _ => addr_in a [0x5080; 0x506c]
  | EvLog _ => true
  | _ => false
  end.

(** The registers of the DAG generator: 0x4000 .. 0x40FF. *)
Definition generator_block (a : Z) : bool := (0x4000 <=? a) && (a <? 0x4100).

(** An event that generates nothing: no write to the generator other than
    the stop command (2 to 0x4000), no bulk write, no DMA. *)
Definition no_generation (e : Event) : bool :=
  match e with
  | EvWrite v a _ _ => negb (generator_block a) || ((a =? 0x4000) && (v =? 2))
  | EvWriteBulk _ _ _ _ | EvCDMAWrite _ _ _ | EvCDMACopy _ _ _ _ => false
  | _ => true
  end.

(** The same, and not a read of the persisted status word either. *)
Definition idle_ev (e : Event) : bool :=
  no_generation e && negb (is_read_of 0x40B8 e).

(** An event that is neither a register write nor a wake-up. *)
Definition no_stop_ev (e : Event) : bool :=
  match e with
  | EvWrite _ _ _ _ | EvWriteBulk _ _ _ _ | EvNotify | EvKickInterrupts => false
  | _ => true
  end.

(** A read of one of the two PLL registers, or a log line. *)
Definition pll_read_ev (e : Event) : bool :=
  match e with
  | EvRead a _ _ => addr_in a [0x8200; 0x8208]
  | EvLog _ => true
  | _ => false
  end.

(** The events of [read_sensors]. *)
Definition sensor_ev (e : Event) : bool :=
  match e with
  | EvRead a _ _ => addr_in a [0x3400; 0x3404; 0x8200; 0x8208]
  | EvLog _ | EvLock => true
  | _ => false
  end.

(** What the read of the stack health register at 0x7008 leaves in [raw]
    when [getTelemetry] is called in state [s]. *)
Definition health_word (env : Env) (s : Miner) : Z :=
  let '(e, v) := hw_read env 0x7008 (count_reads 0x7008 (trace s)) in
  if e =? 0 then u32 v else 0x3.




(** An event other than a bulk write. *)
Definition no_bulk_write (e : Event) : bool :=
  match e with
  | EvWriteBulk _ _ _ _ => false
  | _ => true
  end.

(** The bulk writes of a trace: address and bytes. *)
Definition bulk_writes (tr : list Event) : list (Z * list Z) :=
  flat_map (fun e => match e with
                     | EvWriteBulk d a _ _ => [(a, d)]
                     | _ => []
                     end) tr.

(** The values written to register [addr], in order. *)
Definition writes_to (addr : Z) (tr : list Event) : list Z :=
  flat_map (fun e => match e with
                     | EvWrite v a _ _ => if a =? addr then [v] else []
                     | _ => []
                     end) tr.

(** Any event. *)
Definition any_ev (e : Event) : bool := true.

(** A log line. *)
Definition is_log (e : Event) : bool :=
  match e with
  | EvLog _ => true
  | _ => false
  end.

(** The register writes of a trace: address and value. *)
Definition register_writes (tr : list Event) : list (Z * Z) :=
  flat_map (fun e => match e with
                     | EvWrite v a _ _ => [(a, v)]
                     | _ => []
                     end) tr.

(** The range [start, end) of mixer [i] when [q] items go to each mixer and
    the [r] left over to mixer 0. *)
Definition mixer_range (q r i : Z) : Z * Z :=
  if i =? 0 then (0, q + r) else (r + i * q, r + (i + 1) * q).

Definition range_length (rg : Z * Z) : Z := snd rg - fst rg.

(** The mixer indices [i], [i + 1], ..., [n] of them. *)
Fixpoint indices (n : nat) (i : Z) : list Z :=
  match n with
  | O => []
  | S n' => i :: indices n' (i + 1)
  end.

(** The two register writes that program mixer [i]. *)
Definition mixer_regs (q r i : Z) : list (Z * Z) :=
  [(u32 (0x400c + 8 * i), fst (mixer_range q r i));
   (u32 (0x4010 + 8 * i), snd (mixer_range q r i))].

Definition sumZ (l : list Z) : Z := fold_right Z.add 0 l.

(** ** Sample inputs *)

(** A device that answers every read with [rd], accepts every write, raises
    no interrupt, and is left alone by the other threads. *)
Definition quiet_env (rd : Z -> nat -> Z * Z) : Env :=
  {| hw_read := rd;
     hw_write := fun _ => 0;
     hw_irq := fun _ => IrqTimedOut;
     hw_uninit := 0;
     ext_new_work := fun _ => false;
     ext_should_stop := fun _ => false;
     clock_now := fun _ => 0;
     tuner_intensity := fun _ => None;
     tuner_error_rate := fun _ => 0%float;
     tuner_stage := fun _ => 0 |}.

Definition sample_cfg : SQSettings :=
  {| forceDAG := false; skipDAG := false; dieOnError := false;
     dagMixers := 8; skipStallDetection := false; workDelay := 2000;
     showHBMStats := false |}.

(** A miner that has just been constructed. *)
Definition fresh_miner : Miner :=
  {| m_dagging := false; m_new_work := false; m_lastClk := 0%float;
     m_patience := 0; m_intensityN := 0; m_intensityD := 0;
     m_hashCounter := 0; m_avgHashTimer := 0;
     m_10minHashAvg := []; m_60minHashAvg := [];
     m_avgValues := [0; 0; 0; 0]%float; m_FPGAtemps := [0; 0; 0];
     trace := [] |}.

(** Epoch 42 with a DAG of 2^30 bytes; the device holds a valid DAG for
    epoch 42 (0x8000002A at 0x40B8) and its clock is locked. *)
Definition epoch42 : EpochContext :=
  {| epochNumber := 42; dagSize := 2 ^ 30; lightSize := 2 ^ 24;
     seed := repeat 0 32 |}.

Definition rd_epoch42 (a : Z) (k : nat) : Z * Z :=
  if a =? 0x40B8 then (0, 0x8000002A)
  else if a =? 0x8004 then (0, 1)
  else if a =? 0x8200 then (0, 0x801)
  else if a =? 0x8208 then (0, 0x4)
  else (0, 0).

(** The read of 0x7008 fails while the register holds 0x404: both stacks
    report a catastrophic temperature and neither is calibrated. *)
Definition rd_health_fails (a : Z) (k : nat) : Z * Z :=
  if a =? 0x7008 then (1, 0x404)
  else if a =? 0x8200 then (0, 0x801)
  else if a =? 0x8208 then (0, 0x4)
  else (0, 0).

(** The stall counter at 0x5084 reads 5 at every poll. *)
Definition stalled_env : Env :=
  quiet_env (fun a _ => if a =? 0x5084 then (0, 5) else (0, 0)).

(** Work at difficulty 1: the boundary is 2^256 - 1. *)
Definition easy_work : WorkPackage :=
  {| header := repeat 0 32; boundary := 2 ^ 256 - 1; startNonce := 0 |}.

(** A PLL with multiplier 8 and divider 1 (0x801 at 0x8200, a VCO of
    1600 MHz), output divisor 4, and the clock locked. *)
Definition rd_vco1600 (a : Z) (k : nat) : Z * Z :=
  if a =? 0x8200 then (0, 0x801)
  else if a =? 0x8208 then (0, 0x4)
  else if a =? 0x8004 then (0, 1)
  else (0, 0).

(** A DAG of 128 bytes: one item for the hashing core. *)
Definition one_item_epoch : EpochContext :=
  {| epochNumber := 0; dagSize := 128; lightSize := 64;
     seed := repeat 0 32 |}.

(** A DAG of 2^38 bytes, that is 2^32 items of 64 bytes. *)
Definition huge_epoch : EpochContext :=
  {| epochNumber := 0; dagSize := 2 ^ 38; lightSize := 2 ^ 24;
     seed := repeat 0 32 |}.

(** A quiet device whose steady clock reads [t] nanoseconds. *)
Definition clock_env (t : Z) : Env :=
  {| hw_read := fun _ _ => (0, 0);
     hw_write := fun _ => 0;
     hw_irq := fun _ => IrqTimedOut;
     hw_uninit := 0;
     ext_new_work := fun _ => false;
     ext_should_stop := fun _ => false;
     clock_now := fun _ => t;
     tuner_intensity := fun _ => None;
     tuner_error_rate := fun _ => 0%float;
     tuner_stage := fun _ => 0 |}.

(** ** The byte swaps *)

(** [eswap64] and [eswap32]: the bytes of a word in the opposite order. *)
Definition eswap64 (x : Z) : Z :=
  Z.lor (Z.lor (Z.lor (Z.lor (Z.lor (Z.lor (Z.lor
    (Z.shiftl (Z.land (Z.shiftr x 0) 0xFF) 56)
    (Z.shiftl (Z.land (Z.shiftr x 8) 0xFF) 48))
    (Z.shiftl (Z.land (Z.shiftr x 16) 0xFF) 40))
    (Z.shiftl (Z.land (Z.shiftr x 24) 0xFF) 32))
    (Z.shiftl (Z.land (Z.shiftr x 32) 0xFF) 24))
    (Z.shiftl (Z.land (Z.shiftr x 40) 0xFF) 16))
    (Z.shiftl (Z.land (Z.shiftr x 48) 0xFF) 8))
    (Z.land (Z.shiftr x 56) 0xFF).

Definition eswap32 (x : Z) : Z :=
  Z.lor (Z.lor (Z.lor
    (Z.shiftl (Z.land (Z.shiftr x 0) 0xFF) 24)
    (Z.shiftl (Z.land (Z.shiftr x 8) 0xFF) 16))
    (Z.shiftl (Z.land (Z.shiftr x 16) 0xFF) 8))
    (Z.land (Z.shiftr x 24) 0xFF).

(** ** [setVoltage] *)

Section Voltage.

Variable env : Env.

(** The limits of [setVoltage], in millivolts. *)
Definition upperVoltLimit : Z := 920.
Definition lowerVoltLimit : Z := 500.

Definition volt_out_of_bounds (mv : Z) : bool :=
  (mv <=? lowerVoltLimit) || (mv >? upperVoltLimit).

(** [uint16_t vEnc = (uint16_t)(((double)jcVCCINT / 1000.0) * 256.0)]. *)
Definition vEnc_of (jcVCCINT : Z) : Z :=
  u16 (Dbl.to_Z (Dbl.of_Z jcVCCINT / 1000 * 256)%float).

(** The rail of the FK board: the wiper of the feedback rheostat. *)
Definition set_fkVCCINT (fkVCCINT : Z) : M unit :=
  let tWiper := FindClosestVIDToVoltage (requested_volts fkVCCINT) in
  let tmv := u32 (Dbl.to_Z (LookupVID tWiper * 1000)%float) in
  sqrllog "Found wiper code" ;;
  sqrllog "Instructing FK VRM, if present, to target" ;;
  sqrllog "Closest Viable Voltage" ;;
  SQRLAXIWrite env 0xA 0x9040 false ;;
  SQRLAXIWrite env 0x158 0x9108 false ;;
  SQRLAXIWrite env 0x00 0x9108 false ;;
  SQRLAXIWrite env (Z.lor 0x200 tWiper) 0x9108 false ;;
  SQRLAXIWrite env 0x1 0x9100 false ;;
  ret tt.

(** One two-wire transaction of the JCM regulator: soft reset, seven bytes
    into the transmit FIFO, send. *)
Definition iic_transaction (b4 b5 b6 b7 : Z) : M unit :=
  SQRLAXIWrite env 0xA 0xA040 false ;;
  SQRLAXIWrite env (Z.lor 0x100 (Z.shiftl 0x4d 1)) 0xA108 false ;;
  SQRLAXIWrite env 0xD0 0xA108 false ;;
  SQRLAXIWrite env 0x04 0xA108 false ;;
  SQRLAXIWrite env b4 0xA108 false ;;
  SQRLAXIWrite env b5 0xA108 false ;;
  SQRLAXIWrite env b6 0xA108 false ;;
  SQRLAXIWrite env b7 0xA108 false ;;
  SQRLAXIWrite env 0x1 0xA100 false ;;
  ret tt.

(** The rail of the JCM board: the hot fix, then the target. *)
Definition set_jcVCCINT (jcVCCINT : Z) : M unit :=
  sqrllog "Applying JCM PMIC Hot Fix" ;;
  SQRLAXIWrite env 0xA 0xA040 false ;;
  SQRLAXIWrite env (Z.lor 0x100 (Z.shiftl 0x4d 1)) 0xA108 false ;;
  SQRLAXIWrite env 0xD0 0xA108 false ;;
  SQRLAXIWrite env 0x04 0xA108 false ;;
  SQRLAXIWrite env 0x22 0xA108 false ;;
  SQRLAXIWrite env 0x08 0xA108 false ;;
  SQRLAXIWrite env 0x1C 0xA108 false ;;
  SQRLAXIWrite env (Z.lor 0x200 0x5C) 0xA108 false ;;
  SQRLAXIWrite env (Z.lor 0x100 (Z.shiftl 0x4d 1)) 0xA108 false ;;
  SQRLAXIWrite env 0xD0 0xA108 false ;;
  SQRLAXIWrite env 0x04 0xA108 false ;;
  SQRLAXIWrite env 0x24 0xA108 false ;;
  SQRLAXIWrite env 0x08 0xA108 false ;;
  SQRLAXIWrite env 0x22 0xA108 false ;;
  SQRLAXIWrite env (Z.lor 0x200 0x2C) 0xA108 false ;;
  SQRLAXIWrite env 0x1 0xA100 false ;;
  usleep 1000000 ;;
  iic_transaction 0xAA 0x0A 0xf3 (Z.lor 0x200 0xe0) ;;
  usleep 1000000 ;;
  iic_transaction 0xAA 0x06 0xf3 (Z.lor 0x200 0xe0) ;;
  sqrllog "Asking JCM VRM, if present, to target" ;;
  usleep 1000000 ;;
  let vEnc := vEnc_of jcVCCINT in
  iic_transaction (Z.shiftl 0x21 1) 0x06
    (Z.lor 0x0 (Z.land vEnc 0xFF))
    (Z.lor 0x200 (Z.land (Z.shiftr vEnc 8) 0xFF)).

Definition setVoltage (fkVCCINT jcVCCINT : Z) : M unit :=
  (if negb (fkVCCINT =? 0) then
     if volt_out_of_bounds fkVCCINT
     then sqrllog "Asking to set fkVCCINT out of bounds!"
     else set_fkVCCINT fkVCCINT
   else ret tt) ;;
  (if negb (jcVCCINT =? 0) then
     if volt_out_of_bounds jcVCCINT
     then sqrllog "Asking to set jcVCCINT out of bounds!"
     else set_jcVCCINT jcVCCINT
   else ret tt).

End Voltage.

(** ** More predicates on traces and states *)

(** The sleeps of a trace, in microseconds. *)
Definition sleeps (tr : list Event) : list Z :=
  flat_map (fun e => match e with
                     | EvSleep us => [us]
                     | _ => []
                     end) tr.

(** [a < b] on rationals, as a boolean. *)
Definition Qltb (a b : Q) : bool :=
  (Qnum a * QDen b <? Qnum b * QDen a)%Z.

(** The requests in millivolts [lo], [lo + 1], ..., [n] of them. *)
Definition millivolts (lo : nat) (n : nat) : list Z :=
  map Z.of_nat (seq lo n).

(** [m] always returns, having made the register writes [ws] and slept
    [sl], in that order. *)
Definition performs {A} (m : M A) (ws : list (Z * Z)) (sl : list Z) : Prop :=
  forall s, exists a s',
    m s = Ret a s' /\
    register_writes (trace s') = register_writes (trace s) ++ ws /\
    sleeps (trace s') = sleeps (trace s) ++ sl.

(** The intensities the ramp of [StopHashcore] writes, and the value of
    [inn] when its loop is left. *)
Fixpoint ramp_plan (fuel : nat) (inn step : Z) : list Z :=
  match fuel with
  | O => []
  | S fuel' =>
      if inn >? 0 then inn :: ramp_plan fuel' (inn - step) step else []
  end.

Fixpoint ramp_end (fuel : nat) (inn step : Z) : Z :=
  match fuel with
  | O => inn
  | S fuel' => if inn >? 0 then ramp_end fuel' (inn - step) step else inn
  end.

(** A list of integers that goes down by [step] from one entry to the next. *)
Fixpoint descends_by (step : Z) (l : list Z) : bool :=
  match l with
  | a :: (b :: _) as tl => (a - step =? b) && descends_by step tl
  | _ => true
  end.



(** The registers of the clock generator that [setClock] programs. *)
Definition pll_reg (w : Z * Z) : bool :=
  addr_in (fst w) [0x8200; 0x8208; 0x825c; 0x8000].

(** A device with a VCO of 1600 MHz and a divisor of 4, whose registers
    0x5040, 0x5088 and 0xB000 hold 0x800000, 0x200 and 3. *)
Definition rd_saved (a : Z) (k : nat) : Z * Z :=
  if a =? 0x8200 then (0, 0x801)
  else if a =? 0x8208 then (0, 0x4)
  else if a =? 0x8004 then (0, 1)
  else if a =? 0x5040 then (0, 0x800000)
  else if a =? 0x5088 then (0, 0x200)
  else if a =? 0xB000 then (0, 0x3)
  else (0, 0).

(** The same device when the read of 0x5040 fails. *)
Definition rd_save_fails (a : Z) (k : nat) : Z * Z :=
  if a =? 0x5040 then (1, 0) else rd_saved a k.

(** The DMA copies of a trace: source, destination and length. *)
Definition cdma_copies (tr : list Event) : list (Z * Z * Z) :=
  flat_map (fun e => match e with
                     | EvCDMACopy src dst len _ => [(src, dst, len)]
                     | _ => []
                     end) tr.

(** The chunk that chunk [i] of the DAG is copied to: its two nibbles
    exchanged. *)
Definition swizzled (i : Z) : Z :=
  Z.lor (Z.shiftl (Z.land i 0x0f) 4) (Z.shiftr (Z.land i 0xF0) 4).

(** The copy [swizzle] makes for chunk [i]. *)
Definition chunk_copy (i : Z) : Z * Z * Z :=
  (Z.lor 0x100000000 (Z.shiftl i 24), Z.shiftl (swizzled i) 24, 0x1000000).

(** The chunks [i], [i + 1], ..., [n] of them. *)
Definition chunks (i : Z) (n : nat) : list Z :=
  map (fun k => i + Z.of_nat k) (seq 0 n).

(** The pairs [(i, j)] with [i < j] below [n]. *)
Definition ordered_pairs (n : nat) : list (nat * nat) :=
  flat_map (fun j => map (fun i => (i, j)) (seq 0 j)) (seq 0 n).

(** What the two histories of [processHashrateAverages] have in common:
    their samples lie in the band, the short one holds the latest samples of
    the long one, as many as 10 of them, and the long one holds 60 at
    most. *)
Definition histories_ok (s : Miner) : Prop :=
  Forall (fun x => in_band x = true) (m_60minHashAvg s) /\
  (exists older, m_60minHashAvg s = older ++ m_10minHashAvg s) /\
  length (m_10minHashAvg s) = Nat.min 10 (length (m_60minHashAvg s)) /\
  (length (m_60minHashAvg s) <= 60)%nat.

(** An access to the device through the register transport. *)
Definition is_access (e : Event) : bool :=
  match e with
  | EvRead _ _ _ | EvWrite _ _ _ _ | EvWriteBulk _ _ _ _
  | EvCDMAWrite _ _ _ | EvCDMACopy _ _ _ _ => true
  | _ => false
  end.

(** The discipline of [axiMutex] over a run of events, [held] telling
    whether the lock is held at its start: the lock is taken only when it
    is free and released only when it is held, and the device is accessed
    only while it is held.  The result is whether the lock is held at the
    end, or [None] when the discipline is broken. *)
Fixpoint guarded (held : bool) (evs : list Event) : option bool :=
  match evs with
  | [] => Some held
  | EvLock :: rest => if held then None else guarded true rest
  | EvUnlock :: rest => if held then guarded false rest else None
  | e :: rest =>
      if is_access e && negb held then None else guarded held rest
  end.

(** However [m] ends, the events it adds keep the discipline from [held];
    when it returns, the lock is held or not as [held'] says. *)
Definition disciplined {A} (held held' : bool) (m : M A) : Prop :=
  forall s, exists evs b,
    trace (final (m s)) = trace s ++ evs /\
    guarded held evs = Some b /\
    (forall a s', m s = Ret a s' -> b = held').

(** An event that is neither the lock nor its release. *)
Definition no_lock_ev (e : Event) : bool :=
  match e with
  | EvLock | EvUnlock => false
  | _ => true
  end.

(** Started in a state of [P], [m] can only return with a value and a
    state of [Q]. *)
Definition ensures {A} (P : Miner -> Prop) (Q : A -> Miner -> Prop)
    (m : M A) : Prop :=
  forall s, P s -> forall a s', m s = Ret a s' -> Q a s'.

(** The busy flag is down. *)
Definition idle (s : Miner) : Prop := m_dagging s = false.

(** Any state. *)
Definition anywhere (s : Miner) : Prop := True.
(** The waits for the interrupt of a trace. *)
Definition is_wait (e : Event) : bool :=
  match e with
  | EvWaitInterrupt _ _ _ => true
  | _ => false
  end.




(** The state after an event that is recorded only under a condition, as the
    log lines of the error checks are. *)
Definition push_when (b : bool) (e : Event) (s : Miner) : Miner :=
  if b then push e s else s.

(** ** The lock and what it is released for *)

(** Where a function stands with [axiMutex]: it holds the lock; it has
    released it and the pause it released it for is still to come; or the
    lock is free to be taken. *)
Inductive Mutex := Held | Released | Free.

(** One event under the stricter discipline, [pause] telling the events the
    lock is released for.  The lock is taken only when it is free to be
    taken and released only when it is held; a pause comes only after a
    release, once, and frees the lock to be taken again; the device is
    accessed only while the lock is held; any other event leaves the lock
    as it is.  [None] when the discipline is broken. *)
Definition mutex_step (pause : Event -> bool) (st : Mutex) (e : Event)
    : option Mutex :=
  match e with
  | EvLock => match st with Free => Some Held | _ => None end
  | EvUnlock => match st with Held => Some Released | _ => None end
  | _ =>
      if pause e then match st with Released => Some Free | _ => None end
      else if is_access e then match st with Held => Some Held | _ => None end
      else Some st
  end.

(** The stricter discipline over a run of events. *)
Fixpoint paced (pause : Event -> bool) (st : Mutex) (evs : list Event)
    : option Mutex :=
  match evs with
  | [] => Some st
  | e :: rest =>
      match mutex_step pause st e with
      | Some st' => paced pause st' rest
      | None => None
      end
  end.

(** However [m] ends, the events it adds keep the stricter discipline from
    [st]; when it returns, it stands with the lock as [st'] says. *)
Definition keeps_pace {A} (pause : Event -> bool) (st st' : Mutex)
    (m : M A) : Prop :=
  forall s, exists evs b,
    trace (final (m s)) = trace s ++ evs /\
    paced pause st evs = Some b /\
    (forall a s', m s = Ret a s' -> b = st').

(** The sleep of a polling loop: a tenth of a second or more. *)
Definition poll_sleep (e : Event) : bool :=
  match e with
  | EvSleep usec => 100000 <=? usec
  | _ => false
  end.

(** An event of [setClock] that is no sleep of a polling loop. *)
Definition brief_clock_ev (e : Event) : bool :=
  clock_ev e && negb (poll_sleep e).

(** * Theorems *)

(** ** The voltage table and [FindClosestVIDToVoltage] *)

Lemma VoltageTbl_init : VoltageTbl = InitVoltageTbl.
Proof. vm_compute. reflexivity. Qed.

Lemma VoltageTbl_strictly_decreasing :
  forallb (fun i => (LookupVID (Z.of_nat (S i)) <? LookupVID (Z.of_nat i))%float)
    (seq 0 255) = true.
Proof. vm_compute. reflexivity. Qed.

(** The two clamps, as the code tests them. *)
Lemma FindClosestVID_clamps_low v :
  (v <=? LookupVID 255)%float = true -> FindClosestVIDToVoltage v = 255.
Proof.
  intros H. unfold FindClosestVIDToVoltage, FindClosestVIDToVoltage_in.
  fold (LookupVID 255). now rewrite H.
Qed.

Lemma FindClosestVID_clamps_high v :
  (v <=? LookupVID 255)%float = false ->
  Dbl.geb v (LookupVID 0) = true ->
  FindClosestVIDToVoltage v = 0.
Proof.
  intros L H. unfold FindClosestVIDToVoltage, FindClosestVIDToVoltage_in.
  fold (LookupVID 255) (LookupVID 0). now rewrite L, H.
Qed.

Lemma vid_loop_done tbl v fuel idx : vid_loop fuel tbl v 0 idx = idx.
Proof. destruct fuel; reflexivity. Qed.

Lemma vid_loop_parity tbl v :
  (forall i, (v <? tbl_at tbl i)%float || Dbl.gtb v (tbl_at tbl i)
             || (v =? tbl_at tbl i)%float = true) ->
  forall n fuel idx,
    (n < fuel)%nat -> (n <= 6)%nat ->
    0 < idx < 256 -> idx mod (2 * 2 ^ Z.of_nat n) = 0 ->
    let r := vid_loop fuel tbl v (2 ^ Z.of_nat n) idx in
    Z.odd r = true \/ (v =? tbl_at tbl r)%float = true.
Proof.
  intros H n. induction n as [|n IH]; intros fuel idx Hf Hn Hi Hm.
  - destruct fuel as [|fuel]; [lia|]. cbn [vid_loop].
    change (2 ^ Z.of_nat 0) with 1 in *. change (1 >? 0) with true.
    change (Z.shiftr 1 1) with 0. cbv iota zeta. rewrite !vid_loop_done.
    change (2 * 1) with 2 in Hm.
    apply Z.mod_divide in Hm; [|lia]. destruct Hm as [m Hm].
    assert (O1 : Z.odd (u8 (idx + 1)) = true).
    { unfold u8. change (2 ^ 8) with 256. rewrite Z.mod_small by lia.
      subst idx. rewrite Z.add_comm, Z.mul_comm. apply Z.odd_add_mul_2. }
    assert (O2 : Z.odd (u8 (idx - 1)) = true).
    { unfold u8. change (2 ^ 8) with 256. rewrite Z.mod_small by lia.
      replace (idx - 1) with (1 + 2 * (m - 1)) by lia.
      apply Z.odd_add_mul_2. }
    pose proof (H idx) as C.
    destruct (v <? tbl_at tbl idx)%float; [now left|].
    destruct (Dbl.gtb v (tbl_at tbl idx)); [now left|].
    destruct (v =? tbl_at tbl idx)%float eqn:E; [now right | discriminate C].
  - destruct fuel as [|fuel]; [lia|]. cbn [vid_loop].
    rewrite Nat2Z.inj_succ, Z.pow_succ_r in * by lia.
    set (p := 2 ^ Z.of_nat n) in *.
    assert (Hp : 0 < p) by (apply Z.pow_pos_nonneg; lia).
    assert (Hs : Z.shiftr (2 * p) 1 = p).
    { rewrite Z.shiftr_div_pow2 by lia. change (2 ^ 1) with 2.
      rewrite Z.mul_comm. apply Z.div_mul. lia. }
    rewrite Hs.
    assert (Hg : (2 * p >? 0) = true) by (apply Z.gtb_lt; lia).
    rewrite Hg.
    assert (D256 : 256 mod (2 * (2 * p)) = 0).
    { subst p. clear -Hn.
      assert (K : In n [0; 1; 2; 3; 4; 5]%nat) by (simpl; lia).
      simpl in K. repeat (destruct K as [<- | K]; [reflexivity|]). destruct K. }
    apply Z.mod_divide in Hm; [|lia]. destruct Hm as [m Hm].
    apply Z.mod_divide in D256; [|lia]. destruct D256 as [m' Hm'].
    assert (Hm0 : 0 < m) by nia.
    assert (Hmm : m + 1 <= m') by nia.
    assert (Hlo : 4 * p <= idx) by nia.
    assert (Hhi : idx + 4 * p <= 256) by nia.
    assert (Hup : u8 (idx + 2 * p) = idx + 2 * p).
    { unfold u8. change (2 ^ 8) with 256. apply Z.mod_small. lia. }
    assert (Hdn : u8 (idx - 2 * p) = idx - 2 * p).
    { unfold u8. change (2 ^ 8) with 256. apply Z.mod_small. lia. }
    pose proof (H idx) as C.
    destruct (v <? tbl_at tbl idx)%float.
    + rewrite Hup. apply IH; try lia.
      apply Z.mod_divide; [lia|]. exists (2 * m + 1). lia.
    + destruct (Dbl.gtb v (tbl_at tbl idx)).
      * rewrite Hdn. apply IH; try lia.
        apply Z.mod_divide; [lia|]. exists (2 * m - 1). lia.
      * destruct (v =? tbl_at tbl idx)%float eqn:E;
          [now right | discriminate C].
Qed.

(** Between the clamps the search ends on an odd index unless it meets the
    requested voltage exactly: the entry it lands on after the last move is
    never compared, and neither are its neighbours. *)
Lemma FindClosestVID_odd_or_exact v :
  (forall i, (v <? LookupVID i)%float || Dbl.gtb v (LookupVID i)
             || (v =? LookupVID i)%float = true) ->
  (v <=? LookupVID 255)%float = false ->
  Dbl.geb v (LookupVID 0) = false ->
  Z.odd (FindClosestVIDToVoltage v) = true \/
  (v =? LookupVID (FindClosestVIDToVoltage v))%float = true.
Proof.
  intros H L G. unfold FindClosestVIDToVoltage, FindClosestVIDToVoltage_in.
  fold (LookupVID 255) (LookupVID 0). rewrite L, G.
  apply (vid_loop_parity VoltageTbl v H 6 32 128); try lia. reflexivity.
Qed.

(** C1, at the failing input: asked for 900 mV ([setVoltage] passes
    [900 / 1000.0]), the search returns wiper code 31 although the table's
    entry 30 is strictly closer to the requested voltage. *)
Theorem FindClosestVID_900mV_not_closest :
  FindClosestVIDToVoltage (requested_volts 900) = 31 /\
  (vid_distance 30 (requested_volts 900)
   < vid_distance 31 (requested_volts 900))%Q.
Proof. split; vm_compute; reflexivity. Qed.

(** ** Composition of traces *)

Lemma extends_refl P s : extends P s s.
Proof. exists []. now rewrite app_nil_r. Qed.

Lemma extends_trans P s1 s2 s3 :
  extends P s1 s2 -> extends P s2 s3 -> extends P s1 s3.
Proof.
  intros (l1 & E1 & F1) (l2 & E2 & F2). exists (l1 ++ l2). split.
  - now rewrite E2, E1, app_assoc.
  - now rewrite forallb_app, F1, F2.
Qed.

Lemma extends_push P e s : P e = true -> extends P s (push e s).
Proof. intros H. exists [e]. simpl. now rewrite H. Qed.

Lemma extends_weaken (P Q : Event -> bool) s s' :
  (forall e, P e = true -> Q e = true) -> extends P s s' -> extends Q s s'.
Proof.
  intros HPQ (l & E & F). exists l. split; [exact E|].
  rewrite forallb_forall in *. auto.
Qed.

Lemma evolves_refl fr P s : evolves fr P s s.
Proof. split; [apply extends_refl | split; reflexivity]. Qed.

Lemma evolves_trans fr P s1 s2 s3 :
  evolves fr P s1 s2 -> evolves fr P s2 s3 -> evolves fr P s1 s3.
Proof.
  intros (X1 & F1) (X2 & F2). split.
  - eapply extends_trans; eauto.
  - intros H. destruct (F1 H) as (D1 & N1), (F2 H) as (D2 & N2).
    split; congruence.
Qed.

Lemma evolves_push fr P e s : P e = true -> evolves fr P s (push e s).
Proof. intros H. split; [now apply extends_push | split; reflexivity]. Qed.

Lemma evolves_weaken fr (P Q : Event -> bool) s s' :
  (forall e, P e = true -> Q e = true) ->
  evolves true P s s' -> evolves fr Q s s'.
Proof.
  intros H (X & D). split; [eapply extends_weaken; eauto | auto].
Qed.

Section Composition.

Variable env : Env.
Variable fr : bool.
Variable P : Event -> bool.

Lemma returns_ret {A} (a : A) : returns fr P (ret a).
Proof. intros s. exists a, s. split; [reflexivity | apply evolves_refl]. Qed.

Lemma returns_bind {A B} (m : M A) (k : A -> M B) :
  returns fr P m -> (forall a, returns fr P (k a)) -> returns fr P (bind m k).
Proof.
  intros Hm Hk s. destruct (Hm s) as (a & s1 & E1 & X1).
  destruct (Hk a s1) as (b & s2 & E2 & X2).
  exists b, s2. unfold bind. rewrite E1. split; [exact E2|].
  eapply evolves_trans; eauto.
Qed.

Lemma returns_emit e : P e = true -> returns fr P (emit e).
Proof.
  intros H s. exists tt, (push e s). split; [reflexivity|].
  now apply evolves_push.
Qed.

Lemma returns_get {A} (f : Miner -> A) : returns fr P (get f).
Proof. intros s. exists (f s), s. split; [reflexivity | apply evolves_refl]. Qed.

Lemma returns_modify (f : Miner -> Miner) :
  (forall s, trace (f s) = trace s /\ (fr = true -> same_flags s (f s))) ->
  returns fr P (modify f).
Proof.
  intros H s. exists tt, (f s). split; [reflexivity|].
  destruct (H s) as (T & D). split; [|exact D].
  exists []. now rewrite app_nil_r.
Qed.

Lemma returns_read cur addr :
  (forall e v, P (EvRead addr e v) = true) ->
  returns fr P (SQRLAXIRead env cur addr).
Proof.
  intros H s. unfold SQRLAXIRead.
  destruct (hw_read env addr (count_reads addr (trace s))) as [e v].
  eexists _, _. split; [reflexivity|]. apply evolves_push, H.
Qed.

Lemma returns_query {A} (q : Miner -> A) (ev : A -> Event) :
  (forall a, P (ev a) = true) -> returns fr P (query q ev).
Proof.
  intros H s. eexists _, _. split; [reflexivity|]. apply evolves_push, H.
Qed.

Lemma returns_weaken {A} (Q : Event -> bool) (m : M A) :
  (forall e, Q e = true -> P e = true) -> returns true Q m -> returns fr P m.
Proof.
  intros HQ Hm s. destruct (Hm s) as (a & s' & E & X).
  exists a, s'. split; [exact E | eapply evolves_weaken; eauto].
Qed.

Lemma emits_of_returns {A} (m : M A) : returns fr P m -> emits P m.
Proof.
  intros Hm s. destruct (Hm s) as (a & s' & E & X & _).
  rewrite E. exact X.
Qed.

Lemma emits_ret {A} (a : A) : emits P (ret a).
Proof. intros s. apply extends_refl. Qed.

Lemma emits_bind {A B} (m : M A) (k : A -> M B) :
  emits P m -> (forall a, emits P (k a)) -> emits P (bind m k).
Proof.
  intros Hm Hk s. specialize (Hm s). unfold bind.
  destruct (m s) as [a s1 | c s1 | s1]; simpl in *; auto.
  eapply extends_trans; [exact Hm | apply Hk].
Qed.

Lemma emits_modify (f : Miner -> Miner) :
  (forall s, trace (f s) = trace s) -> emits P (modify f).
Proof. intros H s. exists []. simpl. now rewrite H, app_nil_r. Qed.

Lemma emits_exit {A} c : emits P (@exit_ A c).
Proof. intros s. apply extends_refl. Qed.

Lemma emits_out_of_fuel {A} : emits P (@out_of_fuel A).
Proof. intros s. apply extends_refl. Qed.

End Composition.

(** One step of a proof that an action returns: through a bind, a branch or
    a primitive whose event is in the predicate by computation. *)
Ltac returns_step :=
  lazymatch goal with
  | |- returns _ _ (ret _) => apply returns_ret
  | |- returns _ _ (bind _ _) => apply returns_bind; [ | intros ]
  | |- returns _ _ (emit _) => apply returns_emit; reflexivity
  | |- returns _ _ (sqrllog _) => apply returns_emit; reflexivity
  | |- returns _ _ (lock) => apply returns_emit; reflexivity
  | |- returns _ _ (unlock) => apply returns_emit; reflexivity
  | |- returns _ _ (usleep _) => apply returns_emit; reflexivity
  | |- returns _ _ (get _) => apply returns_get
  | |- returns _ _ (modify _) =>
      apply returns_modify; intros;
      (split; [reflexivity | intros; first [discriminate | split; reflexivity]])
  | |- returns _ _ (when ?b _) => destruct b; simpl
  | |- returns _ _ (SQRLAXIRead _ _ _) =>
      apply returns_read; intros; reflexivity
  | |- returns _ _ (query _ _) =>
      apply returns_query; intros; reflexivity
  | |- returns _ _ (SQRLAXIWrite _ _ _ _) =>
      apply returns_query; intros; reflexivity
  | |- returns _ _ (SQRLAXIWriteBulk _ _ _ _) =>
      apply returns_query; intros; reflexivity
  | |- returns _ _ (SQRLAXICDMACopyBytes _ _ _ _) =>
      apply returns_query; intros; reflexivity
  | |- returns _ _ (SQRLAXICDMAWriteBytes _ _ _) =>
      apply returns_query; intros; reflexivity
  | |- returns _ _ (SQRLAXIWaitForInterrupt _ _ _) =>
      apply returns_query; intros; reflexivity
  | |- returns _ _ (steady_now _) =>
      apply returns_query; intros; reflexivity
  | |- returns _ _ (load_new_work _) =>
      apply returns_query; intros; reflexivity
  | |- returns _ _ (shouldStop _) =>
      apply returns_query; intros; reflexivity
  | |- returns _ _ (getIntensitySettings _) =>
      apply returns_query; intros; reflexivity
  | |- returns _ _ (getHardwareErrorRate _) =>
      apply returns_query; intros; reflexivity
  | |- returns _ _ (getTuningStage _) =>
      apply returns_query; intros; reflexivity
  | |- returns _ _ (match ?x with _ => _ end) => destruct x
  end.

(** ** [StopHashcore] and [setClock] always return *)

Lemma ramp_down_returns env fuel : forall inn step dbg,
  1 <= step -> inn <= Z.of_nat fuel ->
  returns true stop_ev (ramp_down env fuel inn step dbg).
Proof.
  induction fuel as [|fuel IH]; intros inn step dbg Hs Hi; simpl.
  - destruct (inn >? 0) eqn:E; [lia | apply returns_ret].
  - destruct (inn >? 0) eqn:E; [|apply returns_ret].
    apply returns_bind; [returns_step | intros _].
    apply IH; lia.
Qed.

Lemma land_0xFF_range x : 0 <= Z.land x 0xFF <= 255.
Proof.
  change 0xFF with (Z.ones 8). rewrite Z.land_ones by lia.
  change (Z.ones 8) with 255. change (2 ^ 8) with 256.
  pose proof (Z.mod_pos_bound x 256). lia.
Qed.

Lemma ramp_step_positive inn :
  0 < inn <= 255 ->
  1 <= s32 (Dbl.to_Z (Dbl.ceil (Dbl.of_Z inn / 8)%float)).
Proof.
  intros H.
  assert (A : forallb
            (fun n => 1 <=? s32 (Dbl.to_Z
                                   (Dbl.ceil (Dbl.of_Z (Z.of_nat n) / 8)%float)))
            (seq 1 255) = true) by (vm_compute; reflexivity).
  rewrite forallb_forall in A.
  specialize (A (Z.to_nat inn)). rewrite Z2Nat.id in A by lia.
  apply Z.leb_le, A, in_seq. lia.
Qed.

Lemma intensity_ramp_returns env : returns true stop_ev (intensity_ramp env).
Proof.
  unfold intensity_ramp.
  returns_step; [returns_step|]. destruct a as [err dbg].
  destruct (err =? 0); [|returns_step].
  pose proof (land_0xFF_range (Z.shiftr dbg 24)) as R.
  set (inn := Z.land (Z.shiftr dbg 24) 0xFF) in *.
  returns_step.
  - destruct (Z.eq_dec inn 0) as [-> | N].
    + simpl. apply returns_ret.
    + apply ramp_down_returns; [apply ramp_step_positive | simpl]; lia.
  - destruct a as [inn' dbg']. repeat returns_step.
Qed.

Lemma StopHashcore_returns env soft :
  returns true stop_ev (StopHashcore env soft).
Proof.
  unfold StopHashcore. destruct soft; [|returns_step].
  returns_step; [apply intensity_ramp_returns | returns_step].
Qed.

(** A soft stop ends with the write that disables the core. *)
Lemma StopHashcore_soft_halts env s :
  exists c s' pre e,
    StopHashcore env true s = Ret c s' /\
    trace s' = trace s ++ pre ++ [EvWrite 0 0x506c false e] /\
    forallb stop_ev pre = true /\
    same_flags s s'.
Proof.
  unfold StopHashcore.
  destruct (intensity_ramp_returns env s) as (u & s1 & E & (pre & T & F) & Fl).
  unfold bind. rewrite E. unfold SQRLAXIWrite, query.
  eexists _, _, pre, _. split; [reflexivity|]. split; [|split].
  - simpl. rewrite T, <- app_assoc. reflexivity.
  - exact F.
  - exact (Fl eq_refl).
Qed.

Lemma wait_locked_returns env fuel : forall waitCnt,
  0 <= waitCnt < Z.of_nat fuel -> waitCnt < 4294967296 ->
  returns true clock_ev (wait_locked env fuel waitCnt).
Proof.
  induction fuel as [|fuel IH]; intros waitCnt H B; [lia|]. simpl.
  destruct (waitCnt =? 0) eqn:E; [apply returns_ret|].
  apply Z.eqb_neq in E.
  returns_step; [returns_step|].
  destruct a as [e locked]. destruct (Z.odd locked); [apply returns_ret|].
  unfold u32. change (2 ^ 32) with 4294967296.
  rewrite Z.mod_small by lia. apply IH; lia.
Qed.

Lemma setClock_returns env targetClk :
  returns true clock_ev (setClock env targetClk).
Proof.
  unfold setClock.
  repeat first
    [ apply wait_locked_returns; simpl; lia
    | returns_step ].
Qed.

Lemma getClock_returns env : returns true clock_ev (getClock env).
Proof. apply setClock_returns. Qed.

(** Membership in a list of addresses, as a disjunction of equations. *)
Ltac split_addr H :=
  unfold addr_in in H; simpl in H;
  repeat (apply orb_prop in H; destruct H as [H | H]);
  try discriminate H;
  try (apply Z.eqb_eq in H; subst).

Lemma clock_ev_idle e : clock_ev e = true -> idle_ev e = true.
Proof. destruct e; simpl; intros H; try discriminate; split_addr H; reflexivity. Qed.

Lemma stop_ev_idle e : stop_ev e = true -> idle_ev e = true.
Proof. destruct e; simpl; intros H; try discriminate; split_addr H; reflexivity. Qed.

Lemma idle_no_generation e : idle_ev e = true -> no_generation e = true.
Proof. unfold idle_ev. intros H. now apply andb_prop in H. Qed.

Lemma count_reads_extends P a s s' :
  (forall e, P e = true -> is_read_of a e = false) ->
  extends P s s' -> count_reads a (trace s') = count_reads a (trace s).
Proof.
  intros HP (l & E & F). unfold count_reads. rewrite E, filter_app, length_app.
  rewrite forallb_forall in F.
  assert (Z : filter (is_read_of a) l = []).
  { clear E. induction l as [|e l IH]; [reflexivity|]. simpl.
    rewrite (HP e) by (apply F; now left).
    apply IH. intros x Hx. apply F. now right. }
  rewrite Z. simpl. lia.
Qed.

(** ** The epoch pipeline *)

Lemma epoch_prepare_returns env ctx :
  returns false idle_ev (epoch_prepare env ctx).
Proof.
  unfold epoch_prepare, epoch_halt, program_items.
  repeat first
    [ apply (returns_weaken false idle_ev clock_ev), setClock_returns;
      exact clock_ev_idle
    | apply (returns_weaken false idle_ev stop_ev), StopHashcore_returns;
      exact stop_ev_idle
    | returns_step ].
Qed.

Lemma forallb_weaken (P Q : Event -> bool) l :
  (forall e, P e = true -> Q e = true) ->
  forallb P l = true -> forallb Q l = true.
Proof. intros H. rewrite !forallb_forall. auto. Qed.

Lemma epoch_up_to_date_spec env s :
  exists s' e post,
    epoch_up_to_date env s = Ret true s' /\
    trace s' = trace s
               ++ [EvLog "No DAG Generation is needed";
                   EvWrite 0 0xB000 true e; EvUnlock] ++ post /\
    forallb no_generation post = true /\
    m_dagging s' = false.
Proof.
  unfold epoch_up_to_date, sqrllog, unlock.
  unfold bind at 1. unfold emit at 1.
  unfold bind at 1. unfold SQRLAXIWrite at 1. unfold query at 1.
  unfold bind at 1. unfold modify at 1.
  unfold bind at 1. unfold emit at 1.
  unfold bind at 1. unfold get at 1.
  unfold bind at 1.
  match goal with
  | |- context [setClock env ?t ?st] =>
      destruct (setClock_returns env t st) as (c & s2 & E & (l & T & F) & Fl);
      rewrite E
  end.
  destruct (Fl eq_refl) as (D & _).
  unfold bind, get, emit, ret.
  eexists _, _, (l ++ [EvStartTune (m_lastClk s2)]). split; [reflexivity|].
  split; [|split].
  - simpl. rewrite T. simpl. rewrite <- !app_assoc. reflexivity.
  - rewrite forallb_app. simpl. rewrite andb_true_r.
    eapply forallb_weaken; [|exact F].
    intros e He. apply idle_no_generation, clock_ev_idle, He.
  - simpl. rewrite D. reflexivity.
Qed.

Lemma testbit31_shiftr w :
  Z.testbit w 31 = true -> (Z.shiftr w 31 =? 0) = false.
Proof.
  intros H. apply Z.eqb_neq. intros E.
  assert (T : Z.testbit (Z.shiftr w 31) 0 = true)
    by (rewrite Z.shiftr_spec by lia; exact H).
  rewrite E in T. discriminate T.
Qed.

Lemma land_0xFFFF_range x : 0 <= Z.land x 0xFFFF < 65536.
Proof.
  change 0xFFFF with (Z.ones 16). rewrite Z.land_ones by lia.
  change (2 ^ 16) with 65536. apply Z.mod_pos_bound. lia.
Qed.

(** C2: when the status word read from 0x40B8 has bit 31 set and its low 16
    bits are the requested epoch, and regeneration is not forced,
    [initEpoch_internal] returns [true] after powering the generator down
    (0 to 0xB000) and releasing the lock; no event before or after is a
    generation write: the only write to the generator's registers is the
    stop command, and there is no start command (1 to 0x4000), no light
    cache build, no mixer range, no bulk write and no DMA copy. *)
Theorem initEpoch_up_to_date_skips_generation env cfg ctx fuel s w :
  forceDAG cfg = false ->
  hw_read env 0x40B8 (count_reads 0x40B8 (trace s)) = (0, w) ->
  0 <= w < 2 ^ 32 ->
  Z.testbit w 31 = true ->
  Z.land w 0xFFFF = epochNumber ctx ->
  exists s' pre e post,
    initEpoch_internal env cfg ctx fuel s = Ret true s' /\
    trace s' = trace s ++ pre
               ++ [EvRead 0x40B8 0 w; EvLog "Current HW DAG is for Epoch";
                   EvLog "No DAG Generation is needed";
                   EvWrite 0 0xB000 true e; EvUnlock] ++ post /\
    forallb no_generation (pre ++ post) = true /\
    m_dagging s' = false.
Proof.
  intros Hforce Hread Hw Hbit Hepoch.
  unfold initEpoch_internal.
  destruct (epoch_prepare_returns env ctx s) as (u & s1 & E1 & (pre & T1 & F1) & _).
  unfold bind at 1. rewrite E1.
  assert (C : count_reads 0x40B8 (trace s1) = count_reads 0x40B8 (trace s)).
  { apply (count_reads_extends idle_ev); [|exists pre; auto].
    intros e He. unfold idle_ev in He. apply andb_prop in He.
    destruct He as [_ He]. now apply negb_true_iff in He. }
  unfold bind at 1. unfold SQRLAXIRead at 1. rewrite C, Hread.
  assert (U : u32 w = w) by (unfold u32; apply Z.mod_small; lia).
  change (0 =? 0) with true. cbv iota beta. rewrite U.
  change (u8 0 =? 0) with true. cbv iota beta.
  unfold bind at 1. change (negb true) with false. cbv iota. unfold ret at 1.
  rewrite (testbit31_shiftr w Hbit), Hforce.
  change (negb false && negb false) with true. cbv iota.
  unfold bind at 1. unfold bind at 1. unfold sqrllog at 1. unfold emit at 1.
  unfold ret at 1.
  assert (V : u32 (epochNumber ctx) = epochNumber ctx).
  { pose proof (land_0xFFFF_range w). unfold u32.
    apply Z.mod_small. change (2 ^ 32) with 4294967296. lia. }
  rewrite V, Hepoch, Z.eqb_refl.
  match goal with
  | |- context [epoch_up_to_date env ?st] =>
      destruct (epoch_up_to_date_spec env st) as (s' & e & post & E2 & T2 & F2 & D2)
  end.
  exists s', pre, e, post. split; [exact E2|]. split; [|split].
  - rewrite T2. simpl. rewrite T1. rewrite <- !app_assoc. reflexivity.
  - rewrite forallb_app, F2, andb_true_r.
    eapply forallb_weaken; [|exact F1]. exact idle_no_generation.
  - exact D2.
Qed.

Lemma initEpoch_up_to_date_witness :
  exists s' pre e post,
    initEpoch_internal (quiet_env rd_epoch42) sample_cfg epoch42 0 fresh_miner
    = Ret true s' /\
    trace s' = trace fresh_miner ++ pre
               ++ [EvRead 0x40B8 0 0x8000002A;
                   EvLog "Current HW DAG is for Epoch";
                   EvLog "No DAG Generation is needed";
                   EvWrite 0 0xB000 true e; EvUnlock] ++ post /\
    forallb no_generation (pre ++ post) = true /\
    m_dagging s' = false.
Proof.
  apply (initEpoch_up_to_date_skips_generation
           (quiet_env rd_epoch42) sample_cfg epoch42 0 fresh_miner 0x8000002A).
  - reflexivity.
  - reflexivity.
  - lia.
  - reflexivity.
  - reflexivity.
Defined.

(** ** Telemetry *)

Lemma getClock_reads_only env : returns true pll_read_ev (getClock env).
Proof.
  unfold getClock, setClock.
  change (Dbl.neqb (-1) (-1)) with false.
  change (0 <? -1)%float with false.
  change (-1 <? -1)%float with false.
  repeat returns_step.
Qed.

Lemma pll_read_sensor e : pll_read_ev e = true -> sensor_ev e = true.
Proof. destruct e; simpl; intros H; try discriminate; split_addr H; reflexivity. Qed.

Lemma read_sensors_returns env : returns true sensor_ev (read_sensors env).
Proof.
  unfold read_sensors.
  repeat first
    [ apply (returns_weaken true sensor_ev pll_read_ev), getClock_reads_only;
      exact pll_read_sensor
    | returns_step ].
Qed.

Lemma sensor_no_stop e : sensor_ev e = true -> no_stop_ev e = true.
Proof. destruct e; simpl; intros H; try discriminate; reflexivity. Qed.

Lemma sensor_not_health e : sensor_ev e = true -> is_read_of 0x7008 e = false.
Proof. destruct e; simpl; intros H; try discriminate; split_addr H; reflexivity. Qed.

(** What [getTelemetry] does, by the health word it decodes. *)
Lemma getTelemetry_cases env s :
  exists tel s',
    getTelemetry env s = Ret tel s' /\
    (stack_hazard (health_word env s) = true ->
       (exists pre e1 e2 msg,
          trace s' = trace s ++ pre
                     ++ [EvWrite 0 0x506c false e1; EvWrite 0 0xB000 true e2;
                         EvLog msg; EvNotify]) /\
       m_dagging s' = true /\ m_new_work s' = true) /\
    (stack_hazard (health_word env s) = false ->
       extends no_stop_ev s s' /\ same_flags s s').
Proof.
  unfold getTelemetry.
  destruct (read_sensors_returns env s)
    as ([[tempC fanprct] powerW] & s1 & E1 & (pre & T1 & F1) & Fl1).
  unfold bind at 1. rewrite E1.
  assert (C : count_reads 0x7008 (trace s1) = count_reads 0x7008 (trace s)).
  { apply (count_reads_extends sensor_ev); [exact sensor_not_health|].
    exists pre; auto. }
  unfold bind at 1. unfold SQRLAXIRead at 1. rewrite C. unfold health_word.
  destruct (hw_read env 0x7008 (count_reads 0x7008 (trace s))) as [e v].
  set (raw := if e =? 0 then u32 v else 3).
  unfold bind at 1. unfold unlock at 1. unfold emit at 1.
  unfold bind at 1. unfold modify at 1.
  unfold bind at 1. unfold getTuningStage at 1. unfold query at 1.
  cbv zeta.
  unfold bind at 1. unfold bind at 1. unfold sqrllog at 1. unfold emit at 1.
  set (s2 := push (EvLog "Avg 1m 10m 60m") _).
  assert (X2 : extends no_stop_ev s s2 /\ same_flags s s2).
  { split.
    - exists (pre ++ [EvRead 0x7008 e raw; EvUnlock; EvTunerQuery;
                      EvLog "Avg 1m 10m 60m"]).
      split.
      + subst s2. simpl. rewrite T1, <- !app_assoc. reflexivity.
      + rewrite forallb_app. simpl. rewrite andb_true_r.
        eapply forallb_weaken; [exact sensor_no_stop | exact F1].
    - subst s2. destruct (Fl1 eq_refl) as (D & N). split; simpl; assumption. }
  destruct (stack_hazard raw) eqn:Hz.
  - unfold emergency_stop.
    destruct (StopHashcore_soft_halts env s2)
      as (c & s3 & mid & e1 & E3 & T3 & F3 & Fl3).
    unfold bind at 1. unfold bind at 1. rewrite E3.
    destruct X2 as ((l2 & T2 & _) & _).
    destruct (leftCatastrophic raw || rightCatastrophic raw);
      unfold bind, SQRLAXIWrite, query, sqrllog, emit, modify, kick_miner,
        get, when, ret; simpl;
      (eexists _, _; split; [reflexivity|]; split; [|discriminate];
       intros _; split; [|split; reflexivity];
       eexists (l2 ++ mid), e1, _, _; simpl;
       rewrite T3, T2, <- !app_assoc; reflexivity).
  - eexists _, _. split; [reflexivity|]. split; [discriminate|].
    intros _. exact X2.
Qed.

(** The default word 0x3 is safe; setting one catastrophic bit or clearing
    one calibration bit makes the word unsafe. *)
Lemma stack_hazard_single_bits :
  stack_hazard 0x3 = false /\
  stack_hazard (0x3 + 0x4) = true /\
  stack_hazard (0x3 + 0x400) = true /\
  stack_hazard 0x2 = true /\
  stack_hazard 0x1 = true.
Proof. repeat split. Qed.



(** C4 as it is written fails: the read of 0x7008 fails while the register
    holds a word with both catastrophic bits set, and [getTelemetry] writes
    no register, wakes nobody and leaves the device not busy. *)
Lemma health_read_failure_suppresses_stop :
  let env := quiet_env rd_health_fails in
  fst (hw_read env 0x7008 0) <> 0 /\
  stack_hazard (snd (hw_read env 0x7008 0)) = true /\
  match getTelemetry env fresh_miner with
  | Ret _ s' => forallb no_stop_ev (trace s') && negb (m_dagging s')
  | _ => false
  end = true.
Proof.
  split; [|split].
  - vm_compute. discriminate.
  - vm_compute. reflexivity.
  - vm_compute. reflexivity.
Qed.

(** C4, amended: when the read of 0x7008 fails, the word decoded is the
    default 0x3, both stacks calibrated and none catastrophic, so
    [getTelemetry] returns without a register write or a wake-up and keeps
    the busy flag. *)
Theorem health_read_failure_default env s :
  fst (hw_read env 0x7008 (count_reads 0x7008 (trace s))) <> 0 ->
  exists tel s',
    getTelemetry env s = Ret tel s' /\
    health_word env s = 0x3 /\
    stack_hazard (health_word env s) = false /\
    extends no_stop_ev s s' /\ same_flags s s'.
Proof.
  intros H. destruct (getTelemetry_cases env s) as (tel & s' & E & _ & Hs).
  assert (W : health_word env s = 0x3).
  { unfold health_word.
    destruct (hw_read env 0x7008 (count_reads 0x7008 (trace s))) as [e v].
    simpl in H. apply Z.eqb_neq in H. now rewrite H. }
  exists tel, s'. rewrite W in *. split; [exact E|]. split; [reflexivity|].
  split; [reflexivity|]. apply Hs. reflexivity.
Qed.

Lemma health_read_failure_default_witness :
  fst (hw_read (quiet_env rd_health_fails) 0x7008
         (count_reads 0x7008 (trace fresh_miner))) <> 0 /\
  exists tel s',
    getTelemetry (quiet_env rd_health_fails) fresh_miner = Ret tel s' /\
    health_word (quiet_env rd_health_fails) fresh_miner = 0x3 /\
    stack_hazard (health_word (quiet_env rd_health_fails) fresh_miner) = false /\
    extends no_stop_ev fresh_miner s' /\ same_flags fresh_miner s'.
Proof.
  assert (H : fst (hw_read (quiet_env rd_health_fails) 0x7008
                     (count_reads 0x7008 (trace fresh_miner))) <> 0)
    by (simpl; lia).
  split; [exact H|].
  exact (health_read_failure_default (quiet_env rd_health_fails) fresh_miner H).
Defined.

(** ** The search loop *)





Lemma search_exit_spec env s :
  exists s' pre e,
    search_exit env s = Ret tt s' /\
    trace s' = trace s ++ pre ++ [EvWrite 0 0x506c false e; EvUnlock] /\
    forallb stop_ev pre = true.
Proof.
  unfold search_exit.
  destruct (StopHashcore_soft_halts env s) as (c & s1 & pre & e & E & T & F & _).
  unfold bind. rewrite E. unfold unlock, emit.
  eexists _, pre, e. split; [reflexivity|]. split; [|exact F].
  simpl. rewrite T, <- !app_assoc. reflexivity.
Qed.


Lemma processHashrateAverages_returns env newTcks :
  returns false any_ev (processHashrateAverages env newTcks).
Proof. unfold processHashrateAverages. repeat returns_step. Qed.

(** A turn always comes to its end, the one way out being [exit(1)] on an
    interrupt error under the die-on-error policy, before the stall counter
    is sampled. *)
Lemma search_iteration_returns env cfg lastSCnt lastTChecks :
  dieOnError cfg = false ->
  returns false any_ev (search_iteration env cfg lastSCnt lastTChecks).
Proof.
  intros Hdie. unfold search_iteration. rewrite Hdie.
  repeat first
    [ apply processHashrateAverages_returns
    | returns_step ].
Qed.


(** ** The boundary programmed by [search] *)

Ltac emits_step :=
  lazymatch goal with
  | |- emits _ (ret _) => apply emits_ret
  | |- emits _ (bind _ _) => apply emits_bind; [ | intros; cbv beta ]
  | |- emits _ (exit_ _) => apply emits_exit
  | |- emits _ out_of_fuel => apply emits_out_of_fuel
  | |- emits _ (modify _) => apply emits_modify; reflexivity
  | |- emits _ (when ?b _) => destruct b; simpl
  | |- emits _ (match ?x with _ => _ end) => destruct x
  | |- emits _ _ => apply (emits_of_returns false); returns_step
  end.

Lemma stop_ev_no_bulk e : stop_ev e = true -> no_bulk_write e = true.
Proof. destruct e; simpl; intros H; try discriminate; reflexivity. Qed.

Lemma processHashrateAverages_emits env newTcks :
  emits no_bulk_write (processHashrateAverages env newTcks).
Proof. unfold processHashrateAverages. repeat emits_step. Qed.

Lemma search_iteration_emits env cfg lastSCnt lastTChecks :
  emits no_bulk_write (search_iteration env cfg lastSCnt lastTChecks).
Proof.
  unfold search_iteration.
  repeat first
    [ apply processHashrateAverages_emits
    | emits_step ].
Qed.

Lemma search_exit_emits env : emits no_bulk_write (search_exit env).
Proof.
  unfold search_exit. emits_step; [|emits_step].
  apply (emits_of_returns false), (returns_weaken false no_bulk_write stop_ev).
  - exact stop_ev_no_bulk.
  - apply StopHashcore_returns.
Qed.

Lemma search_loop_emits env cfg fuel : forall lastSCnt lastTChecks,
  emits no_bulk_write (search_loop env cfg fuel lastSCnt lastTChecks).
Proof.
  induction fuel as [|fuel IH]; intros lastSCnt lastTChecks; simpl.
  - apply emits_out_of_fuel.
  - repeat first
      [ apply search_iteration_emits
      | apply IH
      | emits_step ].
Qed.

Lemma falseTarget_of_max w : falseTarget_of w = Z.max falseTarget0 (boundary w).
Proof.
  unfold falseTarget_of.
  destruct (boundary w >? falseTarget0) eqn:E.
  - apply Z.gtb_lt in E. lia.
  - rewrite Z.gtb_ltb in E. apply Z.ltb_ge in E. lia.
Qed.

Lemma bind_assoc {A B C} (m : M A) (k : A -> M B) (k' : B -> M C) s :
  bind (bind m k) k' s = bind m (fun a => bind (k a) k') s.
Proof. unfold bind. destruct (m s); reflexivity. Qed.

(** C6, amended: whatever becomes of the search, its trace starts with the
    lock and the header, and the boundary it writes to 0x5020 is the
    numerically larger, that is the easier, of the fixed boundary
    0x0000001f ff..ff and the boundary of the work package; no other bulk
    write follows. *)
Theorem search_programs_larger_boundary env cfg w fuel s :
  exists e1 logs e2 rest,
    trace (final (search env cfg w fuel s))
    = trace s ++ [EvLock; EvWriteBulk (header w) 0x5000 1 e1] ++ logs
      ++ [EvWriteBulk (h256_data (Z.max falseTarget0 (boundary w))) 0x5020 1 e2]
      ++ rest /\
    forallb no_bulk_write (logs ++ rest) = true.
Proof.
  unfold search, search_entry.
  rewrite bind_assoc. unfold bind at 1. unfold modify at 1.
  rewrite bind_assoc. unfold bind at 1. unfold lock at 1. unfold emit at 1.
  rewrite bind_assoc. unfold bind at 1. unfold SQRLAXIWriteBulk at 1.
  unfold query at 1. cbv zeta.
  set (s1 := push (EvWriteBulk _ _ _ _) _).
  set (e1 := hw_write env _).
  rewrite bind_assoc. unfold bind at 1.
  assert (L : exists logs s2,
             when (negb (u8 e1 =? 0)) (sqrllog "Failed setting ethcore header") s1
             = Ret tt s2 /\ trace s2 = trace s1 ++ logs /\
             forallb no_bulk_write logs = true).
  { destruct (negb (u8 e1 =? 0)); simpl.
    - eexists [_], _. split; [reflexivity|]. split; reflexivity.
    - exists [], s1. split; [reflexivity|]. split; [|reflexivity].
      now rewrite app_nil_r. }
  destruct L as (logs & s2 & E2 & T2 & F2). rewrite E2.
  rewrite bind_assoc. unfold bind at 1. unfold SQRLAXIWriteBulk at 1.
  unfold query at 1. cbv zeta.
  set (s3 := push (EvWriteBulk _ _ _ _) _).
  set (e2 := hw_write env _).
  match goal with
  | |- context [final (?m s3)] =>
      assert (R : emits no_bulk_write m)
  end.
  { repeat first
      [ apply search_loop_emits
      | apply search_exit_emits
      | emits_step ]. }
  destruct (R s3) as (rest & T & F).
  exists e1, logs, e2, rest. split.
  - rewrite T. subst s3. simpl. rewrite T2. subst s1. simpl.
    rewrite falseTarget_of_max, <- !app_assoc. reflexivity.
  - now rewrite forallb_app, F2, F.
Qed.

(** C6 as it is written fails: for work at difficulty 1 the bytes written to
    0x5020 are those of the work's own boundary, 32 times 0xff, not those of
    the stricter fixed boundary. *)
Lemma search_passes_easy_boundary :
  bulk_writes (trace (final (search (quiet_env (fun _ _ => (0, 0)))
                               sample_cfg easy_work 1 fresh_miner)))
  = [(0x5000, header easy_work); (0x5020, repeat 255 32)] /\
  Z.min falseTarget0 (boundary easy_work) = falseTarget0 /\
  h256_data falseTarget0 <> repeat 255 32.
Proof.
  split; [|split].
  - vm_compute. reflexivity.
  - vm_compute. reflexivity.
  - vm_compute. discriminate.
Qed.

(** ** The divisor programmed by [setClock] *)

(** C7, at the failing input: with a VCO of 1600 MHz and a target of 456,
    the requested divisor is 1600/457 = 3.5011; [setClock] programs
    0x1F403, which stands for 3.5, a multiple of 0.125 below the requested
    divisor, and the resulting clock is above 457 MHz. *)
Theorem setClock_456_rounds_down :
  let env := quiet_env rd_vco1600 in
  match setClock env 456 fresh_miner with
  | Ret currentClk s' =>
      writes_to 0x8208 (trace s') = [0x1F403] /\
      (457 <? currentClk)%float = true
  | _ => False
  end /\
  vco_of 0x801 = 1600%float /\
  round_div (1600 / (456 + 1))%float = 3.5%float /\
  clk0div_of 0x1F403 = 3.5%float /\
  (Dbl.toQ 3.5 < 1600 / 457)%Q.
Proof.
  split; [vm_compute; split; reflexivity|].
  split; [vm_compute; reflexivity|].
  split; [vm_compute; reflexivity|].
  split; vm_compute; reflexivity.
Qed.

(** ** The item count and its reciprocal *)

Lemma any_ev_top (P : Event -> bool) e : P e = true -> any_ev e = true.
Proof. reflexivity. Qed.

Ltac any_step :=
  first
    [ apply (emits_of_returns false),
        (returns_weaken false any_ev clock_ev), setClock_returns;
      apply any_ev_top
    | apply (emits_of_returns false),
        (returns_weaken false any_ev clock_ev), getClock_returns;
      apply any_ev_top
    | apply (emits_of_returns false),
        (returns_weaken false any_ev stop_ev), StopHashcore_returns;
      apply any_ev_top
    | emits_step ].

Lemma poll_cache_emits env cfg fuel : forall cstatus,
  emits any_ev (poll_cache env cfg fuel cstatus).
Proof.
  induction fuel as [|fuel IH]; intros cstatus; cbn [poll_cache].
  - repeat any_step.
  - repeat first [ apply IH | any_step ].
Qed.

Lemma upload_cache_emits env fuel : forall cacheSize pos steps,
  emits any_ev (upload_cache env fuel cacheSize pos steps).
Proof.
  induction fuel as [|fuel IH]; intros cacheSize pos steps; cbn [upload_cache].
  - repeat any_step.
  - repeat first [ apply IH | any_step ].
Qed.

Lemma program_mixers_emits env n : forall i dagPos mixer_size leftover,
  emits any_ev (program_mixers env n i dagPos mixer_size leftover).
Proof.
  induction n as [|n IH]; intros i dagPos mixer_size leftover; cbn [program_mixers].
  - any_step.
  - repeat first [ apply IH | any_step ].
Qed.

Lemma poll_dag_emits env cfg fuel : forall status cnt,
  emits any_ev (poll_dag env cfg fuel status cnt).
Proof.
  induction fuel as [|fuel IH]; intros status cnt; cbn [poll_dag].
  - repeat any_step.
  - repeat first [ apply IH | any_step ].
Qed.

Lemma swizzle_emits env n : forall i err,
  emits any_ev (swizzle env n i err).
Proof.
  induction n as [|n IH]; intros i err; cbn [swizzle].
  - any_step.
  - repeat first [ apply IH | any_step ].
Qed.

Lemma regenerate_emits env cfg ctx fuel :
  emits any_ev (regenerate env cfg ctx fuel).
Proof.
  unfold regenerate.
  repeat first
    [ apply poll_cache_emits
    | apply upload_cache_emits
    | apply program_mixers_emits
    | apply poll_dag_emits
    | apply swizzle_emits
    | any_step ].
Qed.

Lemma epoch_halt_returns env : returns false any_ev (epoch_halt env).
Proof.
  unfold epoch_halt.
  repeat first
    [ apply (returns_weaken false any_ev clock_ev), setClock_returns;
      apply any_ev_top
    | apply (returns_weaken false any_ev stop_ev), StopHashcore_returns;
      apply any_ev_top
    | returns_step ].
Qed.

Lemma when_log_spec (b : bool) msg s :
  exists logs s',
    when b (sqrllog msg) s = Ret tt s' /\
    trace s' = trace s ++ logs /\ forallb is_log logs = true.
Proof.
  destruct b; simpl.
  - eexists [_], _. split; [reflexivity|]. split; reflexivity.
  - exists [], s. split; [reflexivity|]. split; [|reflexivity].
    now rewrite app_nil_r.
Qed.

(** C8 as it is written fails for the item counts the claim names: for an
    item count of 1 the value written to 0x5088 is 0, the low 32 bits of
    2^56, and not 2^56 itself. *)
Lemma reciprocal_of_1_truncated :
  register_writes
    (trace (final (program_items (quiet_env (fun _ _ => (0, 0)))
                     one_item_epoch fresh_miner)))
  = [(0x5040, 1); (0x5088, 0)] /\
  Z.shiftr (2 ^ 60 / 1) 4 = 2 ^ 56.
Proof. split; vm_compute; reflexivity. Qed.

(** Where the quotient fits in 32 bits the rounding of [1.0 / nItems] to a
    double can still push the value one above the exact one. *)
Lemma reciprocal_of_rounds_up :
  reciprocal_of 48912491 = 1473194118 /\
  Z.shiftr (2 ^ 60 / 48912491) 4 = 1473194117.
Proof. split; vm_compute; reflexivity. Qed.

(** C8, amended: on every epoch change the item count [dagSize / 128] is
    written to 0x5040 and then, after at most a log line, the low 32 bits of
    [(uint64_t)(1.0 / itemCount * 2^60) >> 4] to 0x5088; for the item counts
    1, 7, 123456 and 2^20 that value is [floor(2^60 / itemCount) >> 4]
    modulo 2^32. *)
Theorem initEpoch_programs_reciprocal env cfg ctx fuel s :
  (exists pre e1 logs e2 rest,
     trace (final (initEpoch_internal env cfg ctx fuel s))
     = trace s ++ pre
       ++ [EvWrite (nItems_of ctx) 0x5040 true e1] ++ logs
       ++ [EvWrite (reciprocal_of (nItems_of ctx)) 0x5088 true e2] ++ rest /\
     forallb is_log logs = true) /\
  nItems_of ctx = (dagSize ctx / 128) mod 2 ^ 32 /\
  Forall (fun n => reciprocal_of n = Z.shiftr (2 ^ 60 / n) 4 mod 2 ^ 32)
    [1; 7; 123456; 2 ^ 20].
Proof.
  split; [|split; [reflexivity|]].
  - unfold initEpoch_internal, epoch_prepare.
    rewrite !bind_assoc.
    destruct (epoch_halt_returns env s) as (u & s1 & E1 & (pre & T1 & _) & _).
    unfold bind at 1. rewrite E1.
    unfold program_items.
    rewrite bind_assoc. unfold bind at 1. unfold SQRLAXIWrite at 1.
    unfold query at 1. cbv zeta.
    set (e1 := hw_write env (tick s1)).
    set (s2 := push (EvWrite _ _ _ e1) s1).
    rewrite bind_assoc. unfold bind at 1.
    destruct (when_log_spec (negb (u8 e1 =? 0))
                "Failed setting ethcore nItems" s2)
      as (logs & s3 & E3 & T3 & F3).
    rewrite E3.
    rewrite bind_assoc. unfold bind at 1. unfold SQRLAXIWrite at 1.
    unfold query at 1. cbv zeta.
    set (e2 := hw_write env (tick s3)).
    set (s4 := push (EvWrite _ _ _ e2) s3).
    match goal with
    | |- context [final (?m s4)] => assert (R : emits any_ev m)
    end.
    { repeat first
        [ apply regenerate_emits
        | apply (emits_of_returns false),
            (returns_weaken false any_ev clock_ev), setClock_returns;
          apply any_ev_top
        | unfold epoch_up_to_date; any_step ]. }
    destruct (R s4) as (rest & T & _).
    exists pre, e1, logs, e2, rest. split; [|exact F3].
    rewrite T. subst s4. simpl. rewrite T3. subst s2. simpl. rewrite T1.
    rewrite <- !app_assoc. reflexivity.
  - repeat constructor; vm_compute; reflexivity.
Qed.

(** ** The mixer ranges *)

Lemma u32_small x : 0 <= x < 4294967296 -> u32 x = x.
Proof. intros H. unfold u32. change (2 ^ 32) with 4294967296. now apply Z.mod_small. Qed.

Lemma mixer_range_next q r i :
  0 <= i -> snd (mixer_range q r i) = fst (mixer_range q r (i + 1)).
Proof.
  intros H. unfold mixer_range.
  destruct (Z.eqb_spec (i + 1) 0); [lia|].
  destruct (Z.eqb_spec i 0); simpl; lia.
Qed.

Lemma program_mixers_writes env q r : forall n i s,
  0 <= q -> 0 <= r -> 0 <= i ->
  r + (i + Z.of_nat n) * q < 4294967296 ->
  exists s' evs,
    program_mixers env n i (fst (mixer_range q r i)) q r s = Ret tt s' /\
    trace s' = trace s ++ evs /\
    register_writes evs = flat_map (mixer_regs q r) (indices n i).
Proof.
  induction n as [|n IH]; intros i s Hq Hr Hi Hb.
  - exists s, []. cbn [program_mixers indices flat_map]. split; [reflexivity|].
    split; [now rewrite app_nil_r | reflexivity].
  - cbn [program_mixers indices flat_map].
    assert (B : 0 <= r + (i + 1) * q < 4294967296) by nia.
    assert (E : (if i =? 0
                 then u32 (u32 (fst (mixer_range q r i) + q) + r)
                 else u32 (fst (mixer_range q r i) + q))
                = fst (mixer_range q r (i + 1))).
    { rewrite <- mixer_range_next by lia. unfold mixer_range.
      destruct (Z.eqb_spec i 0) as [-> | N]; cbn [fst snd].
      - rewrite (u32_small (0 + q)) by lia. rewrite u32_small by lia. lia.
      - rewrite u32_small by lia. lia. }
    rewrite E.
    unfold bind at 1. unfold SQRLAXIWrite at 1. unfold query at 1. cbv zeta.
    unfold bind at 1. unfold SQRLAXIWrite at 1. unfold query at 1. cbv zeta.
    match goal with
    | |- context [program_mixers env n (i + 1) _ q r ?st] =>
        destruct (IH (i + 1) st Hq Hr ltac:(lia) ltac:(lia))
          as (s' & evs & E' & T' & W')
    end.
    exists s'. eexists (_ :: _ :: evs). split; [exact E'|]. split.
    + rewrite T'. cbn [trace push]. rewrite <- !app_assoc. reflexivity.
    + cbn [register_writes flat_map app]. fold (register_writes evs).
      rewrite W'. rewrite <- (mixer_range_next q r i) by lia. reflexivity.
Qed.

Lemma sum_range_lengths q r : forall n i,
  1 <= i ->
  sumZ (map (fun k => range_length (mixer_range q r k)) (indices n i))
  = Z.of_nat n * q.
Proof.
  induction n as [|n IH]; intros i Hi; [reflexivity|].
  cbn [indices map sumZ fold_right]. fold (sumZ (map (fun k => range_length (mixer_range q r k)) (indices n (i + 1)))).
  rewrite IH by lia. rewrite Nat2Z.inj_succ. unfold range_length, mixer_range.
  destruct (Z.eqb_spec i 0); [lia|]. cbn [fst snd]. lia.
Qed.

(** C9 as it is written fails beyond 32 bits: for a DAG of 2^32 items and
    one mixer the range programmed is [0, 0), of length 0. *)
Lemma mixer_partition_wraps :
  dagSize huge_epoch / 64 = 2 ^ 32 /\
  register_writes
    (trace (final (program_mixers (quiet_env (fun _ _ => (0, 0))) 1 0 0
                     (mixer_size_of huge_epoch 1) (leftover_of huge_epoch 1)
                     fresh_miner)))
  = [(0x400c, 0); (0x4010, 0)].
Proof. split; vm_compute; reflexivity. Qed.

(** C9, amended: when the number of DAG items [dagSize / 64] fits in 32
    bits and there is at least one mixer, the loop over the mixers writes,
    for mixer 0, 1, ... in turn, the start and the end of its range to
    0x400c + 8i and 0x4010 + 8i.  The first range starts at 0, each range
    ends where the next starts, the last ends at the number of items, no
    range is negative, every mixer but the first gets
    [floor(dagItems / mixerCount)] items and mixer 0 gets
    [dagItems mod mixerCount] more; the lengths sum to the number of items. *)
Theorem mixer_partition env ctx num_mixers s :
  0 <= dagSize ctx ->
  dagSize ctx / 64 < 2 ^ 32 ->
  1 <= num_mixers < 2 ^ 32 ->
  let dagItems := dagSize ctx / 64 in
  let q := dagItems / num_mixers in
  let r := dagItems mod num_mixers in
  let n := Z.to_nat num_mixers in
  (exists s' evs,
     program_mixers env n 0 0 (mixer_size_of ctx num_mixers)
       (leftover_of ctx num_mixers) s = Ret tt s' /\
     trace s' = trace s ++ evs /\
     register_writes evs = flat_map (mixer_regs q r) (indices n 0)) /\
  fst (mixer_range q r 0) = 0 /\
  (forall i, 0 <= i < num_mixers - 1 ->
     snd (mixer_range q r i) = fst (mixer_range q r (i + 1))) /\
  snd (mixer_range q r (num_mixers - 1)) = dagItems /\
  (forall i, 0 <= i < num_mixers ->
     fst (mixer_range q r i) <= snd (mixer_range q r i)) /\
  (forall i, 1 <= i < num_mixers -> range_length (mixer_range q r i) = q) /\
  range_length (mixer_range q r 0) = q + r /\
  sumZ (map (fun i => range_length (mixer_range q r i)) (indices n 0))
  = dagItems.
Proof.
  change (2 ^ 32) with 4294967296.
  intros Hd Hb Hm dagItems q r n.
  assert (Hi : 0 <= dagItems) by (apply Z.div_pos; lia).
  assert (Hq : 0 <= q) by (apply Z.div_pos; lia).
  assert (Hr : 0 <= r < num_mixers) by (apply Z.mod_pos_bound; lia).
  assert (Hdiv : dagItems = num_mixers * q + r)
    by (apply Z.div_mod; lia).
  assert (Hms : mixer_size_of ctx num_mixers = q).
  { unfold mixer_size_of. apply u32_small. fold dagItems. fold q. nia. }
  assert (Hlo : leftover_of ctx num_mixers = r).
  { unfold leftover_of. rewrite Hms. fold dagItems.
    rewrite (u32_small (q * num_mixers)) by nia.
    replace (dagItems - q * num_mixers) with r by lia.
    apply u32_small. lia. }
  assert (Hn : Z.of_nat n = num_mixers) by (apply Z2Nat.id; lia).
  split; [|split; [|split; [|split; [|split; [|split; [|split]]]]]].
  - rewrite Hms, Hlo.
    apply (program_mixers_writes env q r n 0 s); try lia.
  - reflexivity.
  - intros i Hi'. apply mixer_range_next. lia.
  - unfold mixer_range.
    destruct (Z.eqb_spec (num_mixers - 1) 0) as [E | E]; simpl; nia.
  - intros i Hi'. unfold mixer_range.
    destruct (Z.eqb_spec i 0); simpl; nia.
  - intros i Hi'. unfold range_length, mixer_range.
    destruct (Z.eqb_spec i 0); simpl; lia.
  - unfold range_length, mixer_range. simpl. lia.
  - destruct n as [|n'] eqn:En; [lia|].
    cbn [indices map sumZ fold_right].
    fold (sumZ (map (fun i => range_length (mixer_range q r i))
                  (indices n' (0 + 1)))).
    rewrite sum_range_lengths by lia.
    unfold range_length, mixer_range. simpl. lia.
Qed.

Lemma mixer_partition_witness :
  0 <= dagSize epoch42 /\
  dagSize epoch42 / 64 < 2 ^ 32 /\
  1 <= 7 < 2 ^ 32 /\
  (exists s' evs,
     program_mixers (quiet_env (fun _ _ => (0, 0))) (Z.to_nat 7) 0 0
       (mixer_size_of epoch42 7) (leftover_of epoch42 7) fresh_miner
     = Ret tt s' /\
     trace s' = trace fresh_miner ++ evs /\
     register_writes evs
     = flat_map (mixer_regs (dagSize epoch42 / 64 / 7)
                   ((dagSize epoch42 / 64) mod 7))
         (indices (Z.to_nat 7) 0)).
Proof.
  assert (H1 : 0 <= dagSize epoch42) by (vm_compute; discriminate).
  assert (H2 : dagSize epoch42 / 64 < 2 ^ 32) by (vm_compute; reflexivity).
  assert (H3 : 1 <= 7 < 2 ^ 32) by (split; vm_compute; [discriminate | reflexivity]).
  split; [exact H1|]. split; [exact H2|]. split; [exact H3|].
  exact (proj1 (mixer_partition (quiet_env (fun _ _ => (0, 0))) epoch42 7
                  fresh_miner H1 H2 H3)).
Defined.

(** ** The hash-rate averager *)

Lemma pop_past_within cap (v : list float) :
  (length v <= cap)%nat -> pop_past cap v = v.
Proof.
  intros H. unfold pop_past.
  destruct (Nat.ltb_spec cap (length v)); [lia | reflexivity].
Qed.

Lemma pop_past_push cap (v : list float) a :
  (0 < cap)%nat ->
  (length v <= cap)%nat ->
  pop_past cap (v ++ [a])
  = if (length v <? cap)%nat then v ++ [a] else tl v ++ [a].
Proof.
  intros H0 H. unfold pop_past. rewrite length_app. simpl.
  destruct (Nat.ltb_spec cap (length v + 1)), (Nat.ltb_spec (length v) cap);
    try lia; try reflexivity.
  destruct v as [|x v]; [simpl in *; lia | reflexivity].
Qed.

Lemma pop_past_length cap (v : list float) :
  (length v <= S cap)%nat -> (length (pop_past cap v) <= cap)%nat.
Proof.
  intros H. unfold pop_past.
  destruct (Nat.ltb_spec cap (length v)); [|lia].
  destruct v; simpl in *; lia.
Qed.

(** C10 as it is written fails at the boundary: when exactly 60 seconds
    have elapsed since the last flush nothing is flushed, the counter keeps
    the accumulated checks and no average is computed. *)
Lemma no_flush_at_60_seconds :
  Z.quot (60000000000 - m_avgHashTimer fresh_miner) 1000000000 = 60 /\
  match processHashrateAverages (clock_env 60000000000) 1800000000
          fresh_miner with
  | Ret _ s' =>
      m_hashCounter s' = 1800000000 /\
      m_avgValues s' = m_avgValues fresh_miner /\
      m_10minHashAvg s' = [] /\
      m_avgHashTimer s' = m_avgHashTimer fresh_miner
  | _ => False
  end.
Proof.
  split; [reflexivity|]. vm_compute. repeat split; reflexivity.
Qed.

(** C10, amended: [processHashrateAverages] adds the delta to the counter
    and flushes exactly when more than 60 whole seconds have elapsed since
    the last flush.  At a flush the first average is the counter divided by
    60, in units of 10^6; it is appended to both histories if and only if it
    lies strictly between 10 and 100, the oldest entry leaving a history
    that is full, so that the histories hold at most 10 and 60 entries; the
    counter is set to 0 and the timer to the time of the flush.  Without a
    flush only the counter changes. *)
Theorem processHashrateAverages_flush env newTcks s :
  (length (m_10minHashAvg s) <= 10)%nat ->
  (length (m_60minHashAvg s) <= 60)%nat ->
  let counter := u64 (m_hashCounter s + newTcks) in
  let elapsedSeconds :=
    Z.quot (clock_now env (length (trace s)) - m_avgHashTimer s) 1000000000 in
  let avg1min := avg1min_of counter in
  let h10 := m_10minHashAvg s in
  let h60 := m_60minHashAvg s in
  exists s',
    processHashrateAverages env newTcks s = Ret tt s' /\
    if elapsedSeconds >? 60 then
      nth 0 (m_avgValues s') 0%float = avg1min /\
      m_10minHashAvg s'
      = (if in_band avg1min
         then if (length h10 <? 10)%nat then h10 ++ [avg1min]
              else tl h10 ++ [avg1min]
         else h10) /\
      m_60minHashAvg s'
      = (if in_band avg1min
         then if (length h60 <? 60)%nat then h60 ++ [avg1min]
              else tl h60 ++ [avg1min]
         else h60) /\
      (length (m_10minHashAvg s') <= 10)%nat /\
      (length (m_60minHashAvg s') <= 60)%nat /\
      m_hashCounter s' = 0 /\
      m_avgHashTimer s' = clock_now env (length (trace s) + 2)
    else
      m_hashCounter s' = counter /\
      m_10minHashAvg s' = h10 /\
      m_60minHashAvg s' = h60 /\
      m_avgHashTimer s' = m_avgHashTimer s /\
      m_avgValues s' = m_avgValues s.
Proof.
  intros L10 L60 counter elapsedSeconds avg1min h10 h60.
  unfold processHashrateAverages.
  unfold bind at 1. unfold get at 1.
  unfold bind at 1. unfold modify at 1.
  unfold bind at 1. unfold steady_now at 1. unfold query at 1. cbv zeta.
  unfold bind at 1. unfold get at 1.
  fold counter.
  change (tick (set_hashCounter counter s)) with (length (trace s)).
  change (m_avgHashTimer (push _ (set_hashCounter counter s)))
    with (m_avgHashTimer s).
  fold elapsedSeconds.
  destruct (elapsedSeconds >? 60).
  - unfold bind, get, modify, getHardwareErrorRate, steady_now, query.
    cbn [m_hashCounter m_10minHashAvg m_60minHashAvg push set_hashCounter
         set_averages trace tick m_avgValues m_avgHashTimer nth].
    fold counter. fold avg1min. fold h10. fold h60.
    eexists. split; [reflexivity|].
    cbn [m_hashCounter m_10minHashAvg m_60minHashAvg push set_hashCounter
         set_averages trace tick m_avgValues m_avgHashTimer nth].
    split; [reflexivity|].
    assert (E10 : pop_past 10
                    (if in_band avg1min then h10 ++ [avg1min] else h10)
                  = if in_band avg1min
                    then if (length h10 <? 10)%nat then h10 ++ [avg1min]
                         else tl h10 ++ [avg1min]
                    else h10).
    { destruct (in_band avg1min);
        [apply pop_past_push; [lia|] | apply pop_past_within]; exact L10. }
    assert (E60 : pop_past 60
                    (if in_band avg1min then h60 ++ [avg1min] else h60)
                  = if in_band avg1min
                    then if (length h60 <? 60)%nat then h60 ++ [avg1min]
                         else tl h60 ++ [avg1min]
                    else h60).
    { destruct (in_band avg1min);
        [apply pop_past_push; [lia|] | apply pop_past_within]; exact L60. }
    split; [exact E10|]. split; [exact E60|].
    split; [|split; [|split]].
    + apply pop_past_length. destruct (in_band avg1min);
        [rewrite length_app; simpl|]; fold h10 in L10; lia.
    + apply pop_past_length. destruct (in_band avg1min);
        [rewrite length_app; simpl|]; fold h60 in L60; lia.
    + reflexivity.
    + unfold tick. cbn [trace push set_hashCounter].
      rewrite !length_app. simpl. f_equal. lia.
  - eexists. split; [reflexivity|]. repeat split.
Qed.

Lemma processHashrateAverages_flush_witness :
  (length (m_10minHashAvg fresh_miner) <= 10)%nat /\
  (length (m_60minHashAvg fresh_miner) <= 60)%nat /\
  exists s',
    processHashrateAverages (clock_env 61000000000) 1800000000 fresh_miner
    = Ret tt s' /\
    m_10minHashAvg s' = [30%float] /\
    m_hashCounter s' = 0.
Proof.
  assert (H1 : (length (m_10minHashAvg fresh_miner) <= 10)%nat)
    by (simpl; lia).
  assert (H2 : (length (m_60minHashAvg fresh_miner) <= 60)%nat)
    by (simpl; lia).
  split; [exact H1|]. split; [exact H2|].
  destruct (processHashrateAverages_flush (clock_env 61000000000) 1800000000
              fresh_miner H1 H2) as (s' & E & R).
  exists s'. split; [exact E|].
  change (Z.quot (clock_now (clock_env 61000000000)
                    (length (trace fresh_miner))
                  - m_avgHashTimer fresh_miner) 1000000000 >? 60)
    with true in R.
  cbv iota in R. destruct R as (_ & R10 & _ & _ & _ & C & _).
  split; [|exact C]. rewrite R10. vm_compute. reflexivity.
Defined.

(** * Further properties *)

(** ** The byte swaps *)

Lemma testbit_0xFF m : Z.testbit 0xFF m = (0 <=? m) && (m <? 8).
Proof. change 0xFF with (Z.ones 8). apply Z.testbit_ones. lia. Qed.

(** Bit [n] of a byte of [x] moved from bit [a] to bit [b]. *)
Lemma moved_byte_bit x a b n :
  0 <= a -> 0 <= b ->
  Z.testbit (Z.shiftl (Z.land (Z.shiftr x a) 0xFF) b) n
  = (b <=? n) && (n <? b + 8) && Z.testbit x (n - b + a).
Proof.
  intros Ha Hb. destruct (Z.leb_spec b n) as [L | L].
  - rewrite Z.shiftl_spec by lia. rewrite Z.land_spec, testbit_0xFF.
    rewrite Z.shiftr_spec by lia.
    destruct (Z.leb_spec 0 (n - b)); [|lia].
    destruct (Z.ltb_spec (n - b) 8), (Z.ltb_spec n (b + 8)); try lia;
      simpl; rewrite ?andb_false_r, ?andb_true_r; reflexivity.
  - destruct (Z.lt_ge_cases n 0) as [N | N].
    + now rewrite Z.testbit_neg_r.
    + rewrite Z.shiftl_spec by lia. now rewrite Z.testbit_neg_r by lia.
Qed.

Lemma eswap32_bit x n :
  Z.testbit (eswap32 x) n
  = (24 <=? n) && (n <? 32) && Z.testbit x (n - 24)
    || (16 <=? n) && (n <? 24) && Z.testbit x (n - 8)
    || (8 <=? n) && (n <? 16) && Z.testbit x (n + 8)
    || (0 <=? n) && (n <? 8) && Z.testbit x (n + 24).
Proof.
  unfold eswap32.
  rewrite <- (Z.shiftl_0_r (Z.land (Z.shiftr x 24) 0xFF)).
  rewrite !Z.lor_spec, !moved_byte_bit by lia.
  change (24 + 8) with 32. change (16 + 8) with 24.
  change (8 + 8) with 16. change (0 + 8) with 8.
  replace (n - 24 + 0) with (n - 24) by lia.
  replace (n - 16 + 8) with (n - 8) by lia.
  replace (n - 8 + 16) with (n + 8) by lia.
  replace (n - 0 + 24) with (n + 24) by lia.
  reflexivity.
Qed.

Lemma testbit_above x k n :
  0 <= x < 2 ^ k -> 0 <= k <= n -> Z.testbit x n = false.
Proof.
  intros Hx Hk. destruct (Z.eq_dec x 0) as [-> | N]; [apply Z.bits_0|].
  apply Z.bits_above_log2; [lia|].
  assert (Z.log2 x < k) by (apply Z.log2_lt_pow2; lia). lia.
Qed.

(** Replaces every comparison of the goal that [lia] settles by its value. *)
Ltac decide_ranges :=
  repeat match goal with
         | |- context [?a <=? ?b] =>
             first [ replace (a <=? b) with true
                       by (symmetry; apply Z.leb_le; lia)
                   | replace (a <=? b) with false
                       by (symmetry; apply Z.leb_gt; lia) ]
         | |- context [?a <? ?b] =>
             first [ replace (a <? b) with true
                       by (symmetry; apply Z.ltb_lt; lia)
                   | replace (a <? b) with false
                       by (symmetry; apply Z.ltb_ge; lia) ]
         end.

Lemma moved_byte_nonneg x a b : 0 <= Z.shiftl (Z.land (Z.shiftr x a) 0xFF) b.
Proof. apply Z.shiftl_nonneg, Z.land_nonneg. right. lia. Qed.

Lemma eswap32_nonneg x : 0 <= eswap32 x.
Proof.
  unfold eswap32.
  rewrite <- (Z.shiftl_0_r (Z.land (Z.shiftr x 24) 0xFF)).
  rewrite !Z.lor_nonneg. repeat split; apply moved_byte_nonneg.
Qed.

(** A nonnegative number whose bits from [k] on are all clear is below
    [2 ^ k]. *)
Lemma below_pow2_of_bits y k :
  0 <= y -> 0 <= k ->
  (forall n, k <= n -> Z.testbit y n = false) -> y < 2 ^ k.
Proof.
  intros Hy Hk Hb. destruct (Z.eq_dec y 0) as [-> | NZ].
  - apply Z.pow_pos_nonneg; lia.
  - apply Z.log2_lt_pow2; [lia|].
    destruct (Z.lt_ge_cases (Z.log2 y) k) as [L | L]; [exact L|].
    exfalso. assert (T : Z.testbit y (Z.log2 y) = true)
      by (apply Z.bit_log2; lia).
    rewrite Hb in T by lia. discriminate T.
Qed.

(** X1: [eswap32] maps a 32-bit word to a 32-bit word, and swapping twice
    gives the word back. *)
Theorem eswap32_involutive x :
  0 <= x < 2 ^ 32 ->
  0 <= eswap32 x < 2 ^ 32 /\ eswap32 (eswap32 x) = x.
Proof.
  intros Hx. split.
  - split; [apply eswap32_nonneg|].
    apply below_pow2_of_bits; [apply eswap32_nonneg | lia |].
    intros n Hn. rewrite eswap32_bit. decide_ranges. reflexivity.
  - apply Z.bits_inj'. intros n Hn.
    rewrite eswap32_bit.
    assert (C : n < 8 \/ 8 <= n < 16 \/ 16 <= n < 24 \/ 24 <= n < 32
                \/ 32 <= n) by lia.
    destruct C as [C | [C | [C | [C | C]]]].
    + decide_ranges. simpl. rewrite eswap32_bit. decide_ranges. simpl.
      rewrite ?orb_false_r. f_equal. lia.
    + decide_ranges. simpl. rewrite eswap32_bit. decide_ranges. simpl.
      rewrite ?orb_false_r. f_equal. lia.
    + decide_ranges. simpl. rewrite eswap32_bit. decide_ranges. simpl.
      rewrite ?orb_false_r. f_equal. lia.
    + decide_ranges. simpl. rewrite eswap32_bit. decide_ranges. simpl.
      rewrite ?orb_false_r. f_equal. lia.
    + decide_ranges. simpl. symmetry. apply (testbit_above x 32); lia.
Qed.

Lemma eswap32_involutive_witness :
  0 <= 0x11223344 < 2 ^ 32 /\
  eswap32 0x11223344 = 0x44332211 /\
  eswap32 (eswap32 0x11223344) = 0x11223344.
Proof.
  assert (H : 0 <= 0x11223344 < 2 ^ 32) by (split; [lia | reflexivity]).
  split; [exact H|]. split; [reflexivity|].
  exact (proj2 (eswap32_involutive 0x11223344 H)).
Defined.

Lemma eswap64_bit x n :
  Z.testbit (eswap64 x) n
  = (56 <=? n) && (n <? 64) && Z.testbit x (n - 56)
    || (48 <=? n) && (n <? 56) && Z.testbit x (n - 40)
    || (40 <=? n) && (n <? 48) && Z.testbit x (n - 24)
    || (32 <=? n) && (n <? 40) && Z.testbit x (n - 8)
    || (24 <=? n) && (n <? 32) && Z.testbit x (n + 8)
    || (16 <=? n) && (n <? 24) && Z.testbit x (n + 24)
    || (8 <=? n) && (n <? 16) && Z.testbit x (n + 40)
    || (0 <=? n) && (n <? 8) && Z.testbit x (n + 56).
Proof.
  unfold eswap64.
  rewrite <- (Z.shiftl_0_r (Z.land (Z.shiftr x 56) 0xFF)).
  rewrite !Z.lor_spec, !moved_byte_bit by lia.
  change (56 + 8) with 64. change (48 + 8) with 56.
  change (40 + 8) with 48. change (32 + 8) with 40.
  change (24 + 8) with 32. change (16 + 8) with 24.
  change (8 + 8) with 16. change (0 + 8) with 8.
  replace (n - 56 + 0) with (n - 56) by lia.
  replace (n - 48 + 8) with (n - 40) by lia.
  replace (n - 40 + 16) with (n - 24) by lia.
  replace (n - 32 + 24) with (n - 8) by lia.
  replace (n - 24 + 32) with (n + 8) by lia.
  replace (n - 16 + 40) with (n + 24) by lia.
  replace (n - 8 + 48) with (n + 40) by lia.
  replace (n - 0 + 56) with (n + 56) by lia.
  reflexivity.
Qed.

Lemma eswap64_nonneg x : 0 <= eswap64 x.
Proof.
  unfold eswap64.
  rewrite <- (Z.shiftl_0_r (Z.land (Z.shiftr x 56) 0xFF)).
  rewrite !Z.lor_nonneg. repeat split; apply moved_byte_nonneg.
Qed.

Ltac swap_back lem :=
  decide_ranges; simpl; rewrite lem; decide_ranges; simpl;
  rewrite ?orb_false_r; f_equal; lia.

(** X2: [eswap64] maps a 64-bit word to a 64-bit word, and swapping twice
    gives the word back. *)
Theorem eswap64_involutive x :
  0 <= x < 2 ^ 64 ->
  0 <= eswap64 x < 2 ^ 64 /\ eswap64 (eswap64 x) = x.
Proof.
  intros Hx. split.
  - split; [apply eswap64_nonneg|].
    apply below_pow2_of_bits; [apply eswap64_nonneg | lia |].
    intros n Hn. rewrite eswap64_bit. decide_ranges. reflexivity.
  - apply Z.bits_inj'. intros n Hn.
    rewrite eswap64_bit.
    assert (C : n < 8 \/ 8 <= n < 16 \/ 16 <= n < 24 \/ 24 <= n < 32
                \/ 32 <= n < 40 \/ 40 <= n < 48 \/ 48 <= n < 56
                \/ 56 <= n < 64 \/ 64 <= n) by lia.
    destruct C as [C | [C | [C | [C | [C | [C | [C | [C | C]]]]]]]];
      try (swap_back eswap64_bit).
    decide_ranges. simpl. symmetry. apply (testbit_above x 64); lia.
Qed.

Lemma eswap64_involutive_witness :
  0 <= 0x1122334455667788 < 2 ^ 64 /\
  eswap64 0x1122334455667788 = 0x8877665544332211 /\
  eswap64 (eswap64 0x1122334455667788) = 0x1122334455667788.
Proof.
  assert (H : 0 <= 0x1122334455667788 < 2 ^ 64)
    by (split; [lia | reflexivity]).
  split; [exact H|]. split; [reflexivity|].
  exact (proj2 (eswap64_involutive 0x1122334455667788 H)).
Defined.

(** ** The voltage search between the clamps *)

(** The search keeps the requested voltage between the entries [2 * half]
    below and above [idx], as far as it has compared them. *)
Lemma vid_loop_bracket tbl v :
  (forall i, (v <? tbl_at tbl i)%float || Dbl.gtb v (tbl_at tbl i)
             || (v =? tbl_at tbl i)%float = true) ->
  forall n fuel idx,
    (n < fuel)%nat -> (n <= 6)%nat ->
    0 < idx < 256 -> idx mod (2 * 2 ^ Z.of_nat n) = 0 ->
    (idx - 2 * 2 ^ Z.of_nat n = 0
     \/ (v <? tbl_at tbl (idx - 2 * 2 ^ Z.of_nat n))%float = true) ->
    (idx + 2 * 2 ^ Z.of_nat n = 256
     \/ (tbl_at tbl (idx + 2 * 2 ^ Z.of_nat n) <? v)%float = true) ->
    let r := vid_loop fuel tbl v (2 ^ Z.of_nat n) idx in
    0 < r < 256 /\
    ((v =? tbl_at tbl r)%float = true \/
     (r - 1 = 0 \/ (v <? tbl_at tbl (r - 1))%float = true) /\
     (r + 1 = 256 \/ (tbl_at tbl (r + 1) <? v)%float = true)).
Proof.
  intros H n. induction n as [|n IH]; intros fuel idx Hf Hn Hi Hm Lo Hi'.
  - destruct fuel as [|fuel]; [lia|]. cbn [vid_loop].
    change (2 ^ Z.of_nat 0) with 1 in *. change (1 >? 0) with true.
    change (Z.shiftr 1 1) with 0. cbv iota zeta. rewrite !vid_loop_done.
    change (2 * 1) with 2 in *.
    apply Z.mod_divide in Hm; [|lia]. destruct Hm as [m Hm].
    assert (U1 : u8 (idx + 1) = idx + 1)
      by (unfold u8; change (2 ^ 8) with 256; apply Z.mod_small; lia).
    assert (U2 : u8 (idx - 1) = idx - 1)
      by (unfold u8; change (2 ^ 8) with 256; apply Z.mod_small; lia).
    pose proof (H idx) as C.
    destruct (v <? tbl_at tbl idx)%float eqn:E1.
    + rewrite U1. split; [lia|]. right. split.
      * right. replace (idx + 1 - 1) with idx by lia. exact E1.
      * replace (idx + 1 + 1) with (idx + 2) by lia. exact Hi'.
    + destruct (Dbl.gtb v (tbl_at tbl idx)) eqn:E2.
      * rewrite U2. split; [lia|]. right. split.
        -- replace (idx - 1 - 1) with (idx - 2) by lia. exact Lo.
        -- right. replace (idx - 1 + 1) with idx by lia. exact E2.
      * destruct (v =? tbl_at tbl idx)%float eqn:E3;
          [split; [lia | now left] | discriminate C].
  - destruct fuel as [|fuel]; [lia|]. cbn [vid_loop].
    rewrite Nat2Z.inj_succ, Z.pow_succ_r in * by lia.
    set (p := 2 ^ Z.of_nat n) in *.
    assert (Hp : 0 < p) by (apply Z.pow_pos_nonneg; lia).
    assert (Hs : Z.shiftr (2 * p) 1 = p).
    { rewrite Z.shiftr_div_pow2 by lia. change (2 ^ 1) with 2.
      rewrite Z.mul_comm. apply Z.div_mul. lia. }
    rewrite Hs.
    assert (Hg : (2 * p >? 0) = true) by (apply Z.gtb_lt; lia).
    rewrite Hg.
    assert (D256 : 256 mod (2 * (2 * p)) = 0).
    { subst p. clear -Hn.
      assert (K : In n [0; 1; 2; 3; 4; 5]%nat) by (simpl; lia).
      simpl in K. repeat (destruct K as [<- | K]; [reflexivity|]). destruct K. }
    apply Z.mod_divide in Hm; [|lia]. destruct Hm as [m Hm].
    apply Z.mod_divide in D256; [|lia]. destruct D256 as [m' Hm'].
    assert (Hm0 : 0 < m) by nia.
    assert (Hmm : m + 1 <= m') by nia.
    assert (Hlo : 4 * p <= idx) by nia.
    assert (Hhi : idx + 4 * p <= 256) by nia.
    assert (Hup : u8 (idx + 2 * p) = idx + 2 * p)
      by (unfold u8; change (2 ^ 8) with 256; apply Z.mod_small; lia).
    assert (Hdn : u8 (idx - 2 * p) = idx - 2 * p)
      by (unfold u8; change (2 ^ 8) with 256; apply Z.mod_small; lia).
    pose proof (H idx) as C.
    destruct (v <? tbl_at tbl idx)%float eqn:E1.
    + rewrite Hup. apply IH; try lia.
      * apply Z.mod_divide; [lia|]. exists (2 * m + 1). lia.
      * right. replace (idx + 2 * p - 2 * p) with idx by lia. exact E1.
      * replace (idx + 2 * p + 2 * p) with (idx + 2 * (2 * p)) by lia.
        exact Hi'.
    + destruct (Dbl.gtb v (tbl_at tbl idx)) eqn:E2.
      * rewrite Hdn. apply IH; try lia.
        -- apply Z.mod_divide; [lia|]. exists (2 * m - 1). lia.
        -- replace (idx - 2 * p - 2 * p) with (idx - 2 * (2 * p)) by lia.
           exact Lo.
        -- right. replace (idx - 2 * p + 2 * p) with idx by lia. exact E2.
      * destruct (v =? tbl_at tbl idx)%float eqn:E3;
          [split; [lia | now left] | discriminate C].
Qed.

(** X3: for a request strictly between the clamps that is comparable with
    every table entry, [FindClosestVIDToVoltage] returns a code [r] in
    1 .. 255 that either hits the request exactly or has the request
    strictly between its two neighbours' voltages: below entry [r - 1]
    (unless [r = 1]) and above entry [r + 1] (unless [r = 255]).  The code
    returned is therefore never more than one step away from the closest. *)
Theorem FindClosestVID_brackets v :
  (forall i, (v <? LookupVID i)%float || Dbl.gtb v (LookupVID i)
             || (v =? LookupVID i)%float = true) ->
  (v <=? LookupVID 255)%float = false ->
  Dbl.geb v (LookupVID 0) = false ->
  let r := FindClosestVIDToVoltage v in
  0 < r < 256 /\
  ((v =? LookupVID r)%float = true \/
   (r = 1 \/ (v <? LookupVID (r - 1))%float = true) /\
   (r = 255 \/ (LookupVID (r + 1) <? v)%float = true)).
Proof.
  intros H L G. cbv zeta.
  unfold FindClosestVIDToVoltage, FindClosestVIDToVoltage_in.
  fold (LookupVID 255) (LookupVID 0). rewrite L, G.
  destruct (vid_loop_bracket VoltageTbl v H 6 32 128) as (R & B);
    try lia; try reflexivity; try (left; reflexivity).
  change (2 ^ Z.of_nat 6) with 64 in *.
  split; [exact R|]. destruct B as [B | (B1 & B2)]; [now left|].
  right. split.
  - destruct B1 as [B1 | B1]; [left; lia | right; exact B1].
  - destruct B2 as [B2 | B2]; [left; lia | right; exact B2].
Qed.

Lemma FindClosestVID_brackets_witness :
  let v := requested_volts 900 in
  FindClosestVIDToVoltage v = 31 /\
  (v <? LookupVID 30)%float = true /\
  (LookupVID 32 <? v)%float = true.
Proof.
  intros v.
  assert (H : forall i, (v <? LookupVID i)%float || Dbl.gtb v (LookupVID i)
                        || (v =? LookupVID i)%float = true).
  { intros i. unfold LookupVID, tbl_at.
    assert (A : forallb (fun t => (v <? t)%float || Dbl.gtb v t
                                  || (v =? t)%float) (0%float :: VoltageTbl)
                = true) by (vm_compute; reflexivity).
    rewrite forallb_forall in A. apply A.
    destruct (Nat.lt_ge_cases (Z.to_nat i) (length VoltageTbl)) as [Lt | Ge].
    - right. now apply nth_In.
    - left. now rewrite nth_overflow. }
  assert (L : (v <=? LookupVID 255)%float = false) by (vm_compute; reflexivity).
  assert (G : Dbl.geb v (LookupVID 0) = false) by (vm_compute; reflexivity).
  pose proof (FindClosestVID_brackets v H L G) as (R & B).
  assert (E : FindClosestVIDToVoltage v = 31) by (vm_compute; reflexivity).
  split; [exact E|]. rewrite E in B.
  destruct B as [B | (B1 & B2)].
  - vm_compute in B. discriminate B.
  - destruct B1 as [B1 | B1]; [discriminate B1|].
    destruct B2 as [B2 | B2]; [discriminate B2|].
    split; [exact B1 | exact B2].
Defined.

(** ** [setVoltage] *)

Lemma register_writes_app l1 l2 :
  register_writes (l1 ++ l2) = register_writes l1 ++ register_writes l2.
Proof. apply flat_map_app. Qed.

Lemma sleeps_app l1 l2 : sleeps (l1 ++ l2) = sleeps l1 ++ sleeps l2.
Proof. apply flat_map_app. Qed.

Lemma in_millivolts lo n x :
  Z.of_nat lo <= x < Z.of_nat lo + Z.of_nat n -> In x (millivolts lo n).
Proof.
  intros H. unfold millivolts. apply in_map_iff. exists (Z.to_nat x).
  split; [lia|]. apply in_seq. lia.
Qed.

Lemma Qltb_lt a b : Qltb a b = true -> (a < b)%Q.
Proof. unfold Qltb, Qlt. apply Z.ltb_lt. Qed.

Lemma wiper_in_band_table :
  forallb (fun mv =>
             let w := FindClosestVIDToVoltage (requested_volts mv) in
             (0 <=? w) && (w <=? 255)
             && (if mv <? 778 then w =? 255
                 else Qltb (vid_distance w (requested_volts mv)) (3 # 1000)))
    (millivolts 501 420) = true.
Proof. vm_compute. reflexivity. Qed.

(** X5: a request of 501 to 920 mV on the FK rail alone makes five writes:
    the reset of the two-wire core, the address 0x158, a zero, the wiper
    code with the stop bit 0x200, and the send command.  The wiper code is
    255 for a request below 778 mV, under the lowest voltage of the table,
    and otherwise a code whose table voltage is less than 3 mV away from
    the request. *)
Theorem setVoltage_fk_in_band env fkVCCINT s :
  500 < fkVCCINT <= 920 ->
  let w := FindClosestVIDToVoltage (requested_volts fkVCCINT) in
  (exists s',
     setVoltage env fkVCCINT 0 s = Ret tt s' /\
     register_writes (trace s')
     = register_writes (trace s)
       ++ [(0x9040, 0xA); (0x9108, 0x158); (0x9108, 0x00);
           (0x9108, Z.lor 0x200 w); (0x9100, 0x1)]) /\
  0 <= w <= 255 /\
  (fkVCCINT < 778 -> w = 255) /\
  (778 <= fkVCCINT ->
   (vid_distance w (requested_volts fkVCCINT) < 3 # 1000)%Q).
Proof.
  intros H w.
  split.
  - unfold setVoltage, volt_out_of_bounds, lowerVoltLimit, upperVoltLimit.
    replace (fkVCCINT =? 0) with false by (symmetry; apply Z.eqb_neq; lia).
    replace (fkVCCINT <=? 500) with false by (symmetry; apply Z.leb_gt; lia).
    replace (fkVCCINT >? 920) with false
      by (symmetry; rewrite Z.gtb_ltb; apply Z.ltb_ge; lia).
    cbn [negb orb Z.eqb]. unfold set_fkVCCINT. fold w.
    unfold bind, sqrllog, emit, SQRLAXIWrite, query, ret.
    eexists. split; [reflexivity|].
    cbn [trace push]. rewrite !register_writes_app. cbn [register_writes flat_map app].
    rewrite <- !app_assoc. reflexivity.
  - pose proof wiper_in_band_table as T. rewrite forallb_forall in T.
    specialize (T fkVCCINT (in_millivolts 501 420 fkVCCINT ltac:(lia))).
    cbv zeta in T. fold w in T.
    apply andb_prop in T. destruct T as (R & A).
    apply andb_prop in R. destruct R as (R0 & R1).
    apply Z.leb_le in R0, R1. split; [lia|]. split.
    + intros Hlt. replace (fkVCCINT <? 778) with true in A
        by (symmetry; apply Z.ltb_lt; lia).
      now apply Z.eqb_eq.
    + intros Hge. replace (fkVCCINT <? 778) with false in A
        by (symmetry; apply Z.ltb_ge; lia).
      now apply Qltb_lt.
Qed.

Lemma setVoltage_fk_in_band_witness :
  500 < 850 <= 920 /\
  (vid_distance (FindClosestVIDToVoltage (requested_volts 850))
     (requested_volts 850) < 3 # 1000)%Q.
Proof.
  assert (H : 500 < 850 <= 920) by lia.
  split; [exact H|].
  apply (setVoltage_fk_in_band (quiet_env (fun _ _ => (0, 0))) 850
           fresh_miner H).
  lia.
Defined.

Lemma vEnc_in_band_table :
  forallb (fun mv =>
             let v := vEnc_of mv in
             (v =? mv * 256 / 1000)
             && (Z.lor 0x0 (Z.land v 0xFF) =? v)
             && (Z.lor 0x200 (Z.land (Z.shiftr v 8) 0xFF) =? 0x200))
    (millivolts 501 420) = true.
Proof. vm_compute. reflexivity. Qed.

Lemma performs_ret {A} (a : A) : performs (ret a) [] [].
Proof.
  intros s. exists a, s. now rewrite !app_nil_r.
Qed.

Lemma performs_bind {A B} (m : M A) (k : A -> M B) ws1 sl1 ws2 sl2 :
  performs m ws1 sl1 -> (forall a, performs (k a) ws2 sl2) ->
  performs (bind m k) (ws1 ++ ws2) (sl1 ++ sl2).
Proof.
  intros Hm Hk s. destruct (Hm s) as (a & s1 & E1 & W1 & S1).
  destruct (Hk a s1) as (b & s2 & E2 & W2 & S2).
  exists b, s2. unfold bind. rewrite E1. split; [exact E2|].
  rewrite W2, W1, S2, S1, !app_assoc. split; reflexivity.
Qed.

Lemma performs_write env val addr verify :
  performs (SQRLAXIWrite env val addr verify) [(addr, val)] [].
Proof.
  intros s. eexists _, _. split; [reflexivity|].
  cbn [trace push]. rewrite register_writes_app, sleeps_app.
  cbn [sleeps flat_map app]. now rewrite app_nil_r.
Qed.

Lemma performs_log msg : performs (sqrllog msg) [] [].
Proof.
  intros s. eexists _, _. split; [reflexivity|].
  cbn [trace push]. rewrite register_writes_app, sleeps_app.
  cbn [register_writes sleeps flat_map app]. now rewrite !app_nil_r.
Qed.

Lemma performs_sleep usec : performs (usleep usec) [] [usec].
Proof.
  intros s. eexists _, _. split; [reflexivity|].
  cbn [trace push]. rewrite register_writes_app, sleeps_app.
  cbn [register_writes flat_map app]. now rewrite !app_nil_r.
Qed.

Ltac performs_step :=
  lazymatch goal with
  | |- performs (ret _) _ _ => apply performs_ret
  | |- performs (bind _ _) _ _ => eapply performs_bind; [ | intros ]
  | |- performs (SQRLAXIWrite _ _ _ _) _ _ => apply performs_write
  | |- performs (sqrllog _) _ _ => apply performs_log
  | |- performs (usleep _) _ _ => apply performs_sleep
  end.

(** X6: a request of 501 to 920 mV on the JCM rail alone makes 43 writes,
    all to the two-wire core at 0xA040, 0xA108 and 0xA100, with three
    sleeps of one second between the four transactions.  The last
    transaction carries the target as [floor(mV * 256 / 1000)], truncated
    and not rounded, in one byte followed by the stop byte 0x200. *)
Theorem setVoltage_jc_in_band env jcVCCINT s :
  500 < jcVCCINT <= 920 ->
  exists s' hotfix,
    setVoltage env 0 jcVCCINT s = Ret tt s' /\
    register_writes (trace s')
    = register_writes (trace s) ++ hotfix
      ++ [(0xA040, 0xA); (0xA108, 0x19A); (0xA108, 0xD0); (0xA108, 0x04);
          (0xA108, 0x42); (0xA108, 0x06);
          (0xA108, jcVCCINT * 256 / 1000); (0xA108, 0x200);
          (0xA100, 0x1)] /\
    length hotfix = 34%nat /\
    forallb (fun w => addr_in (fst w) [0xA040; 0xA108; 0xA100]) hotfix = true /\
    sleeps (trace s') = sleeps (trace s) ++ [1000000; 1000000; 1000000].
Proof.
  intros H.
  pose proof vEnc_in_band_table as T. rewrite forallb_forall in T.
  specialize (T jcVCCINT (in_millivolts 501 420 jcVCCINT ltac:(lia))).
  cbv zeta in T.
  apply andb_prop in T. destruct T as (T & T3).
  apply andb_prop in T. destruct T as (T1 & T2).
  apply Z.eqb_eq in T1, T2, T3.
  assert (P : exists ws sl,
             performs (setVoltage env 0 jcVCCINT) ws sl /\
             skipn 34 ws
             = [(0xA040, 0xA); (0xA108, 0x19A); (0xA108, 0xD0);
                (0xA108, 0x04); (0xA108, 0x42); (0xA108, 0x06);
                (0xA108, jcVCCINT * 256 / 1000); (0xA108, 0x200);
                (0xA100, 0x1)] /\
             length (firstn 34 ws) = 34%nat /\
             forallb (fun w => addr_in (fst w) [0xA040; 0xA108; 0xA100])
               (firstn 34 ws) = true /\
             sl = [1000000; 1000000; 1000000]).
  { unfold setVoltage, volt_out_of_bounds, lowerVoltLimit, upperVoltLimit.
    replace (jcVCCINT =? 0) with false by (symmetry; apply Z.eqb_neq; lia).
    replace (jcVCCINT <=? 500) with false by (symmetry; apply Z.leb_gt; lia).
    replace (jcVCCINT >? 920) with false
      by (symmetry; rewrite Z.gtb_ltb; apply Z.ltb_ge; lia).
    cbn [negb orb Z.eqb]. unfold set_jcVCCINT, iic_transaction.
    rewrite T2, T3, T1.
    eexists. eexists. split; [repeat performs_step|].
    cbn [app skipn firstn length forallb fst].
    repeat split. }
  destruct P as (ws & sl & P & Tl & Ln & Ad & Sl).
  destruct (P s) as ([] & s' & E & W & S).
  exists s', (firstn 34 ws). split; [exact E|].
  split; [|split; [exact Ln | split; [exact Ad | now rewrite S, Sl]]].
  rewrite W, <- Tl, firstn_skipn. reflexivity.
Qed.

Lemma setVoltage_jc_in_band_witness :
  500 < 850 <= 920 /\
  exists s' hotfix,
    setVoltage (quiet_env (fun _ _ => (0, 0))) 0 850 fresh_miner = Ret tt s' /\
    register_writes (trace s')
    = register_writes (trace fresh_miner) ++ hotfix
      ++ [(0xA040, 0xA); (0xA108, 0x19A); (0xA108, 0xD0); (0xA108, 0x04);
          (0xA108, 0x42); (0xA108, 0x06);
          (0xA108, 850 * 256 / 1000); (0xA108, 0x200);
          (0xA100, 0x1)] /\
    length hotfix = 34%nat /\
    forallb (fun w => addr_in (fst w) [0xA040; 0xA108; 0xA100]) hotfix = true /\
    sleeps (trace s') = sleeps (trace fresh_miner)
                        ++ [1000000; 1000000; 1000000].
Proof.
  assert (H : 500 < 850 <= 920) by lia.
  split; [exact H|].
  exact (setVoltage_jc_in_band (quiet_env (fun _ _ => (0, 0))) 850
           fresh_miner H).
Defined.

(** ** The ramp of [StopHashcore] *)

Lemma shiftl_24_small i :
  0 <= i <= 255 -> u32 (Z.shiftl i 24) = Z.shiftl i 24.
Proof.
  intros H. rewrite Z.shiftl_mul_pow2 by lia. apply u32_small.
  change (2 ^ 24) with 16777216. lia.
Qed.

Lemma low24_of_lor low i :
  Z.land low 0x00FFFFFF = low ->
  Z.land (Z.lor low (Z.shiftl i 24)) 0x00FFFFFF = low.
Proof.
  intros H. rewrite Z.land_lor_distr_l, H.
  change 0x00FFFFFF with (Z.ones 24) at 1. rewrite Z.land_ones by lia.
  rewrite Z.shiftl_mul_pow2 by lia. rewrite Z.mod_mul by lia.
  apply Z.lor_0_r.
Qed.

Lemma low24_idem dbg :
  Z.land (Z.land dbg 0x00FFFFFF) 0x00FFFFFF = Z.land dbg 0x00FFFFFF.
Proof. now rewrite <- Z.land_assoc, Z.land_diag. Qed.

Lemma ramp_down_plan env step low : forall fuel inn dbg s,
  1 <= step -> inn <= Z.of_nat fuel -> inn <= 255 ->
  Z.land dbg 0x00FFFFFF = low ->
  exists dbg' s',
    ramp_down env fuel inn step dbg s = Ret (ramp_end fuel inn step, dbg') s' /\
    Z.land dbg' 0x00FFFFFF = low /\
    register_writes (trace s')
    = register_writes (trace s)
      ++ map (fun i => (0x5080, Z.lor low (Z.shiftl i 24)))
           (ramp_plan fuel inn step).
Proof.
  induction fuel as [|fuel IH]; intros inn dbg s Hs Hf Hi Hl;
    cbn [ramp_down ramp_plan ramp_end].
  - destruct (inn >? 0) eqn:E; [lia|].
    exists dbg, s. split; [reflexivity|]. split; [exact Hl|].
    now rewrite app_nil_r.
  - destruct (inn >? 0) eqn:E.
    + apply Z.gtb_lt in E.
      rewrite Hl, shiftl_24_small by lia.
      unfold bind at 1. unfold SQRLAXIWrite at 1. unfold query at 1. cbv zeta.
      match goal with
      | |- context [ramp_down env fuel _ step ?d ?st] =>
          destruct (IH (inn - step) d st Hs ltac:(lia) ltac:(lia))
            as (dbg' & s' & E' & L' & W')
      end.
      { apply low24_of_lor. subst low. apply low24_idem. }
      exists dbg', s'. split; [exact E'|]. split; [exact L'|].
      rewrite W'. cbn [trace push map]. rewrite register_writes_app.
      cbn [register_writes flat_map app]. rewrite <- app_assoc. reflexivity.
    + exists dbg, s. split; [reflexivity|]. split; [exact Hl|].
      now rewrite app_nil_r.
Qed.

Lemma ramp_table :
  forallb (fun n =>
             let inn := Z.of_nat n in
             let step := (inn + 7) / 8 in
             let vals := ramp_plan 256 inn step in
             (s32 (Dbl.to_Z (Dbl.ceil (Dbl.of_Z inn / 8)%float)) =? step)
             && (length vals <=? 8)%nat
             && descends_by step vals
             && (hd inn vals =? inn)
             && forallb (fun i => (0 <? i) && (i <=? 255)) vals
             && (ramp_end 256 inn step <=? 0)
             && ((inn =? 0) || (- step <? ramp_end 256 inn step)))
    (seq 0 256) = true.
Proof. vm_compute. reflexivity. Qed.

(** X7: when the read of 0x5080 succeeds, a soft stop writes to 0x5080 the
    word read with its intensity field (bits 24 to 31) set in turn to the
    intensity [inn] found there, [inn - step], [inn - 2 step], ... as long
    as the value is positive, where [step = ceil(inn / 8)]; these are at
    most 8 writes, which leave the low 24 bits as they were.  If the last
    step went below zero the field is then written as 0.  The write that
    disables the core, 0 to 0x506c, comes last. *)
Theorem StopHashcore_soft_ramp env s dbg :
  hw_read env 0x5080 (count_reads 0x5080 (trace s)) = (0, dbg) ->
  0 <= dbg < 2 ^ 32 ->
  let inn := Z.land (Z.shiftr dbg 24) 0xFF in
  let low := Z.land dbg 0x00FFFFFF in
  let step := (inn + 7) / 8 in
  let vals := ramp_plan 256 inn step in
  (exists c s',
     StopHashcore env true s = Ret c s' /\
     register_writes (trace s')
     = register_writes (trace s)
       ++ map (fun i => (0x5080, Z.lor low (Z.shiftl i 24))) vals
       ++ (if ramp_end 256 inn step =? 0 then [] else [(0x5080, low)])
       ++ [(0x506c, 0)]) /\
  (length vals <= 8)%nat /\
  descends_by step vals = true /\
  hd inn vals = inn /\
  forallb (fun i => (0 <? i) && (i <=? 255)) vals = true /\
  ramp_end 256 inn step <= 0 /\
  (inn = 0 \/ - step < ramp_end 256 inn step).
Proof.
  intros Hr Hd inn low step vals.
  pose proof (land_0xFF_range (Z.shiftr dbg 24)) as R. fold inn in R.
  pose proof ramp_table as T. rewrite forallb_forall in T.
  specialize (T (Z.to_nat inn)). rewrite Z2Nat.id in T by lia.
  specialize (T ltac:(apply in_seq; lia)). cbv zeta in T.
  fold step in T. fold vals in T.
  repeat (apply andb_prop in T; let X := fresh "T" in destruct T as (T & X)).
  apply Z.eqb_eq in T. apply Nat.leb_le in T5. apply Z.eqb_eq in T3.
  apply Z.leb_le in T1.
  assert (T0' : inn = 0 \/ - step < ramp_end 256 inn step).
  { apply orb_prop in T0. destruct T0 as [T0 | T0];
      [left; now apply Z.eqb_eq | right; now apply Z.ltb_lt]. }
  split; [|repeat split; assumption || lia].
  unfold StopHashcore, intensity_ramp.
  unfold bind at 1. unfold bind at 1. unfold SQRLAXIRead at 1.
  rewrite Hr. change (0 =? 0) with true. cbv iota beta zeta.
  rewrite (u32_small dbg) by (change 4294967296 with (2 ^ 32); exact Hd).
  fold inn. rewrite T.
  set (s1 := push (EvRead 0x5080 0 dbg) s).
  assert (P : exists dbg' s2,
             ramp_down env 256 inn step dbg s1
             = Ret (ramp_end 256 inn step, dbg') s2 /\
             Z.land dbg' 0x00FFFFFF = low /\
             register_writes (trace s2)
             = register_writes (trace s1)
               ++ map (fun i => (0x5080, Z.lor low (Z.shiftl i 24))) vals).
  { destruct (Z.eq_dec inn 0) as [Z0 | NZ].
    - exists dbg, s1. subst vals. rewrite Z0. split; [reflexivity|].
      split; [reflexivity|]. cbn [ramp_plan]. change (0 >? 0) with false.
      cbv iota. cbn [map]. now rewrite app_nil_r.
    - assert (S1 : 1 <= step).
      { subst step. assert (H8 : 8 <= inn + 7) by lia.
        apply (Z.div_le_mono 8 (inn + 7) 8) in H8; [|lia].
        change (8 / 8) with 1 in H8. exact H8. }
      apply ramp_down_plan; try reflexivity; try lia. }
  destruct P as (dbg' & s2 & E2 & L2 & W2).
  unfold bind at 1. rewrite E2. rewrite L2.
  destruct (ramp_end 256 inn step =? 0).
  - cbn [negb]. unfold bind, ret, SQRLAXIWrite, query.
    eexists _, _. split; [reflexivity|].
    cbn [trace push]. rewrite register_writes_app, W2.
    subst s1. cbn [trace push]. rewrite register_writes_app.
    cbn [register_writes flat_map app]. rewrite app_nil_r, <- !app_assoc.
    reflexivity.
  - cbn [negb]. unfold bind, ret, SQRLAXIWrite, query.
    eexists _, _. split; [reflexivity|].
    cbn [trace push]. rewrite !register_writes_app, W2.
    subst s1. cbn [trace push]. rewrite register_writes_app.
    cbn [register_writes flat_map app]. rewrite app_nil_r, <- !app_assoc.
    reflexivity.
Qed.

Lemma StopHashcore_soft_ramp_witness :
  let env := quiet_env (fun _ _ => (0, 0xFF000041)) in
  exists c s',
    StopHashcore env true fresh_miner = Ret c s' /\
    register_writes (trace s')
    = [(0x5080, 0xFF000041); (0x5080, 0xDF000041); (0x5080, 0xBF000041);
       (0x5080, 0x9F000041); (0x5080, 0x7F000041); (0x5080, 0x5F000041);
       (0x5080, 0x3F000041); (0x5080, 0x1F000041); (0x5080, 0x00000041);
       (0x506c, 0)].
Proof.
  intros env.
  assert (Hr : hw_read env 0x5080 (count_reads 0x5080 (trace fresh_miner))
               = (0, 0xFF000041)) by reflexivity.
  assert (Hd : 0 <= 0xFF000041 < 2 ^ 32) by (split; [lia | reflexivity]).
  destruct (proj1 (StopHashcore_soft_ramp env fresh_miner 0xFF000041 Hr Hd))
    as (c & s' & E & W).
  exists c, s'. split; [exact E|]. rewrite W. vm_compute. reflexivity.
Defined.

(** X8: a hard stop, and a soft stop whose read of 0x5080 fails, write one
    register only: 0 to 0x506c. *)
Theorem StopHashcore_without_ramp env soft s :
  soft = false
  \/ fst (hw_read env 0x5080 (count_reads 0x5080 (trace s))) <> 0 ->
  exists c s',
    StopHashcore env soft s = Ret c s' /\
    register_writes (trace s') = register_writes (trace s) ++ [(0x506c, 0)].
Proof.
  intros H. unfold StopHashcore. destruct soft.
  - destruct H as [H | H]; [discriminate H|].
    unfold intensity_ramp. unfold bind at 1. unfold bind at 1.
    unfold SQRLAXIRead at 1.
    destruct (hw_read env 0x5080 (count_reads 0x5080 (trace s))) as [e v].
    simpl in H. apply Z.eqb_neq in H. rewrite H. cbv iota beta zeta.
    unfold sqrllog, emit, SQRLAXIWrite, query.
    eexists _, _. split; [reflexivity|].
    cbn [trace push]. rewrite !register_writes_app.
    cbn [register_writes flat_map app]. now rewrite !app_nil_r.
  - unfold SQRLAXIWrite, query. eexists _, _. split; [reflexivity|].
    cbn [trace push]. now rewrite register_writes_app.
Qed.

Lemma StopHashcore_without_ramp_witness :
  exists c s',
    StopHashcore (quiet_env (fun _ _ => (1, 0))) true fresh_miner = Ret c s' /\
    register_writes (trace s')
    = register_writes (trace fresh_miner) ++ [(0x506c, 0)].
Proof.
  apply (StopHashcore_without_ramp (quiet_env (fun _ _ => (1, 0))) true
           fresh_miner).
  right. simpl. lia.
Defined.

(** ** [setClock] and [getClock] *)

Lemma count_reads_push addr e s :
  count_reads addr (trace (push e s))
  = (count_reads addr (trace s) + if is_read_of addr e then 1 else 0)%nat.
Proof.
  unfold count_reads. cbn [trace push]. rewrite filter_app, length_app.
  cbn [filter]. now destruct (is_read_of addr e).
Qed.

Lemma run_read env cur addr {B} (k : Z * Z -> M B) s e v :
  hw_read env addr (count_reads addr (trace s)) = (e, v) ->
  bind (SQRLAXIRead env cur addr) k s
  = k (e, if e =? 0 then u32 v else cur)
      (push (EvRead addr e (if e =? 0 then u32 v else cur)) s).
Proof. intros H. unfold bind, SQRLAXIRead. now rewrite H. Qed.

Lemma run_write env val addr vf {B} (k : Z -> M B) s :
  bind (SQRLAXIWrite env val addr vf) k s
  = k (hw_write env (tick s))
      (push (EvWrite val addr vf (hw_write env (tick s))) s).
Proof. reflexivity. Qed.

Lemma run_log msg {B} (k : unit -> M B) s :
  bind (sqrllog msg) k s = k tt (push (EvLog msg) s).
Proof. reflexivity. Qed.

Lemma run_sleep us {B} (k : unit -> M B) s :
  bind (usleep us) k s = k tt (push (EvSleep us) s).
Proof. reflexivity. Qed.

Lemma run_modify f {B} (k : unit -> M B) s :
  bind (modify f) k s = k tt (f s).
Proof. reflexivity. Qed.

Lemma run_ret {A B} (a : A) (k : A -> M B) s : bind (ret a) k s = k a s.
Proof. reflexivity. Qed.

Lemma run_bind {A B C} (m : M A) (f : A -> M B) (g : B -> M C) s :
  bind (bind m f) g s = bind m (fun a => bind (f a) g) s.
Proof. unfold bind. now destruct (m s). Qed.





Lemma wait_locked_frame env fuel : forall waitCnt s,
  0 <= waitCnt < Z.of_nat fuel -> waitCnt < 4294967296 ->
  exists r s',
    wait_locked env fuel waitCnt s = Ret r s' /\
    extends (is_read_of 0x8004) s s' /\ m_lastClk s' = m_lastClk s.
Proof.
  induction fuel as [|fuel IH]; intros w s Hw Hb; [lia|].
  cbn [wait_locked]. destruct (w =? 0) eqn:E.
  - eexists _, s. split; [reflexivity|]. split; [|reflexivity].
    exists []. now rewrite app_nil_r.
  - apply Z.eqb_neq in E.
    assert (U : u32 (w - 1) = w - 1).
    { unfold u32. change (2 ^ 32) with 4294967296. apply Z.mod_small. lia. }
    rewrite U.
    destruct (hw_read env 0x8004 (count_reads 0x8004 (trace s)))
      as [e v] eqn:R.
    rewrite (run_read _ _ _ _ _ _ _ R). cbv beta iota.
    set (lk := if e =? 0 then u32 v else hw_uninit env).
    assert (X1 : extends (is_read_of 0x8004) s (push (EvRead 0x8004 e lk) s)).
    { exists [EvRead 0x8004 e lk]. split; reflexivity. }
    destruct (Z.odd lk).
    + eexists _, _. split; [reflexivity|]. auto.
    + destruct (IH (w - 1) (push (EvRead 0x8004 e lk) s))
        as (r & s' & R' & X & K); try lia.
      exists r, s'. split; [exact R'|].
      split; [eapply extends_trans; eassumption | now rewrite K].
Qed.

Lemma extends_no_writes P s s' :
  (forall e, P e = true -> register_writes [e] = [] /\ sleeps [e] = []) ->
  extends P s s' ->
  register_writes (trace s') = register_writes (trace s) /\
  sleeps (trace s') = sleeps (trace s).
Proof.
  intros HP (l & E & F). rewrite E, register_writes_app, sleeps_app.
  rewrite forallb_forall in F.
  assert (Z : register_writes l = [] /\ sleeps l = []).
  { clear E. induction l as [|e l IH]; [split; reflexivity|].
    destruct (HP e (F e (or_introl eq_refl))) as [W S].
    destruct IH as [IW IS]; [intros x Hx; apply F; now right|].
    change (e :: l) with ([e] ++ l).
    rewrite register_writes_app, sleeps_app, W, S, IW, IS. split; reflexivity. }
  destruct Z as [W S]. rewrite W, S, !app_nil_r. split; reflexivity.
Qed.

Lemma lock_poll_quiet e :
  is_read_of 0x8004 e = true -> register_writes [e] = [] /\ sleeps [e] = [].
Proof. destruct e; intros H; try discriminate H; split; reflexivity. Qed.

(** Reading the counts of reads after events that read other registers. *)
Ltac count_back :=
  rewrite ?count_reads_push; cbn [is_read_of];
  repeat match goal with
         | |- context [?a =? ?b] =>
             let r := eval vm_compute in (a =? b) in
             change (a =? b) with r
         end;
  cbv iota; rewrite ?Nat.add_0_r.

Ltac run_read_with R :=
  erewrite run_read by (count_back; exact R); cbv beta iota zeta.

(** X10: when the read of 0x8200 or the read of 0x8208 fails, [setClock]
    returns 0.0 whatever the target is, writes no register, does not sleep
    and keeps [m_lastClk]. *)
Theorem setClock_aborts_on_failed_read env targetClk s :
  fst (hw_read env 0x8200 (count_reads 0x8200 (trace s))) <> 0 \/
  fst (hw_read env 0x8208 (count_reads 0x8208 (trace s))) <> 0 ->
  exists s',
    setClock env targetClk s = Ret 0%float s' /\
    register_writes (trace s') = register_writes (trace s) /\
    sleeps (trace s') = sleeps (trace s) /\
    m_lastClk s' = m_lastClk s.
Proof.
  intros H. unfold setClock.
  destruct (hw_read env 0x8200 (count_reads 0x8200 (trace s)))
    as [e1 v] eqn:R1.
  destruct (hw_read env 0x8208 (count_reads 0x8208 (trace s)))
    as [e2 d] eqn:R2.
  cbn [fst] in H. run_read_with R1.
  destruct (e1 =? 0) eqn:E1; cbn [negb]; cbv iota.
  - run_read_with R2.
    destruct (e2 =? 0) eqn:E2; cbn [negb]; cbv iota.
    + apply Z.eqb_eq in E1, E2. lia.
    + rewrite run_log. eexists. split; [reflexivity|].
      cbn [trace push m_lastClk]. rewrite !register_writes_app, !sleeps_app.
      cbn [register_writes sleeps flat_map app]. now rewrite !app_nil_r.
  - rewrite run_log. eexists. split; [reflexivity|].
    cbn [trace push m_lastClk]. rewrite !register_writes_app, !sleeps_app.
    cbn [register_writes sleeps flat_map app]. now rewrite !app_nil_r.
Qed.

Lemma setClock_aborts_on_failed_read_witness :
  exists s',
    setClock (quiet_env (fun a _ => if a =? 0x8208 then (1, 0) else (0, 0x801)))
      700 fresh_miner = Ret 0%float s' /\
    register_writes (trace s') = register_writes (trace fresh_miner) /\
    sleeps (trace s') = sleeps (trace fresh_miner) /\
    m_lastClk s' = m_lastClk fresh_miner.
Proof.
  apply (setClock_aborts_on_failed_read
           (quiet_env (fun a _ => if a =? 0x8208 then (1, 0) else (0, 0x801)))
           700 fresh_miner).
  right. simpl. lia.
Defined.

(** X11: [getClock] writes no register, does not sleep, does not poll the
    lock register and keeps [m_lastClk].  It returns the VCO frequency
    decoded from 0x8200 over the divisor decoded from 0x8208, or 0.0 when
    one of the two reads fails. *)
Theorem getClock_only_reads env s :
  exists clk s',
    getClock env s = Ret clk s' /\
    register_writes (trace s') = register_writes (trace s) /\
    sleeps (trace s') = sleeps (trace s) /\
    count_reads 0x8004 (trace s') = count_reads 0x8004 (trace s) /\
    m_lastClk s' = m_lastClk s /\
    clk = (let '(e1, v) := hw_read env 0x8200 (count_reads 0x8200 (trace s)) in
           let '(e2, d) := hw_read env 0x8208 (count_reads 0x8208 (trace s)) in
           if (e1 =? 0) && (e2 =? 0)
           then (vco_of (u32 v) / clk0div_of (u32 d))%float
           else 0%float).
Proof.
  unfold getClock, setClock.
  change (Dbl.neqb (-1) (-1)) with false.
  change (0 <? -1)%float with false.
  change (-1 <? -1)%float with false.
  destruct (hw_read env 0x8200 (count_reads 0x8200 (trace s)))
    as [e1 v] eqn:R1.
  destruct (hw_read env 0x8208 (count_reads 0x8208 (trace s)))
    as [e2 d] eqn:R2.
  run_read_with R1.
  destruct (e1 =? 0) eqn:E1; cbn [negb andb]; cbv iota.
  - run_read_with R2.
    destruct (e2 =? 0) eqn:E2; cbn [negb]; cbv iota.
    + rewrite !run_ret. eexists _, _. split; [reflexivity|].
      cbn [trace push m_lastClk].
      rewrite !register_writes_app, !sleeps_app.
      unfold count_reads. rewrite !filter_app, !length_app.
      cbn [register_writes sleeps flat_map app filter is_read_of length].
      change (0x8200 =? 0x8004) with false.
      change (0x8208 =? 0x8004) with false. cbv iota. cbn [length].
      rewrite !app_nil_r, !Nat.add_0_r. repeat split; reflexivity.
    + rewrite run_log. eexists _, _. split; [reflexivity|].
      cbn [trace push m_lastClk].
      rewrite !register_writes_app, !sleeps_app.
      unfold count_reads. rewrite !filter_app, !length_app.
      cbn [register_writes sleeps flat_map app filter is_read_of length].
      change (0x8200 =? 0x8004) with false.
      change (0x8208 =? 0x8004) with false. cbv iota. cbn [length].
      rewrite !app_nil_r, !Nat.add_0_r. repeat split; reflexivity.
  - rewrite run_log. eexists _, _. split; [reflexivity|].
    cbn [trace push m_lastClk].
    rewrite !register_writes_app, !sleeps_app.
    unfold count_reads. rewrite !filter_app, !length_app.
    cbn [register_writes sleeps flat_map app filter is_read_of length].
    change (0x8200 =? 0x8004) with false. cbv iota. cbn [length].
    rewrite !app_nil_r, !Nat.add_0_r. repeat split; reflexivity.
Qed.

Lemma pos_not_minus_one (x : float) :
  (0 <? x)%float = true -> Dbl.neqb x (-1) = true.
Proof.
  unfold Dbl.neqb. rewrite FloatAxioms.ltb_spec, FloatAxioms.eqb_spec.
  destruct (Prim2SF x) as [sg|sg| |sg m e]; try discriminate;
    destruct sg; try discriminate; reflexivity.
Qed.

Lemma trace_push e s : trace (push e s) = trace s ++ [e].
Proof. reflexivity. Qed.

Lemma trace_set_lastClk c s : trace (set_lastClk c s) = trace s.
Proof. reflexivity. Qed.

Lemma lastClk_push e s : m_lastClk (push e s) = m_lastClk s.
Proof. reflexivity. Qed.

Lemma lastClk_set c s : m_lastClk (set_lastClk c s) = c.
Proof. reflexivity. Qed.

(** The end of a run of [setClock]: what the trace holds once the events
    are read off. *)
Ltac read_off :=
  repeat first
    [ rewrite trace_push | rewrite trace_set_lastClk
    | rewrite lastClk_push | rewrite lastClk_set
    | rewrite register_writes_app | rewrite sleeps_app ];
  cbn [register_writes sleeps flat_map app];
  rewrite ?app_nil_r, <- ?app_assoc; cbn [app].

(** The status a write returns is of no consequence here. *)
Ltac forget_status :=
  repeat match goal with
         | |- context [hw_write ?env (tick ?s)] =>
             generalize (hw_write env (tick s)); intro
         end.

Ltac run_steps :=
  cbv beta iota zeta;
  repeat (first
    [ rewrite run_bind | rewrite run_log
    | rewrite run_write; forget_status
    | rewrite run_sleep | rewrite run_modify | rewrite run_ret ];
    cbv beta iota zeta).

(** The wait for the lock and the three restoring writes. *)
Ltac run_wait_and_restore env :=
  match goal with
  | |- context [bind (wait_locked env 1001 1000) ?k ?s0] =>
      let w := fresh "w" in
      let s1 := fresh "s" in
      let R := fresh "R" in
      let X := fresh "X" in
      let K := fresh "K" in
      destruct (wait_locked_frame env 1001 1000 s0) as (w & s1 & R & X & K);
      [ cbn; lia | lia | ];
      destruct (extends_no_writes _ _ _ lock_poll_quiet X) as [? ?];
      replace (bind (wait_locked env 1001 1000) k s0) with (k w s1)
        by (unfold bind; now rewrite R);
      cbv beta; unfold when; destruct (w =? 0); run_steps
  end.

(** X12: a change of clock ([targetClk] other than -1) whose five reads
    succeed begins its writes with 0xFFFFFFFF to 0xB000 and ends them by
    writing back to 0x5040, 0x5088 and 0xB000 the values it read there
    before; the writes in between go to the clock generator only. *)
Theorem setClock_restores_saved_registers env targetClk s v d a b c :
  Dbl.neqb targetClk (-1) = true ->
  hw_read env 0x8200 (count_reads 0x8200 (trace s)) = (0, v) ->
  hw_read env 0x8208 (count_reads 0x8208 (trace s)) = (0, d) ->
  hw_read env 0x5040 (count_reads 0x5040 (trace s)) = (0, a) ->
  hw_read env 0x5088 (count_reads 0x5088 (trace s)) = (0, b) ->
  hw_read env 0xB000 (count_reads 0xB000 (trace s)) = (0, c) ->
  exists clk s' mid,
    setClock env targetClk s = Ret clk s' /\
    register_writes (trace s')
    = register_writes (trace s) ++ [(0xB000, 0xFFFFFFFF)] ++ mid
      ++ [(0x5040, u32 a); (0x5088, u32 b); (0xB000, u32 c)] /\
    forallb pll_reg mid = true.
Proof.
  intros T R1 R2 R3 R4 R5. unfold setClock. rewrite T.
  run_read_with R1. change (0 =? 0) with true. cbn [negb]. cbv iota.
  run_read_with R2. change (0 =? 0) with true. cbn [negb]. cbv iota.
  rewrite run_bind. run_read_with R3. change (0 =? 0) with true.
  cbn [negb]. run_steps.
  run_read_with R4. run_steps. run_read_with R5. run_steps.
  change (0 =? 0) with true. cbv iota.
  destruct (0 <? targetClk)%float;
    [destruct (round_div (vco_of (u32 v) / (targetClk + 1)) <? 2)%float|
     destruct (targetClk <? -1)%float].
  all: run_steps; run_wait_and_restore env; eexists _, _.
  1, 2: exists [].
  3, 4: exists [(0x8200, u32 v);
                (0x8208, encode_div (round_div (vco_of (u32 v)
                                                / (targetClk + 1))));
                (0x825c, 0x7); (0x825c, 0x3)].
  5, 6: exists [(0x825c, 0x5); (0x825c, 0x1); (0x8000, 0xA)].
  7, 8: exists [].
  all: split; [reflexivity|]; read_off.
  all: match goal with H : register_writes _ = _ |- _ => rewrite H end.
  all: read_off; split; reflexivity.
Qed.

Lemma setClock_restores_saved_registers_witness :
  exists clk s' mid,
    setClock (quiet_env rd_saved) (-2) fresh_miner = Ret clk s' /\
    register_writes (trace s')
    = register_writes (trace fresh_miner) ++ [(0xB000, 0xFFFFFFFF)] ++ mid
      ++ [(0x5040, u32 0x800000); (0x5088, u32 0x200); (0xB000, u32 0x3)] /\
    forallb pll_reg mid = true.
Proof.
  apply (setClock_restores_saved_registers (quiet_env rd_saved) (-2)
           fresh_miner 0x801 0x4 0x800000 0x200 0x3); reflexivity.
Defined.

(** X13: when the first of the three saving reads (0x5040) fails, the
    stale status makes all three saved values 0, whatever the other two
    reads return: the change of clock ends by writing 0 to 0x5040, 0x5088
    and 0xB000. *)
Theorem setClock_failed_save_restores_zeros env targetClk s v d e a :
  Dbl.neqb targetClk (-1) = true ->
  hw_read env 0x8200 (count_reads 0x8200 (trace s)) = (0, v) ->
  hw_read env 0x8208 (count_reads 0x8208 (trace s)) = (0, d) ->
  hw_read env 0x5040 (count_reads 0x5040 (trace s)) = (e, a) ->
  e <> 0 ->
  exists clk s' mid,
    setClock env targetClk s = Ret clk s' /\
    register_writes (trace s')
    = register_writes (trace s) ++ [(0xB000, 0xFFFFFFFF)] ++ mid
      ++ [(0x5040, 0); (0x5088, 0); (0xB000, 0)] /\
    forallb pll_reg mid = true.
Proof.
  intros T R1 R2 R3 E. unfold setClock. rewrite T.
  destruct (hw_read env 0x5088 (count_reads 0x5088 (trace s)))
    as [e4 b] eqn:R4.
  destruct (hw_read env 0xB000 (count_reads 0xB000 (trace s)))
    as [e5 c] eqn:R5.
  apply Z.eqb_neq in E.
  run_read_with R1. change (0 =? 0) with true. cbn [negb]. cbv iota.
  run_read_with R2. change (0 =? 0) with true. cbn [negb]. cbv iota.
  rewrite run_bind. run_read_with R3. rewrite E. cbn [negb]. run_steps.
  run_read_with R4. run_steps. run_read_with R5. run_steps.
  destruct (0 <? targetClk)%float;
    [destruct (round_div (vco_of (u32 v) / (targetClk + 1)) <? 2)%float|
     destruct (targetClk <? -1)%float].
  all: run_steps; run_wait_and_restore env; eexists _, _.
  1, 2: exists [].
  3, 4: exists [(0x8200, u32 v);
                (0x8208, encode_div (round_div (vco_of (u32 v)
                                                / (targetClk + 1))));
                (0x825c, 0x7); (0x825c, 0x3)].
  5, 6: exists [(0x825c, 0x5); (0x825c, 0x1); (0x8000, 0xA)].
  7, 8: exists [].
  all: split; [reflexivity|]; read_off.
  all: match goal with H : register_writes _ = _ |- _ => rewrite H end.
  all: read_off; split; reflexivity.
Qed.

Lemma setClock_failed_save_restores_zeros_witness :
  exists clk s' mid,
    setClock (quiet_env rd_save_fails) (-2) fresh_miner = Ret clk s' /\
    register_writes (trace s')
    = register_writes (trace fresh_miner) ++ [(0xB000, 0xFFFFFFFF)] ++ mid
      ++ [(0x5040, 0); (0x5088, 0); (0xB000, 0)] /\
    forallb pll_reg mid = true.
Proof.
  apply (setClock_failed_save_restores_zeros (quiet_env rd_save_fails) (-2)
           fresh_miner 0x801 0x4 1 0); try reflexivity. lia.
Defined.

(** X14: a positive target whose rounded divisor is below 2.0 is refused:
    nothing is written to the clock generator, [m_lastClk] is kept and the
    clock returned is the current one; the registers written are 0xB000
    and the three that are restored. *)
Theorem setClock_refuses_divisor_below_2 env targetClk s v d :
  (0 <? targetClk)%float = true ->
  (round_div (vco_of (u32 v) / (targetClk + 1)) <? 2)%float = true ->
  hw_read env 0x8200 (count_reads 0x8200 (trace s)) = (0, v) ->
  hw_read env 0x8208 (count_reads 0x8208 (trace s)) = (0, d) ->
  exists s' a b c,
    setClock env targetClk s
    = Ret (vco_of (u32 v) / clk0div_of (u32 d))%float s' /\
    register_writes (trace s')
    = register_writes (trace s)
      ++ [(0xB000, 0xFFFFFFFF); (0x5040, a); (0x5088, b); (0xB000, c)] /\
    m_lastClk s' = m_lastClk s.
Proof.
  intros P D R1 R2. unfold setClock. rewrite (pos_not_minus_one _ P), P.
  destruct (hw_read env 0x5040 (count_reads 0x5040 (trace s)))
    as [e3 a] eqn:R3.
  destruct (hw_read env 0x5088 (count_reads 0x5088 (trace s)))
    as [e4 b] eqn:R4.
  destruct (hw_read env 0xB000 (count_reads 0xB000 (trace s)))
    as [e5 c] eqn:R5.
  run_read_with R1. change (0 =? 0) with true. cbn [negb]. cbv iota.
  run_read_with R2. change (0 =? 0) with true. cbn [negb]. cbv iota.
  rewrite D.
  rewrite run_bind. run_read_with R3.
  destruct (e3 =? 0); cbn [negb]; run_steps.
  all: run_read_with R4; run_steps; run_read_with R5; run_steps.
  all: run_wait_and_restore env.
  all: eexists _, _, _, _; split; [reflexivity|]; read_off.
  all: repeat match goal with H : _ = _ |- _ => rewrite H; clear H end.
  all: read_off; split; reflexivity.
Qed.

Lemma setClock_refuses_divisor_below_2_witness :
  exists s' a b c,
    setClock (quiet_env rd_vco1600) 2000 fresh_miner
    = Ret (vco_of (u32 0x801) / clk0div_of (u32 0x4))%float s' /\
    register_writes (trace s')
    = register_writes (trace fresh_miner)
      ++ [(0xB000, 0xFFFFFFFF); (0x5040, a); (0x5088, b); (0xB000, c)] /\
    m_lastClk s' = m_lastClk fresh_miner.
Proof.
  apply (setClock_refuses_divisor_below_2 (quiet_env rd_vco1600) 2000
           fresh_miner 0x801 0x4); reflexivity.
Defined.

Lemma eighths_table :
  Forall (fun k =>
            let dd := (Dbl.of_Z k / 8)%float in
            (dd <? 2)%float = false /\
            encode_div dd = Z.lor (k / 8) (Z.shiftl (125 * (k mod 8)) 8) /\
            clk0div_of (encode_div dd) = dd)
         (millivolts 16 112).
Proof.
  unfold millivolts. cbn [seq map Z.of_nat Pos.of_succ_nat Pos.succ].
  repeat (constructor; [vm_compute; repeat split; reflexivity|]).
  constructor.
Qed.

(** X15: a positive target whose rounded divisor is [k / 8] with
    16 <= [k] <= 127.  [setClock] writes the value read from 0x8200 back,
    the divisor to 0x8208 as integer part [k / 8] in the low byte and
    125 * ([k] mod 8) thousandths from bit 8, then 7 and 3 to 0x825c.  The
    divisor [getClock] decodes from that word is [k / 8] again, so the clock
    returned is the one a later [getClock] computes from the registers as
    written; its integer part is stored in [m_lastClk]. *)
Theorem setClock_programs_divisor env targetClk s v d k :
  (0 <? targetClk)%float = true ->
  s32 (Dbl.to_Z (vco_of (u32 v) / (targetClk + 1) * 8 + 0.99)) = k ->
  16 <= k <= 127 ->
  hw_read env 0x8200 (count_reads 0x8200 (trace s)) = (0, v) ->
  hw_read env 0x8208 (count_reads 0x8208 (trace s)) = (0, d) ->
  exists s' a b c nd,
    setClock env targetClk s
    = Ret (vco_of (u32 v) / clk0div_of nd)%float s' /\
    register_writes (trace s')
    = register_writes (trace s)
      ++ [(0xB000, 0xFFFFFFFF); (0x8200, u32 v); (0x8208, nd);
          (0x825c, 0x7); (0x825c, 0x3);
          (0x5040, a); (0x5088, b); (0xB000, c)] /\
    nd = Z.lor (k / 8) (Z.shiftl (125 * (k mod 8)) 8) /\
    clk0div_of nd = (Dbl.of_Z k / 8)%float /\
    m_lastClk s'
    = Dbl.of_Z (s32 (Dbl.to_Z (vco_of (u32 v) / clk0div_of nd)%float)).
Proof.
  intros P K B R1 R2.
  assert (T : In k (millivolts 16 112)) by (apply in_millivolts; lia).
  pose proof (proj1 (Forall_forall _ _) eighths_table k T) as (D & N & C).
  cbv zeta in D, N, C.
  unfold setClock. rewrite (pos_not_minus_one _ P), P.
  destruct (hw_read env 0x5040 (count_reads 0x5040 (trace s)))
    as [e3 a] eqn:R3.
  destruct (hw_read env 0x5088 (count_reads 0x5088 (trace s)))
    as [e4 b] eqn:R4.
  destruct (hw_read env 0xB000 (count_reads 0xB000 (trace s)))
    as [e5 c] eqn:R5.
  run_read_with R1. change (0 =? 0) with true. cbn [negb]. cbv iota.
  run_read_with R2. change (0 =? 0) with true. cbn [negb]. cbv iota.
  unfold round_div. rewrite K, D.
  rewrite run_bind. run_read_with R3.
  destruct (e3 =? 0); cbn [negb]; run_steps.
  all: run_read_with R4; run_steps; run_read_with R5; run_steps.
  all: run_wait_and_restore env.
  all: eexists _, _, _, _, (encode_div (Dbl.of_Z k / 8)).
  all: rewrite C; split; [reflexivity|]; read_off.
  all: repeat match goal with
              | H : register_writes _ = _ |- _ => rewrite H; clear H
              | H : m_lastClk _ = _ |- _ => rewrite H; clear H
              end.
  all: read_off; repeat split; try reflexivity; exact N.
Qed.

Lemma setClock_programs_divisor_witness :
  exists s' a b c nd,
    setClock (quiet_env rd_vco1600) 456 fresh_miner
    = Ret (vco_of (u32 0x801) / clk0div_of nd)%float s' /\
    register_writes (trace s')
    = register_writes (trace fresh_miner)
      ++ [(0xB000, 0xFFFFFFFF); (0x8200, u32 0x801); (0x8208, nd);
          (0x825c, 0x7); (0x825c, 0x3);
          (0x5040, a); (0x5088, b); (0xB000, c)] /\
    nd = Z.lor (28 / 8) (Z.shiftl (125 * (28 mod 8)) 8) /\
    clk0div_of nd = (Dbl.of_Z 28 / 8)%float /\
    m_lastClk s'
    = Dbl.of_Z (s32 (Dbl.to_Z (vco_of (u32 0x801) / clk0div_of nd)%float)).
Proof.
  apply (setClock_programs_divisor (quiet_env rd_vco1600) 456 fresh_miner
           0x801 0x4 28); try reflexivity. lia.
Defined.

(** ** [search] *)

Lemma lor_shiftl_add lo hi k :
  0 <= lo < 2 ^ k -> 0 <= hi -> 0 <= k ->
  Z.lor lo (Z.shiftl hi k) = lo + hi * 2 ^ k.
Proof.
  intros Hlo Hhi Hk.
  assert (D : Z.land lo (Z.shiftl hi k) = 0).
  { apply Z.bits_inj'. intros n Hn. rewrite Z.land_spec, Z.bits_0.
    destruct (Z.lt_ge_cases n k) as [L | L].
    - rewrite Z.shiftl_spec_low by lia. apply andb_false_r.
    - rewrite (testbit_above lo k n) by lia. reflexivity. }
  rewrite <- Z.lxor_lor by exact D.
  rewrite <- Z.add_nocarry_lxor by exact D.
  now rewrite Z.shiftl_mul_pow2 by lia.
Qed.

Lemma land_1_mod x : Z.land x 1 = x mod 2.
Proof. change 1 with (Z.ones 1) at 1. now rewrite Z.land_ones by lia. Qed.

Lemma land_0xFF_mod x : Z.land x 0xFF = x mod 256.
Proof. change 0xFF with (Z.ones 8). now rewrite Z.land_ones by lia. Qed.

Lemma land_0x3F_mod x : Z.land x 0x3F = x mod 64.
Proof. change 0x3F with (Z.ones 6). now rewrite Z.land_ones by lia. Qed.

Lemma lor_scaled lo hi k m :
  m = 2 ^ k -> 0 <= k -> 0 <= lo < m -> 0 <= hi ->
  Z.lor lo (hi * m) = lo + hi * m.
Proof.
  intros -> Hk Hlo Hhi. rewrite <- (lor_shiftl_add lo hi k) by lia.
  now rewrite Z.shiftl_mul_pow2 by lia.
Qed.

(** The control word as a sum of its fields. *)
Lemma search_flags_sum p n d :
  n = 0 \/ 1 <= d mod 64 <= 32 ->
  search_flags p n d
  = (if n =? 0 then 0 else 1)
    + (if p =? 0 then 0 else 64 + (p mod 256) * 256)
    + (if n =? 0 then 0
       else (d mod 64 * 8 - 1) * 65536 + (n mod 256) * 16777216).
Proof.
  intros H. unfold search_flags. cbv zeta.
  rewrite !land_0xFF_mod, land_0x3F_mod.
  pose proof (Z.mod_pos_bound p 256 eq_refl) as Bp.
  pose proof (Z.mod_pos_bound n 256 eq_refl) as Bn.
  pose proof (Z.mod_pos_bound d 64 eq_refl) as Bd.
  set (a := p mod 256) in *. set (b := n mod 256) in *.
  set (c := d mod 64) in *.
  assert (Ua : u32 (Z.shiftl a 8) = a * 256).
  { rewrite Z.shiftl_mul_pow2 by lia. change (2 ^ 8) with 256.
    apply u32_small. lia. }
  assert (Ub : u32 (Z.shiftl b 24) = b * 16777216).
  { rewrite Z.shiftl_mul_pow2 by lia. change (2 ^ 24) with 16777216.
    apply u32_small. lia. }
  rewrite Ua, Ub, Z.lor_0_l. change (Z.shiftl 1 6) with 64.
  change (Z.shiftl 1 0) with 1.
  rewrite (lor_scaled 64 a 8 256 eq_refl) by lia.
  rewrite (lor_scaled 1 b 24 16777216 eq_refl) by lia.
  destruct (n =? 0) eqn:En; cbn [negb].
  - destruct (p =? 0); cbn [negb]; lia.
  - destruct H as [H | H]; [apply Z.eqb_neq in En; lia|].
    assert (Uc : u32 (Z.shiftl (u32 (c * 8 - 1)) 16) = (c * 8 - 1) * 65536).
    { rewrite (u32_small (c * 8 - 1)) by lia.
      rewrite Z.shiftl_mul_pow2 by lia. change (2 ^ 16) with 65536.
      apply u32_small. lia. }
    rewrite Uc.
    set (lowp := if negb (p =? 0) then 64 + a * 256 else 0).
    assert (Lp : 0 <= lowp < 65535 /\ lowp mod 2 = 0).
    { unfold lowp. destruct (p =? 0); cbn [negb].
      - split; [lia | reflexivity].
      - split; [lia|]. replace (64 + a * 256) with ((32 + a * 128) * 2) by lia.
        apply Z.mod_mul. lia. }
    destruct Lp as [Lp Ev].
    assert (E3 : Z.lor lowp 1 = lowp + 1).
    { rewrite <- Z.lxor_lor, <- Z.add_nocarry_lxor; try reflexivity;
        rewrite land_1_mod; exact Ev. }
    rewrite <- (lor_scaled 1 b 24 16777216 eq_refl) by lia.
    rewrite Z.lor_assoc, E3.
    rewrite <- Z.lor_assoc, (Z.lor_comm (b * 16777216)), Z.lor_assoc.
    rewrite (lor_scaled (lowp + 1) (c * 8 - 1) 16 65536 eq_refl) by lia.
    rewrite (lor_scaled _ b 24 16777216 eq_refl) by lia.
    unfold lowp. destruct (p =? 0); cbn [negb]; lia.
Qed.

(** X16: the fields of the control word [search] writes to 0x5080 do not
    overlap as long as the low six bits of [intensityD] are between 1 and
    32.  The word fits 32 bits; bit 0 and the bytes from bit 16 and bit 24
    are the intensity enable, 8 * ([intensityD] & 0x3F) - 1 and
    [intensityN] & 0xFF, or all 0 when [intensityN] is 0; bit 6 and the
    byte from bit 8 are the patience enable and [patience] & 0xFF, or 0
    when [patience] is 0.  The byte from bit 24 is the one [StopHashcore]
    reads back as the intensity to ramp down from. *)
Theorem search_flags_fields p n d :
  n = 0 \/ 1 <= Z.land d 0x3F <= 32 ->
  0 <= search_flags p n d < 2 ^ 32 /\
  Z.land (search_flags p n d) 1 = (if n =? 0 then 0 else 1) /\
  Z.land (Z.shiftr (search_flags p n d) 6) 1 = (if p =? 0 then 0 else 1) /\
  Z.land (Z.shiftr (search_flags p n d) 8) 0xFF
  = (if p =? 0 then 0 else Z.land p 0xFF) /\
  Z.land (Z.shiftr (search_flags p n d) 16) 0xFF
  = (if n =? 0 then 0 else Z.land d 0x3F * 8 - 1) /\
  Z.land (Z.shiftr (search_flags p n d) 24) 0xFF
  = (if n =? 0 then 0 else Z.land n 0xFF).
Proof.
  intros H. rewrite land_0x3F_mod in *.
  rewrite (search_flags_sum p n d H), !land_1_mod, !land_0xFF_mod.
  rewrite !Z.shiftr_div_pow2 by lia.
  change (2 ^ 6) with 64. change (2 ^ 8) with 256.
  change (2 ^ 16) with 65536. change (2 ^ 24) with 16777216.
  change (2 ^ 32) with 4294967296.
  pose proof (Z.mod_pos_bound p 256 eq_refl) as Bp.
  pose proof (Z.mod_pos_bound n 256 eq_refl) as Bn.
  pose proof (Z.mod_pos_bound d 64 eq_refl) as Bd.
  set (a := p mod 256) in *. set (b := n mod 256) in *.
  set (c := d mod 64) in *.
  destruct (n =? 0) eqn:En; destruct (p =? 0) eqn:Ep.
  all: try (destruct H as [H | H]; [apply Z.eqb_neq in En; lia|]).
  all: repeat split; try (Z.div_mod_to_equations; lia).
Qed.

Lemma search_flags_fields_witness :
  0 <= search_flags 3 200 4 < 2 ^ 32 /\
  Z.land (search_flags 3 200 4) 1 = 1 /\
  Z.land (Z.shiftr (search_flags 3 200 4) 6) 1 = 1 /\
  Z.land (Z.shiftr (search_flags 3 200 4) 8) 0xFF = 3 /\
  Z.land (Z.shiftr (search_flags 3 200 4) 16) 0xFF = 31 /\
  Z.land (Z.shiftr (search_flags 3 200 4) 24) 0xFF = 200.
Proof.
  apply (search_flags_fields 3 200 4). right. simpl. lia.
Defined.

Lemma run_bulk env data addr flip {B} (k : Z -> M B) s :
  bind (SQRLAXIWriteBulk env data addr flip) k s
  = k (hw_write env (tick s))
      (push (EvWriteBulk data addr flip (hw_write env (tick s))) s).
Proof. reflexivity. Qed.

Lemma run_lock {B} (k : unit -> M B) s : bind lock k s = k tt (push EvLock s).
Proof. reflexivity. Qed.

Lemma run_unlock {B} (k : unit -> M B) s :
  bind unlock k s = k tt (push EvUnlock s).
Proof. reflexivity. Qed.

Lemma run_get {A B} (f : Miner -> A) (k : A -> M B) s :
  bind (get f) k s = k (f s) s.
Proof. reflexivity. Qed.

Lemma run_tuner env {B} (k : option IntensitySettings -> M B) s :
  bind (getIntensitySettings env) k s
  = k (tuner_intensity env (tick s)) (push EvTunerQuery s).
Proof. reflexivity. Qed.

Lemma trace_set_new_work b s : trace (set_new_work b s) = trace s.
Proof. reflexivity. Qed.

Lemma trace_set_intensity i s : trace (set_intensity i s) = trace s.
Proof. reflexivity. Qed.

(** The two halves of a 64-bit word. *)
Lemma split_u64 x :
  0 <= u32 (Z.shiftr (u64 x) 32) < 2 ^ 32 /\
  0 <= u32 (Z.land (u64 x) 0xFFFFFFFF) < 2 ^ 32 /\
  u32 (Z.shiftr (u64 x) 32) * 2 ^ 32 + u32 (Z.land (u64 x) 0xFFFFFFFF)
  = u64 x.
Proof.
  unfold u32, u64. change 0xFFFFFFFF with (Z.ones 32).
  rewrite Z.land_ones, Z.shiftr_div_pow2 by lia.
  change (2 ^ 64) with 18446744073709551616.
  change (2 ^ 32) with 4294967296.
  pose proof (Z.mod_pos_bound x 18446744073709551616 eq_refl).
  Z.div_mod_to_equations. lia.
Qed.


Lemma run_bind_copy env src dst len {B} (k : Z -> M B) s :
  bind (SQRLAXICDMACopyBytes env src dst len) k s
  = k (hw_write env (tick s))
      (push (EvCDMACopy src dst len (hw_write env (tick s))) s).
Proof. reflexivity. Qed.

(** ** The duplication of the DAG *)

Lemma cdma_copies_app l1 l2 :
  cdma_copies (l1 ++ l2) = cdma_copies l1 ++ cdma_copies l2.
Proof. apply flat_map_app. Qed.

Lemma chunks_S i n : chunks i (S n) = i :: chunks (i + 1) n.
Proof.
  unfold chunks. cbn [seq map]. f_equal; [lia|].
  rewrite <- seq_shift, map_map. apply map_ext. intros k. lia.
Qed.


(** The first [j] turns of the loop, when their copies succeed. *)
Lemma swizzle_steps env : forall (j n : nat) i e s,
  (j <= n)%nat ->
  (forall k, (k < j)%nat -> u8 (hw_write env (tick s + k)) = 0) ->
  exists s1,
    swizzle env n i e s
    = swizzle env (n - j) (i + Z.of_nat j) (if (j =? 0)%nat then e else 0) s1 /\
    cdma_copies (trace s1)
    = cdma_copies (trace s) ++ map chunk_copy (chunks i j) /\
    tick s1 = (tick s + j)%nat /\
    sleeps (trace s1) = sleeps (trace s) /\
    extends (fun ev => negb (is_log ev)) s s1.
Proof.
  induction j as [|j IH]; intros n i e s Hj Hok.
  - exists s. rewrite Nat.sub_0_r, Z.add_0_r, Nat.add_0_r.
    cbn [Nat.eqb chunks seq map]. rewrite app_nil_r.
    repeat split; try reflexivity. exists []. now rewrite app_nil_r.
  - destruct n as [|n]; [lia|].
    cbn [swizzle]. rewrite run_bind_copy.
    assert (O : u8 (hw_write env (tick s)) = 0).
    { rewrite <- (Nat.add_0_r (tick s)). apply Hok. lia. }
    rewrite O. change (negb (0 =? 0)) with false. cbv iota.
    set (s0 := push _ s).
    destruct (IH n (i + 1) 0 s0) as (s1 & E & C & T & Sl & X); [lia| |].
    { intros k Hk. unfold s0, tick. rewrite trace_push, length_app.
      cbn [length]. replace (length (trace s) + 1 + k)%nat
        with (tick s + S k)%nat by (unfold tick; lia).
      apply Hok. lia. }
    exists s1. split; [|split; [|split; [|split]]].
    + rewrite E. cbn [Nat.eqb Nat.sub].
      replace (i + 1 + Z.of_nat j) with (i + Z.of_nat (S j)) by lia.
      now destruct (j =? 0)%nat.
    + rewrite C. unfold s0. rewrite trace_push, cdma_copies_app, chunks_S.
      cbn [cdma_copies flat_map map app]. rewrite <- app_assoc. reflexivity.
    + rewrite T. unfold s0, tick. rewrite trace_push, length_app.
      cbn [length]. lia.
    + rewrite Sl. unfold s0. rewrite trace_push, sleeps_app.
      cbn [sleeps flat_map]. now rewrite app_nil_r.
    + eapply extends_trans; [|exact X].
      unfold s0. eexists [_]. split; reflexivity.
Qed.

Lemma chunk_table :
  Forall (fun i =>
            chunk_copy i = (2 ^ 32 + i * 2 ^ 24, swizzled i * 2 ^ 24, 2 ^ 24) /\
            swizzled i = 16 * (i mod 16) + i / 16 /\
            (0 <=? swizzled i) && (swizzled i <? 256) = true /\
            swizzled (swizzled i) = i)
         (chunks 0 256).
Proof.
  apply Forall_forall. intros i Hi.
  assert (A : forallb
                (fun i =>
                   let '(a, b, c) := chunk_copy i in
                   (a =? 2 ^ 32 + i * 2 ^ 24)
                   && (b =? swizzled i * 2 ^ 24) && (c =? 2 ^ 24)
                   && (swizzled i =? 16 * (i mod 16) + i / 16)
                   && ((0 <=? swizzled i) && (swizzled i <? 256))
                   && (swizzled (swizzled i) =? i))
                (chunks 0 256) = true) by (vm_compute; reflexivity).
  rewrite forallb_forall in A. specialize (A i Hi).
  destruct (chunk_copy i) as [[a b] c].
  repeat (apply andb_prop in A; destruct A as [A ?]).
  repeat match goal with
         | H : (_ =? _) = true |- _ => apply Z.eqb_eq in H
         end.
  subst. repeat split; assumption.
Qed.

Lemma in_chunks i : 0 <= i < 256 -> In i (chunks 0 256).
Proof.
  intros H. unfold chunks. apply in_map_iff. exists (Z.to_nat i).
  split; [lia|]. apply in_seq. lia.
Qed.

(** X18: when its copies succeed, the duplication loop returns 0 after
    256 copies of 16 MB and nothing else but those; chunk [i] goes from
    2^32 + [i] * 2^24 to the chunk whose number is [i] with its two nibbles
    exchanged.  The exchange is its own inverse on 0 .. 255, so every chunk
    of the lower 4 GB is written exactly once. *)
Theorem swizzle_copies_every_chunk env s e :
  (forall k, (k < 256)%nat -> u8 (hw_write env (tick s + k)) = 0) ->
  exists s',
    swizzle env 256 0 e s = Ret 0 s' /\
    cdma_copies (trace s')
    = cdma_copies (trace s) ++ map chunk_copy (chunks 0 256) /\
    length (trace s') = (length (trace s) + 256)%nat /\
    forall i, 0 <= i < 256 ->
      chunk_copy i = (2 ^ 32 + i * 2 ^ 24, swizzled i * 2 ^ 24, 2 ^ 24) /\
      swizzled i = 16 * (i mod 16) + i / 16 /\
      0 <= swizzled i < 256 /\
      swizzled (swizzled i) = i.
Proof.
  intros Hok.
  destruct (swizzle_steps env 256 256 0 e s (le_n _) Hok)
    as (s1 & E & C & T & _ & _).
  exists s1. split; [rewrite E; reflexivity|]. split; [exact C|].
  split; [exact T|]. intros i Hi.
  destruct (proj1 (Forall_forall _ _) chunk_table i (in_chunks i Hi))
    as (A & B & R & I).
  apply andb_prop in R. destruct R as [R1 R2].
  apply Z.leb_le in R1. apply Z.ltb_lt in R2. auto.
Qed.

Lemma swizzle_copies_every_chunk_witness :
  exists s',
    swizzle (quiet_env (fun _ _ => (0, 0))) 256 0 7 fresh_miner = Ret 0 s' /\
    length (trace s') = 256%nat /\
    chunk_copy 0x12 = (2 ^ 32 + 0x12 * 2 ^ 24, 0x21 * 2 ^ 24, 2 ^ 24).
Proof.
  destruct (swizzle_copies_every_chunk (quiet_env (fun _ _ => (0, 0)))
              fresh_miner 7) as (s' & E & _ & L & F).
  - intros k _. reflexivity.
  - exists s'. split; [exact E|]. split; [exact L|]. reflexivity.
Defined.



(** ** More on the voltage table *)

Lemma in_ordered_pairs n i j :
  (i < j)%nat -> (j < n)%nat -> In (i, j) (ordered_pairs n).
Proof.
  intros Hi Hj. unfold ordered_pairs. apply in_flat_map. exists j.
  split; [apply in_seq; lia|]. apply in_map_iff. exists i.
  split; [reflexivity | apply in_seq; lia].
Qed.

(** X20: the table [InitVoltageTbl] fills is strictly decreasing in the
    wiper code: a higher code always stands for a lower voltage, also at
    the last entry, which the function assigns apart from the loop. *)
Theorem LookupVID_decreasing i j :
  0 <= i < j -> j <= 255 ->
  (LookupVID j <? LookupVID i)%float = true /\
  LookupVID j = tbl_at InitVoltageTbl j.
Proof.
  intros Hi Hj.
  assert (A : forallb
                (fun p => (LookupVID (Z.of_nat (snd p))
                           <? LookupVID (Z.of_nat (fst p)))%float)
                (ordered_pairs 256) = true) by (vm_compute; reflexivity).
  rewrite forallb_forall in A.
  specialize (A (Z.to_nat i, Z.to_nat j)). cbn [fst snd] in A.
  rewrite !Z2Nat.id in A by lia. split.
  - apply A, in_ordered_pairs; lia.
  - unfold LookupVID. now rewrite VoltageTbl_init.
Qed.

Lemma LookupVID_decreasing_witness :
  (LookupVID 200 <? LookupVID 3)%float = true /\
  LookupVID 200 = tbl_at InitVoltageTbl 200.
Proof. apply (LookupVID_decreasing 3 200); lia. Defined.

(** ** The histories of the hash rate *)

Lemma run_query {A B} (q : Miner -> A) (ev : A -> Event) (k : A -> M B) s :
  bind (query q ev) k s = k (q s) (push (ev (q s)) s).
Proof. reflexivity. Qed.

Lemma histories_step (h10 h60 : list float) a :
  Forall (fun x => in_band x = true) h60 ->
  (exists older, h60 = older ++ h10) ->
  length h10 = Nat.min 10 (length h60) ->
  (length h60 <= 60)%nat ->
  in_band a = true ->
  Forall (fun x => in_band x = true) (pop_past 60 (h60 ++ [a])) /\
  (exists older, pop_past 60 (h60 ++ [a]) = older ++ pop_past 10 (h10 ++ [a])) /\
  length (pop_past 10 (h10 ++ [a]))
  = Nat.min 10 (length (pop_past 60 (h60 ++ [a]))) /\
  (length (pop_past 60 (h60 ++ [a])) <= 60)%nat.
Proof.
  intros F (older & E) L B Ha.
  assert (L10 : (length h10 <= 10)%nat) by lia.
  rewrite (pop_past_push 10 h10 a) by lia.
  rewrite (pop_past_push 60 h60 a) by lia.
  assert (Fa : Forall (fun x => in_band x = true) (h60 ++ [a])).
  { apply Forall_app. split; [exact F | now constructor]. }
  assert (Lo : length h60 = (length older + length h10)%nat)
    by (rewrite E, length_app; reflexivity).
  destruct (Nat.ltb_spec (length h60) 60) as [C60 | C60];
    destruct (Nat.ltb_spec (length h10) 10) as [C10 | C10].
  - (* the short history is the long one *)
    assert (older = []) by (destruct older; [reflexivity | simpl in Lo; lia]).
    subst older. cbn [app] in E. subst h60.
    split; [exact Fa|]. split; [now exists []|].
    rewrite !length_app. cbn [length]. lia.
  - split; [exact Fa|]. split.
    + destruct h10 as [|x t]; [simpl in C10; lia|]. cbn [tl].
      exists (older ++ [x]). rewrite E, <- !app_assoc. reflexivity.
    + destruct h10 as [|x t]; [cbn [length] in C10; lia|].
      cbn [tl]. rewrite !length_app. cbn [length] in *. lia.
  - lia.
  - destruct older as [|y older]; [simpl in Lo; lia|].
    destruct h10 as [|x t]; [simpl in C10; lia|].
    subst h60. cbn [tl app]. split; [|split].
    + cbn [app] in Fa. now inversion Fa.
    + exists (older ++ [x]). rewrite <- !app_assoc. reflexivity.
    + cbn [length] in *. rewrite ?length_app in *. cbn [length] in *. lia.
Qed.

(** X21: every call of [processHashrateAverages] keeps the two histories
    consistent: their samples lie strictly between 10 and 100, the
    10-entry history holds the latest samples of the 60-entry one, all of
    them while there are fewer than 10, and the 60-entry history never
    holds more than 60.  The histories of a new miner, both empty, are
    consistent. *)
Theorem processHashrateAverages_keeps_histories env newTcks s :
  histories_ok s ->
  exists s',
    processHashrateAverages env newTcks s = Ret tt s' /\
    histories_ok s'.
Proof.
  intros (F & S & L & B).
  unfold processHashrateAverages, steady_now, getHardwareErrorRate.
  rewrite run_get, run_modify, run_query, run_get.
  cbn [m_avgHashTimer push set_hashCounter].
  match goal with |- context [if ?c then _ else _] => destruct c end.
  - rewrite run_get, run_query, run_get, run_get, run_query, run_modify.
    unfold modify. eexists. split; [reflexivity|].
    unfold histories_ok.
    cbn [m_10minHashAvg m_60minHashAvg m_hashCounter push set_hashCounter
           set_averages].
    destruct (in_band _) eqn:Ba.
    + apply histories_step; assumption.
    + rewrite !pop_past_within by lia. auto.
  - unfold ret. eexists. split; [reflexivity|].
    unfold histories_ok.
    cbn [m_10minHashAvg m_60minHashAvg push set_hashCounter]. auto.
Qed.

Lemma processHashrateAverages_keeps_histories_witness :
  histories_ok fresh_miner /\
  exists s',
    processHashrateAverages (clock_env 61000000000) 1200000000 fresh_miner
    = Ret tt s' /\
    histories_ok s'.
Proof.
  assert (H : histories_ok fresh_miner).
  { unfold histories_ok. cbn. repeat split; try lia; [constructor|].
    now exists []. }
  split; [exact H|].
  apply (processHashrateAverages_keeps_histories (clock_env 61000000000)
           1200000000 fresh_miner H).
Defined.

(** ** The lock *)

Lemma guarded_app h l1 l2 :
  guarded h (l1 ++ l2)
  = match guarded h l1 with
    | Some b => guarded b l2
    | None => None
    end.
Proof.
  revert h. induction l1 as [|e l1 IH]; intros h; [reflexivity|].
  cbn [app guarded].
  destruct e; try (destruct h; cbn [is_access andb negb]; apply IH);
    destruct h; try reflexivity; apply IH.
Qed.

Lemma guarded_held l :
  forallb no_lock_ev l = true -> guarded true l = Some true.
Proof.
  induction l as [|e l IH]; [reflexivity|]. cbn [forallb]. intros H.
  apply andb_prop in H. destruct H as [He Hl].
  destruct e; try discriminate He; cbn [guarded is_access andb negb];
    rewrite ?andb_false_r; apply IH, Hl.
Qed.

Lemma disciplined_ret {A} h (a : A) : disciplined h h (ret a).
Proof.
  intros s. exists [], h. cbn [final ret]. rewrite app_nil_r.
  repeat split.
Qed.

Lemma disciplined_exit {A} h h' c : disciplined h h' (@exit_ A c).
Proof.
  intros s. exists [], h. cbn [final exit_]. rewrite app_nil_r.
  repeat split. intros a s' E. discriminate E.
Qed.

Lemma disciplined_out_of_fuel {A} h h' : disciplined h h' (@out_of_fuel A).
Proof.
  intros s. exists [], h. cbn [final out_of_fuel]. rewrite app_nil_r.
  repeat split. intros a s' E. discriminate E.
Qed.

Lemma disciplined_bind {A B} h h1 h2 (m : M A) (k : A -> M B) :
  disciplined h h1 m -> (forall a, disciplined h1 h2 (k a)) ->
  disciplined h h2 (bind m k).
Proof.
  intros Hm Hk s. destruct (Hm s) as (l1 & b1 & T1 & G1 & R1).
  unfold bind. destruct (m s) as [a s1 | c s1 | s1] eqn:E.
  - cbn [final] in T1. destruct (Hk a s1) as (l2 & b2 & T2 & G2 & R2).
    exists (l1 ++ l2), b2. rewrite T2, T1, app_assoc. split; [reflexivity|].
    rewrite guarded_app, G1, (R1 a s1 eq_refl). split; [exact G2 | exact R2].
  - exists l1, b1. repeat split; try assumption. intros a s' X. discriminate X.
  - exists l1, b1. repeat split; try assumption. intros a s' X. discriminate X.
Qed.

Lemma disciplined_emit h h' e :
  guarded h [e] = Some h' -> disciplined h h' (emit e).
Proof.
  intros G s. exists [e], h'. cbn [final emit]. repeat split; assumption.
Qed.

Lemma disciplined_query {A} h h' (q : Miner -> A) (ev : A -> Event) :
  (forall r, guarded h [ev r] = Some h') -> disciplined h h' (query q ev).
Proof.
  intros G s. exists [ev (q s)], h'. cbn [final query]. repeat split.
  apply G.
Qed.

Lemma disciplined_read env cur addr :
  disciplined true true (SQRLAXIRead env cur addr).
Proof.
  intros s. unfold SQRLAXIRead.
  destruct (hw_read env addr (count_reads addr (trace s))) as [e v].
  eexists [_], true. cbn [final]. repeat split.
Qed.

Lemma disciplined_get {A} h (f : Miner -> A) : disciplined h h (get f).
Proof.
  intros s. exists [], h. cbn [final get]. rewrite app_nil_r. repeat split.
Qed.

Lemma disciplined_modify h (f : Miner -> Miner) :
  (forall s, trace (f s) = trace s) -> disciplined h h (modify f).
Proof.
  intros F s. exists [], h. cbn [final modify]. rewrite app_nil_r, F.
  repeat split.
Qed.

Lemma disciplined_of_emits {A} h (P : Event -> bool) (m : M A) :
  (forall l, forallb P l = true -> guarded h l = Some h) ->
  emits P m -> disciplined h h m.
Proof.
  intros HP Hm s. destruct (Hm s) as (l & T & F).
  exists l, h. repeat split; [exact T | apply HP, F].
Qed.

Lemma forallb_imp {A} (P Q : A -> bool) l :
  (forall x, P x = true -> Q x = true) ->
  forallb P l = true -> forallb Q l = true.
Proof.
  intros H F. rewrite forallb_forall in *. intros x Hx. apply H, F, Hx.
Qed.

Lemma clock_ev_no_lock e : clock_ev e = true -> no_lock_ev e = true.
Proof. destruct e; intros H; try discriminate H; reflexivity. Qed.

Lemma stop_ev_no_lock e : stop_ev e = true -> no_lock_ev e = true.
Proof. destruct e; intros H; try discriminate H; reflexivity. Qed.

Lemma setClock_disciplined env targetClk :
  disciplined true true (setClock env targetClk).
Proof.
  apply (disciplined_of_emits true clock_ev).
  - intros l F. apply guarded_held, (forallb_imp clock_ev); [|exact F].
    exact clock_ev_no_lock.
  - apply (emits_of_returns true), setClock_returns.
Qed.

Lemma StopHashcore_disciplined env soft :
  disciplined true true (StopHashcore env soft).
Proof.
  apply (disciplined_of_emits true stop_ev).
  - intros l F. apply guarded_held, (forallb_imp stop_ev); [|exact F].
    exact stop_ev_no_lock.
  - apply (emits_of_returns true), StopHashcore_returns.
Qed.

(** One step of a proof that an action keeps the discipline. *)
Ltac disciplined_step :=
  lazymatch goal with
  | |- disciplined _ _ (ret _) => apply disciplined_ret
  | |- disciplined _ _ (bind _ _) =>
      eapply disciplined_bind; [ | intros; cbv beta ]
  | |- disciplined _ _ (exit_ _) => apply disciplined_exit
  | |- disciplined _ _ out_of_fuel => apply disciplined_out_of_fuel
  | |- disciplined _ _ (get _) => apply disciplined_get
  | |- disciplined _ _ (modify _) =>
      apply disciplined_modify; intros; reflexivity
  | |- disciplined _ _ (when ?b _) => destruct b; cbn [when]
  | |- disciplined _ _ (setClock _ _) => apply setClock_disciplined
  | |- disciplined _ _ (getClock _) => apply setClock_disciplined
  | |- disciplined _ _ (StopHashcore _ _) => apply StopHashcore_disciplined
  | |- disciplined _ _ (SQRLAXIRead _ _ _) => apply disciplined_read
  | |- disciplined _ _ (emit _) => apply disciplined_emit; reflexivity
  | |- disciplined _ _ (sqrllog _) => apply disciplined_emit; reflexivity
  | |- disciplined _ _ lock => apply disciplined_emit; reflexivity
  | |- disciplined _ _ unlock => apply disciplined_emit; reflexivity
  | |- disciplined _ _ (usleep _) => apply disciplined_emit; reflexivity
  | |- disciplined _ _ (match ?x with _ => _ end) => destruct x
  | |- disciplined _ _ _ =>
      apply disciplined_query; intros; reflexivity
  end.

Lemma processHashrateAverages_disciplined env h newTcks :
  disciplined h h (processHashrateAverages env newTcks).
Proof.
  unfold processHashrateAverages. destruct h; repeat disciplined_step.
Qed.

Lemma search_iteration_disciplined env cfg lastSCnt lastTChecks :
  disciplined true true (search_iteration env cfg lastSCnt lastTChecks).
Proof.
  unfold search_iteration.
  repeat first
    [ apply processHashrateAverages_disciplined
    | disciplined_step ].
Qed.

Lemma search_loop_disciplined env cfg fuel : forall lastSCnt lastTChecks,
  disciplined true true (search_loop env cfg fuel lastSCnt lastTChecks).
Proof.
  induction fuel as [|fuel IH]; intros lastSCnt lastTChecks;
    cbn [search_loop].
  - apply disciplined_out_of_fuel.
  - repeat first
      [ apply IH
      | apply search_iteration_disciplined
      | disciplined_step ].
Qed.

Lemma poll_cache_disciplined env cfg fuel : forall cstatus,
  disciplined true true (poll_cache env cfg fuel cstatus).
Proof.
  induction fuel as [|fuel IH]; intros cstatus; cbn [poll_cache].
  - repeat disciplined_step.
  - repeat first [ apply IH | disciplined_step ].
Qed.

Lemma upload_cache_disciplined env fuel : forall cacheSize pos steps,
  disciplined true true (upload_cache env fuel cacheSize pos steps).
Proof.
  induction fuel as [|fuel IH]; intros cacheSize pos steps;
    cbn [upload_cache].
  - repeat disciplined_step.
  - repeat first [ apply IH | disciplined_step ].
Qed.

Lemma program_mixers_disciplined env n : forall i dagPos mixer_size leftover,
  disciplined true true (program_mixers env n i dagPos mixer_size leftover).
Proof.
  induction n as [|n IH]; intros i dagPos mixer_size leftover;
    cbn [program_mixers].
  - disciplined_step.
  - repeat first [ apply IH | disciplined_step ].
Qed.

Lemma poll_dag_disciplined env cfg fuel : forall status cnt,
  disciplined true true (poll_dag env cfg fuel status cnt).
Proof.
  induction fuel as [|fuel IH]; intros status cnt; cbn [poll_dag].
  - repeat disciplined_step.
  - repeat first [ apply IH | disciplined_step ].
Qed.

Lemma swizzle_disciplined env n : forall i err,
  disciplined true true (swizzle env n i err).
Proof.
  induction n as [|n IH]; intros i err; cbn [swizzle].
  - disciplined_step.
  - repeat first [ apply IH | disciplined_step ].
Qed.

Lemma guarded_free_access l :
  forallb no_lock_ev l = true -> existsb is_access l = true ->
  guarded false l = None.
Proof.
  induction l as [|e l IH]; [discriminate|]. cbn [forallb existsb].
  intros F X. apply andb_prop in F. destruct F as [Fe Fl].
  destruct e; try discriminate Fe; cbn [guarded is_access andb negb];
    try reflexivity; cbn [is_access orb] in X; apply IH; assumption.
Qed.

Lemma read_sensors_disciplined env : disciplined false true (read_sensors env).
Proof. unfold read_sensors. repeat disciplined_step. Qed.

(** X24: [getTelemetry] and the lock.  It always returns.  When the health
    word shows no hazard, it keeps the discipline of the lock and returns
    with the lock free.  When the word shows a hazard, the discipline is
    broken: the emergency stop comes after the lock has been released, so
    its reads and writes of registers are made without the lock. *)
Theorem getTelemetry_lock env s :
  exists tel s' evs,
    getTelemetry env s = Ret tel s' /\
    trace s' = trace s ++ evs /\
    guarded false evs
    = if stack_hazard (health_word env s) then None else Some false.
Proof.
  unfold getTelemetry.
  destruct (read_sensors_returns env s)
    as ([[tempC fanprct] powerW] & s1 & E1 & (pre & T1 & F1) & _).
  destruct (read_sensors_disciplined env s) as (pre' & b & T1' & G1 & B1).
  rewrite E1 in T1'. cbn [final] in T1'. rewrite T1 in T1'.
  apply app_inv_head in T1'. subst pre'.
  rewrite (B1 _ _ E1) in G1. clear B1 b.
  unfold bind at 1. rewrite E1.
  assert (C : count_reads 0x7008 (trace s1) = count_reads 0x7008 (trace s)).
  { apply (count_reads_extends sensor_ev); [exact sensor_not_health|].
    exists pre; auto. }
  unfold bind at 1. unfold SQRLAXIRead at 1. rewrite C. unfold health_word.
  destruct (hw_read env 0x7008 (count_reads 0x7008 (trace s))) as [e v].
  set (raw := if e =? 0 then u32 v else 3).
  unfold bind at 1. unfold unlock at 1. unfold emit at 1.
  unfold bind at 1. unfold modify at 1.
  unfold bind at 1. unfold getTuningStage at 1. unfold query at 1.
  cbv zeta.
  unfold bind at 1. unfold bind at 1. unfold sqrllog at 1. unfold emit at 1.
  set (s2 := push (EvLog "Avg 1m 10m 60m") _).
  set (mid := [EvRead 0x7008 e raw; EvUnlock; EvTunerQuery;
               EvLog "Avg 1m 10m 60m"]).
  assert (T2 : trace s2 = trace s ++ pre ++ mid).
  { subst s2 mid. cbn [trace push set_FPGAtemps]. rewrite T1, <- !app_assoc.
    reflexivity. }
  assert (G2 : guarded false (pre ++ mid) = Some false)
    by (rewrite guarded_app, G1; reflexivity).
  destruct (stack_hazard raw) eqn:Hz.
  - unfold emergency_stop.
    destruct (StopHashcore_soft_halts env s2)
      as (c & s3 & ramp & e1 & E3 & T3 & F3 & _).
    unfold bind at 1. unfold bind at 1. rewrite E3.
    assert (N : forallb no_lock_ev ramp = true)
      by (apply (forallb_imp stop_ev); [exact stop_ev_no_lock | exact F3]).
    destruct (leftCatastrophic raw || rightCatastrophic raw);
      unfold bind, SQRLAXIWrite, query, sqrllog, emit, modify, kick_miner,
        get, when, ret; cbn [m_dagging set_dagging set_new_work push negb];
      (eexists _, _, _; split; [reflexivity|];
       cbn [trace push set_dagging set_new_work];
       rewrite T3, T2, <- !app_assoc; cbn [app];
       split; [reflexivity|];
       rewrite (app_assoc pre mid), guarded_app, G2;
       apply guarded_free_access;
       [ rewrite forallb_app, N; reflexivity
       | rewrite existsb_app; cbn [existsb is_access];
         rewrite ?orb_true_r; reflexivity ]).
  - eexists _, _, _. split; [reflexivity|]. split; [exact T2 | exact G2].
Qed.

Lemma setClock_first_event env targetClk s :
  exists clk s' e v rest,
    setClock env targetClk s = Ret clk s' /\
    trace s' = trace s ++ EvRead 0x8200 e v :: rest.
Proof.
  unfold setClock. unfold bind at 1. unfold SQRLAXIRead at 1.
  destruct (hw_read env 0x8200 (count_reads 0x8200 (trace s))) as [e v].
  cbv beta iota zeta.
  match goal with
  | |- context [?m (push ?ev s)] =>
      assert (R : returns true clock_ev m)
  end.
  { repeat first
      [ apply wait_locked_returns; simpl; lia
      | returns_step ]. }
  destruct (R (push (EvRead 0x8200 e (if e =? 0 then u32 v else hw_uninit env))
                 s)) as (clk & s' & E & (rest & T & _) & _).
  exists clk, s', e, (if e =? 0 then u32 v else hw_uninit env), rest.
  split; [exact E|]. rewrite T, trace_push, <- app_assoc. reflexivity.
Qed.

(** X25: [initEpoch_internal] and the lock.  However the call ends, the
    first thing it does to the device is the read of 0x8200 by which
    [setClock(-2)] begins, and the lock is not taken yet: the events of the
    call, started with the lock free, break the discipline of the lock. *)
Theorem initEpoch_internal_reads_clock_unlocked env cfg ctx fuel s :
  exists e v rest,
    trace (final (initEpoch_internal env cfg ctx fuel s))
    = trace s ++ EvRead 0x8200 e v :: rest /\
    guarded false (EvRead 0x8200 e v :: rest) = None.
Proof.
  unfold initEpoch_internal, epoch_prepare, epoch_halt.
  rewrite !bind_assoc, run_modify, !bind_assoc.
  destruct (setClock_first_event env (-2) (set_dagging true s))
    as (clk & s1 & e & v & rest1 & E & T).
  unfold bind at 1. rewrite E.
  match goal with
  | |- context [final (?m s1)] => assert (R : emits any_ev m)
  end.
  { unfold program_items.
    repeat first
      [ apply regenerate_emits
      | unfold epoch_up_to_date; any_step ]. }
  destruct (R s1) as (rest2 & T2 & _).
  exists e, v, (rest1 ++ rest2). split; [|reflexivity].
  rewrite T2, T. cbn [trace set_dagging]. rewrite <- app_assoc. reflexivity.
Qed.

(** X26: a flush with both histories empty and a first average outside
    the band leaves the histories empty, and the 10-minute and the
    60-minute average it stores are not numbers: each is the sum 0.0 over
    the size 0 of an empty vector. *)
Theorem processHashrateAverages_empty_history env newTcks s :
  m_10minHashAvg s = [] ->
  m_60minHashAvg s = [] ->
  (Z.quot (clock_now env (length (trace s)) - m_avgHashTimer s) 1000000000
   >? 60) = true ->
  in_band (avg1min_of (u64 (m_hashCounter s + newTcks))) = false ->
  exists s' errorRate,
    processHashrateAverages env newTcks s = Ret tt s' /\
    m_avgValues s'
    = [avg1min_of (u64 (m_hashCounter s + newTcks)); nan; nan; errorRate] /\
    m_10minHashAvg s' = [] /\ m_60minHashAvg s' = [].
Proof.
  intros H10 H60 El Ba.
  unfold processHashrateAverages, steady_now, getHardwareErrorRate.
  rewrite run_get, run_modify, run_query, run_get.
  cbn [m_avgHashTimer push set_hashCounter trace].
  change (tick (set_hashCounter (u64 (m_hashCounter s + newTcks)) s))
    with (length (trace s)).
  rewrite El.
  rewrite run_get, run_query, run_get, run_get, run_query, run_modify.
  unfold modify. eexists _, _. split; [reflexivity|].
  cbn [m_10minHashAvg m_60minHashAvg m_hashCounter m_avgValues push
         set_hashCounter set_averages].
  rewrite H10, H60, Ba. repeat split.
Qed.

Lemma processHashrateAverages_empty_history_witness :
  exists s' errorRate,
    processHashrateAverages (clock_env 61000000000) 0 fresh_miner
    = Ret tt s' /\
    m_avgValues s' = [avg1min_of (u64 (0 + 0)); nan; nan; errorRate] /\
    m_10minHashAvg s' = [] /\ m_60minHashAvg s' = [].
Proof.
  apply (processHashrateAverages_empty_history (clock_env 61000000000) 0
           fresh_miner); reflexivity.
Defined.

(** ** A target that sets nothing *)



(** ** What [initEpoch_internal] returns *)

Lemma ensures_bind {A B} (P : Miner -> Prop) (R : A -> Miner -> Prop)
    (Q : B -> Miner -> Prop) (m : M A) (k : A -> M B) :
  ensures P R m -> (forall a, ensures (R a) Q (k a)) ->
  ensures P Q (bind m k).
Proof.
  intros Hm Hk s Ps b s' E. unfold bind in E.
  destruct (m s) as [a s1 | c s1 | s1] eqn:Em; try discriminate E.
  exact (Hk a s1 (Hm s Ps a s1 Em) b s' E).
Qed.

Lemma ensures_top {A} (P : Miner -> Prop) (m : M A) :
  ensures P (fun _ => anywhere) m.
Proof. intros s _ a s' _. exact I. Qed.

Lemma ensures_ret {A} (P : Miner -> Prop) (Q : A -> Miner -> Prop) (a : A) :
  (forall s, P s -> Q a s) -> ensures P Q (ret a).
Proof. intros H s Ps a' s' E. injection E as <- <-. apply H, Ps. Qed.

Lemma ensures_idle_of_returns {A} (E : Event -> bool) (m : M A) :
  returns true E m -> ensures idle (fun _ => idle) m.
Proof.
  intros R s Is a s' Em. destruct (R s) as (a0 & s0 & E0 & _ & F).
  rewrite Em in E0. injection E0 as <- <-.
  destruct (F eq_refl) as [D _]. unfold idle in *. now rewrite D.
Qed.

Lemma ensures_idle_down (P : Miner -> Prop) :
  ensures P (fun _ => idle) (modify (set_dagging false)).
Proof. intros s _ a s' E. injection E as <- <-. reflexivity. Qed.

Lemma ensures_given {A} (c : Prop) (Q : A -> Miner -> Prop) (m : M A) :
  (c -> ensures anywhere Q m) -> ensures (fun _ => c) Q m.
Proof. intros H s Hc. exact (H Hc s I). Qed.

(** Through a step whose value and final state do not matter. *)
Ltac ensures_skip :=
  lazymatch goal with
  | |- ensures _ _ (bind (modify (set_dagging false)) _) => fail
  | |- ensures _ _ (bind _ _) =>
      eapply (ensures_bind _ (fun _ => anywhere));
      [ apply ensures_top
      | intros; cbv beta;
        try match goal with
            | |- ensures _ _ (match ?x with _ => _ end) => destruct x
            end ]
  end.

(** Through a step that keeps the busy flag down. *)
Ltac ensures_keep :=
  eapply (ensures_bind idle (fun _ => idle));
  [ apply (ensures_idle_of_returns any_ev);
    repeat first
      [ apply (returns_weaken true any_ev clock_ev), setClock_returns;
        apply any_ev_top
      | returns_step ]
  | intros ].

Lemma epoch_up_to_date_ensures env :
  ensures anywhere (fun b s => b = true /\ idle s) (epoch_up_to_date env).
Proof.
  unfold epoch_up_to_date.
  repeat ensures_skip.
  eapply ensures_bind; [apply ensures_idle_down | intros].
  repeat ensures_keep.
  apply ensures_ret. auto.
Qed.

Lemma regenerate_ensures env cfg ctx fuel :
  ensures anywhere (fun b s => b = true /\ idle s)
    (regenerate env cfg ctx fuel).
Proof.
  unfold regenerate, makeCacheOnChip. cbv zeta.
  do 5 ensures_skip.
  eapply (ensures_bind _ (fun uploaded _ => uploaded = true)).
  - repeat ensures_skip. apply ensures_ret. reflexivity.
  - intros uploaded. apply ensures_given. intros ->. cbn [negb].
    repeat ensures_skip.
    eapply ensures_bind; [apply ensures_idle_down | intros].
    repeat ensures_keep.
    apply ensures_ret. auto.
Qed.

(** X28: [initEpoch_internal] never returns [false], and whenever it
    returns, the busy flag [m_dagging] it raised at its start is down
    again.  The one [return false] of the function follows a failed upload
    of the light cache, and the cache is always built on the chip. *)
Theorem initEpoch_internal_returns_true env cfg ctx fuel s b s' :
  initEpoch_internal env cfg ctx fuel s = Ret b s' ->
  b = true /\ m_dagging s' = false.
Proof.
  intros E.
  assert (H : ensures anywhere (fun b s => b = true /\ idle s)
                (initEpoch_internal env cfg ctx fuel));
    [|exact (H s I b s' E)].
  clear E. unfold initEpoch_internal.
  repeat ensures_skip.
  - apply epoch_up_to_date_ensures.
  - apply regenerate_ensures.
Qed.

Lemma initEpoch_internal_returns_true_witness :
  exists b s',
    initEpoch_internal (quiet_env rd_epoch42) sample_cfg epoch42 10
      fresh_miner = Ret b s' /\
    b = true /\ m_dagging s' = false.
Proof.
  eexists _, _. split; [vm_compute; reflexivity|].
  apply (initEpoch_internal_returns_true (quiet_env rd_epoch42) sample_cfg
           epoch42 10 fresh_miner).
  vm_compute. reflexivity.
Defined.

(** ** The two rails of [setVoltage] *)

Lemma fk_rail_performs env fkVCCINT :
  exists ws sl,
    performs (if negb (fkVCCINT =? 0) then
                if volt_out_of_bounds fkVCCINT
                then sqrllog "Asking to set fkVCCINT out of bounds!"
                else set_fkVCCINT env fkVCCINT
              else ret tt) ws sl /\
    forallb (fun w => addr_in (fst w) [0x9040; 0x9108; 0x9100]) ws = true /\
    length ws
    = if (fkVCCINT =? 0) || (fkVCCINT <=? 500) || (fkVCCINT >? 920)
      then 0%nat else 5%nat.
Proof.
  unfold volt_out_of_bounds, lowerVoltLimit, upperVoltLimit.
  destruct (fkVCCINT =? 0); cbn [negb orb].
  - eexists _, _. split; [performs_step | split; reflexivity].
  - destruct ((fkVCCINT <=? 500) || (fkVCCINT >? 920)).
    + eexists _, _. split; [performs_step | split; reflexivity].
    + unfold set_fkVCCINT. cbv zeta.
      eexists _, _. split; [repeat performs_step | split; reflexivity].
Qed.

Lemma jc_rail_performs env jcVCCINT :
  exists ws sl,
    performs (if negb (jcVCCINT =? 0) then
                if volt_out_of_bounds jcVCCINT
                then sqrllog "Asking to set jcVCCINT out of bounds!"
                else set_jcVCCINT env jcVCCINT
              else ret tt) ws sl /\
    forallb (fun w => addr_in (fst w) [0xA040; 0xA108; 0xA100]) ws = true /\
    length ws
    = if (jcVCCINT =? 0) || (jcVCCINT <=? 500) || (jcVCCINT >? 920)
      then 0%nat else 43%nat.
Proof.
  unfold volt_out_of_bounds, lowerVoltLimit, upperVoltLimit.
  destruct (jcVCCINT =? 0); cbn [negb orb].
  - eexists _, _. split; [performs_step | split; reflexivity].
  - destruct ((jcVCCINT <=? 500) || (jcVCCINT >? 920)).
    + eexists _, _. split; [performs_step | split; reflexivity].
    + unfold set_jcVCCINT, iic_transaction. cbv zeta.
      eexists _, _. split; [repeat performs_step | split; reflexivity].
Qed.

(** X4: [setVoltage] treats its two rails apart.  Its register writes are
    those for the FK rail followed by those for the JCM rail, the first on
    0x9040, 0x9108 and 0x9100 only and the second on 0xA040, 0xA108 and
    0xA100 only.  A rail whose request is 0, at most 500 mV or more than
    920 mV gets no write at all, whatever is asked of the other rail; a
    rail whose request is in the band gets 5 writes (FK) or 43 (JCM).  So
    when both requests are out of the band no register is written. *)
Theorem setVoltage_writes_rail_by_rail env fkVCCINT jcVCCINT s :
  exists s' fkw jcw,
    setVoltage env fkVCCINT jcVCCINT s = Ret tt s' /\
    register_writes (trace s') = register_writes (trace s) ++ fkw ++ jcw /\
    forallb (fun w => addr_in (fst w) [0x9040; 0x9108; 0x9100]) fkw = true /\
    forallb (fun w => addr_in (fst w) [0xA040; 0xA108; 0xA100]) jcw = true /\
    length fkw
    = (if (fkVCCINT =? 0) || (fkVCCINT <=? 500) || (fkVCCINT >? 920)
       then 0%nat else 5%nat) /\
    length jcw
    = (if (jcVCCINT =? 0) || (jcVCCINT <=? 500) || (jcVCCINT >? 920)
       then 0%nat else 43%nat).
Proof.
  destruct (fk_rail_performs env fkVCCINT) as (fkw & sl1 & P1 & A1 & L1).
  destruct (jc_rail_performs env jcVCCINT) as (jcw & sl2 & P2 & A2 & L2).
  pose proof (performs_bind _ _ _ _ _ _ P1 (fun _ : unit => P2)) as P.
  destruct (P s) as ([] & s' & E & W & _).
  exists s', fkw, jcw. split; [exact E|]. split; [exact W|]. auto.
Qed.

(** ** What [search] programs before its loop *)

Lemma run_when_log (b : bool) msg {B} (k : unit -> M B) s :
  bind (when b (sqrllog msg)) k s
  = k tt (push_when b (EvLog msg) s).
Proof. destruct b; reflexivity. Qed.

Lemma run_if_log (b : bool) msg {B} (k : unit -> M B) s :
  bind (if b then sqrllog msg ;; ret tt else ret tt) k s
  = k tt (push_when b (EvLog msg) s).
Proof. destruct b; reflexivity. Qed.

Lemma run_known {A B} (m : M A) (k : A -> M B) s a s' :
  m s = Ret a s' -> bind m k s = k a s'.
Proof. unfold bind. now intros ->. Qed.

Lemma when_log_run (b : bool) msg s :
  when b (sqrllog msg) s = Ret tt (push_when b (EvLog msg) s).
Proof. destruct b; reflexivity. Qed.

Lemma trace_maybe (b : bool) e s :
  trace (push_when b e s) = trace s ++ (if b then [e] else []).
Proof. destruct b; [reflexivity | now rewrite app_nil_r]. Qed.

Lemma writes_maybe_log (b : bool) msg :
  register_writes (if b then [EvLog msg] else []) = [].
Proof. destruct b; reflexivity. Qed.

Lemma settings_maybe (b : bool) e s :
  m_patience (push_when b e s) = m_patience s /\
  m_intensityN (push_when b e s) = m_intensityN s /\
  m_intensityD (push_when b e s) = m_intensityD s /\
  m_new_work (push_when b e s) = m_new_work s.
Proof. destruct b; repeat split. Qed.

(** The fields of a state under the events and the log lines put on it. *)
Ltac read_settings :=
  repeat first
    [ progress cbn [m_patience m_intensityN m_intensityD m_new_work push
                      set_intensity set_new_work is_patience is_intensityN
                      is_intensityD]
    | rewrite (proj1 (settings_maybe _ _ _))
    | rewrite (proj1 (proj2 (settings_maybe _ _ _)))
    | rewrite (proj1 (proj2 (proj2 (settings_maybe _ _ _))))
    | rewrite (proj2 (proj2 (proj2 (settings_maybe _ _ _)))) ].

(** The trace of such a state, as the trace below it and what was added. *)
Ltac read_trace_in H :=
  repeat first
    [ rewrite trace_push in H | rewrite trace_maybe in H
    | rewrite trace_set_new_work in H | rewrite trace_set_intensity in H ];
  rewrite <- ?app_assoc in H.

Ltac run_entry_quiet :=
  repeat (first
    [ rewrite run_bind | rewrite run_log | rewrite run_lock
    | rewrite run_write; forget_status
    | rewrite run_bulk; forget_status
    | rewrite run_get | rewrite run_modify | rewrite run_ret
    | rewrite run_when_log | rewrite run_if_log ];
    cbv beta iota zeta).

(** X17: what [search] does before its loop, when a failed write is not
    fatal.  It clears the new-work flag and takes the lock, and it asks the
    tuner once.  Before that question its register writes are the two
    halves of the start nonce, to 0x5068 and to 0x5064 (high half times
    2^32 plus low half is the nonce as a 64-bit word); after it they are
    the control word to 0x5080 and the start command 0x00010001 to 0x506c.
    The control word is built from three settings: those the tuner gave in
    answer to that very question when it gave some, and the miner's own as
    they were on entry otherwise.  The same three settings are the miner's
    own afterwards. *)
Theorem search_entry_programs_nonce env cfg w s :
  dieOnError cfg = false ->
  exists s' hi lo p n d pre post,
    search_entry env cfg w s = Ret tt s' /\
    trace s' = trace s ++ pre ++ EvTunerQuery :: post /\
    register_writes pre = [(0x5068, hi); (0x5064, lo)] /\
    register_writes post
    = [(0x5080, search_flags p n d); (0x506c, 0x00010001)] /\
    0 <= hi < 2 ^ 32 /\ 0 <= lo < 2 ^ 32 /\
    hi * 2 ^ 32 + lo = u64 (startNonce w) /\
    (p, n, d)
    = match tuner_intensity env (length (trace s ++ pre)) with
      | Some i => (is_patience i, is_intensityN i, is_intensityD i)
      | None => (m_patience s, m_intensityN s, m_intensityD s)
      end /\
    m_new_work s' = false /\
    (m_patience s', m_intensityN s', m_intensityD s') = (p, n, d).
Proof.
  intros Hdie. unfold search_entry. cbv zeta. rewrite Hdie.
  destruct (split_u64 (startNonce w)) as (Bh & Bl & Eq).
  set (hi := u32 (Z.shiftr (u64 (startNonce w)) 32)) in *.
  set (lo := u32 (Z.land (u64 (startNonce w)) 0xFFFFFFFF)) in *.
  clearbody hi lo.
  run_entry_quiet.
  match goal with
  | |- context [bind (getIntensitySettings _) _ ?st] => set (Sq := st)
  end.
  assert (Fq : m_patience Sq = m_patience s /\ m_intensityN Sq = m_intensityN s
               /\ m_intensityD Sq = m_intensityD s /\ m_new_work Sq = false).
  { unfold Sq. read_settings. repeat split. }
  destruct Fq as (Fp & Fn & Fd & Fw).
  assert (Tq := eq_refl (trace Sq)).
  set (tq := trace Sq) in Tq at 1.
  unfold Sq in Tq. read_trace_in Tq. cbn [app] in Tq.
  match type of Tq with
  | _ = _ ++ ?l => set (pre := l) in *
  end.
  subst tq.
  assert (Wq : register_writes pre = [(0x5068, hi); (0x5064, lo)]).
  { unfold pre.
    destruct (negb (u8 z =? 0)), (negb (u8 z0 =? 0)), (negb (u8 z1 =? 0)),
      (negb (u8 z2 =? 0)); reflexivity. }
  clearbody pre.
  rewrite run_tuner.
  replace (tick Sq) with (length (trace s ++ pre))
    by (unfold tick; now rewrite Tq).
  set (ans := tuner_intensity env (length (trace s ++ pre))).
  set (p := match ans with Some i => is_patience i | None => m_patience s end).
  set (n := match ans with Some i => is_intensityN i | None => m_intensityN s end).
  set (d := match ans with Some i => is_intensityD i | None => m_intensityD s end).
  assert (Fa : exists S1,
             (match ans with
              | Some i => modify (set_intensity i)
              | None => ret tt
              end) (push EvTunerQuery Sq) = Ret tt S1 /\
             trace S1 = trace Sq ++ [EvTunerQuery] /\
             m_patience S1 = p /\ m_intensityN S1 = n /\ m_intensityD S1 = d /\
             m_new_work S1 = false).
  { unfold p, n, d. destruct ans as [i|]; eexists; (split; [reflexivity|]);
      cbn; auto. }
  destruct Fa as (S1 & R1 & T1 & P1 & N1 & D1 & W1).
  rewrite (run_known _ _ _ _ _ R1). clear R1.
  run_entry_quiet. rewrite P1, N1, D1, when_log_run.
  lazymatch goal with
  | |- context [Ret tt ?S = _] =>
      assert (TF := eq_refl (trace S)); set (tF := trace S) in TF at 1;
      assert (WF : m_new_work S = false /\ m_patience S = p
                   /\ m_intensityN S = n /\ m_intensityD S = d)
        by (read_settings; repeat split; assumption)
  end.
  read_trace_in TF. rewrite T1, Tq in TF. rewrite <- ?app_assoc in TF.
  cbn [app] in TF.
  match type of TF with
  | _ = _ ++ _ ++ _ :: ?l => set (post := l) in *
  end.
  subst tF. destruct WF as (F1 & F2 & F3 & F4).
  eexists _, hi, lo, p, n, d, pre, post.
  split; [reflexivity|]. split; [exact TF|]. split; [exact Wq|].
  split.
  { unfold post.
    destruct (negb (u8 z3 =? 0)); reflexivity. }
  split; [exact Bh|]. split; [exact Bl|]. split; [exact Eq|].
  split; [unfold p, n, d, ans; now destruct (tuner_intensity _ _)|].
  split; [exact F1|]. now rewrite F2, F3, F4.
Qed.

Lemma search_entry_programs_nonce_witness :
  exists s' post,
    search_entry (quiet_env (fun _ _ => (0, 0))) sample_cfg
      {| header := repeat 0 32; boundary := 2 ^ 230;
         startNonce := 0x123456789ABCDEF0 |} fresh_miner = Ret tt s' /\
    writes_to 0x5068 (trace s') = [0x12345678] /\
    writes_to 0x5064 (trace s') = [0x9ABCDEF0] /\
    register_writes post
    = [(0x5080, search_flags (m_patience fresh_miner)
                  (m_intensityN fresh_miner) (m_intensityD fresh_miner));
       (0x506c, 0x00010001)].
Proof.
  destruct (search_entry_programs_nonce (quiet_env (fun _ _ => (0, 0)))
              sample_cfg
              {| header := repeat 0 32; boundary := 2 ^ 230;
                 startNonce := 0x123456789ABCDEF0 |} fresh_miner eq_refl)
    as (s' & hi & lo & p & n & d & pre & post & E & T & Wp & Wt & _ & _ & _
        & Q & _).
  exists s', post. split; [exact E|].
  vm_compute in E. injection E as <-.
  split; [reflexivity|]. split; [reflexivity|].
  rewrite Wt. vm_compute in Q. now injection Q as -> -> ->.
Defined.

(** ** The lock and what it is released for *)

Lemma paced_app pause st l1 l2 :
  paced pause st (l1 ++ l2)
  = match paced pause st l1 with
    | Some b => paced pause b l2
    | None => None
    end.
Proof.
  revert st. induction l1 as [|e l1 IH]; intros st; [reflexivity|].
  cbn [app paced]. destruct (mutex_step pause st e); [apply IH | reflexivity].
Qed.

Lemma paced_steady pause st (P : Event -> bool) l :
  (forall e, P e = true -> mutex_step pause st e = Some st) ->
  forallb P l = true -> paced pause st l = Some st.
Proof.
  intros H. induction l as [|e l IH]; [reflexivity|]. cbn [forallb paced].
  intros F. apply andb_prop in F. destruct F as [Fe Fl].
  rewrite (H e Fe). apply IH, Fl.
Qed.

Section Pace.

Variable pause : Event -> bool.

Lemma keeps_pace_ret {A} st (a : A) : keeps_pace pause st st (ret a).
Proof.
  intros s. exists [], st. cbn [final ret]. rewrite app_nil_r.
  repeat split.
Qed.

Lemma keeps_pace_exit {A} st st' c : keeps_pace pause st st' (@exit_ A c).
Proof.
  intros s. exists [], st. cbn [final exit_]. rewrite app_nil_r.
  repeat split. intros a s' E. discriminate E.
Qed.

Lemma keeps_pace_out_of_fuel {A} st st' :
  keeps_pace pause st st' (@out_of_fuel A).
Proof.
  intros s. exists [], st. cbn [final out_of_fuel]. rewrite app_nil_r.
  repeat split. intros a s' E. discriminate E.
Qed.

Lemma keeps_pace_bind {A B} st st1 st2 (m : M A) (k : A -> M B) :
  keeps_pace pause st st1 m -> (forall a, keeps_pace pause st1 st2 (k a)) ->
  keeps_pace pause st st2 (bind m k).
Proof.
  intros Hm Hk s. destruct (Hm s) as (l1 & b1 & T1 & G1 & R1).
  unfold bind. destruct (m s) as [a s1 | c s1 | s1] eqn:E.
  - cbn [final] in T1. destruct (Hk a s1) as (l2 & b2 & T2 & G2 & R2).
    exists (l1 ++ l2), b2. rewrite T2, T1, app_assoc. split; [reflexivity|].
    rewrite paced_app, G1, (R1 a s1 eq_refl). split; [exact G2 | exact R2].
  - exists l1, b1. repeat split; try assumption. intros a s' X. discriminate X.
  - exists l1, b1. repeat split; try assumption. intros a s' X. discriminate X.
Qed.

Lemma keeps_pace_emit st st' e :
  mutex_step pause st e = Some st' -> keeps_pace pause st st' (emit e).
Proof.
  intros G s. exists [e], st'. cbn [final emit paced]. rewrite G.
  repeat split.
Qed.

Lemma keeps_pace_query {A} st st' (q : Miner -> A) (ev : A -> Event) :
  (forall r, mutex_step pause st (ev r) = Some st') ->
  keeps_pace pause st st' (query q ev).
Proof.
  intros G s. exists [ev (q s)], st'. cbn [final query paced]. rewrite G.
  repeat split.
Qed.

Lemma keeps_pace_read env cur addr :
  (forall e v, pause (EvRead addr e v) = false) ->
  keeps_pace pause Held Held (SQRLAXIRead env cur addr).
Proof.
  intros H s. unfold SQRLAXIRead.
  destruct (hw_read env addr (count_reads addr (trace s))) as [e v].
  exists [EvRead addr e (if e =? 0 then u32 v else cur)], Held.
  cbn [final paced mutex_step]. rewrite H. repeat split.
Qed.

Lemma keeps_pace_get {A} st (f : Miner -> A) : keeps_pace pause st st (get f).
Proof.
  intros s. exists [], st. cbn [final get]. rewrite app_nil_r. repeat split.
Qed.

Lemma keeps_pace_modify st (f : Miner -> Miner) :
  (forall s, trace (f s) = trace s) -> keeps_pace pause st st (modify f).
Proof.
  intros F s. exists [], st. cbn [final modify]. rewrite app_nil_r, F.
  repeat split.
Qed.

Lemma keeps_pace_of_emits {A} st (P : Event -> bool) (m : M A) :
  (forall e, P e = true -> mutex_step pause st e = Some st) ->
  emits P m -> keeps_pace pause st st m.
Proof.
  intros HP Hm s. destruct (Hm s) as (l & T & F).
  exists l, st. repeat split; [exact T | apply (paced_steady _ _ P); assumption].
Qed.

End Pace.

Lemma wait_locked_brief env fuel : forall waitCnt,
  0 <= waitCnt < Z.of_nat fuel -> waitCnt < 4294967296 ->
  returns true brief_clock_ev (wait_locked env fuel waitCnt).
Proof.
  induction fuel as [|fuel IH]; intros waitCnt H B; [lia|]. simpl.
  destruct (waitCnt =? 0) eqn:E; [apply returns_ret|].
  apply Z.eqb_neq in E.
  returns_step; [returns_step|].
  destruct a as [e locked]. destruct (Z.odd locked); [apply returns_ret|].
  unfold u32. change (2 ^ 32) with 4294967296.
  rewrite Z.mod_small by lia. apply IH; lia.
Qed.

Lemma setClock_brief env targetClk :
  returns true brief_clock_ev (setClock env targetClk).
Proof.
  unfold setClock.
  repeat first
    [ apply wait_locked_brief; simpl; lia
    | returns_step ].
Qed.

Lemma brief_clock_held e :
  brief_clock_ev e = true -> mutex_step poll_sleep Held e = Some Held.
Proof.
  unfold brief_clock_ev. intros H. apply andb_prop in H. destruct H as [C N].
  apply negb_true_iff in N.
  destruct e; try discriminate C; cbn [mutex_step is_access];
    rewrite N; reflexivity.
Qed.

Lemma stop_ev_held pause e :
  (forall e', stop_ev e' = true -> pause e' = false) ->
  stop_ev e = true -> mutex_step pause Held e = Some Held.
Proof.
  intros H S. pose proof (H e S) as N.
  destruct e; try discriminate S; cbn [mutex_step is_access];
    rewrite N; reflexivity.
Qed.

Lemma setClock_keeps_pace env targetClk :
  keeps_pace poll_sleep Held Held (setClock env targetClk).
Proof.
  apply (keeps_pace_of_emits poll_sleep Held brief_clock_ev).
  - exact brief_clock_held.
  - apply (emits_of_returns true), setClock_brief.
Qed.

Lemma StopHashcore_keeps_pace env soft :
  keeps_pace is_wait Held Held (StopHashcore env soft).
Proof.
  apply (keeps_pace_of_emits is_wait Held stop_ev).
  - intros e. apply stop_ev_held. intros e' S.
    destruct e'; try discriminate S; reflexivity.
  - apply (emits_of_returns true), StopHashcore_returns.
Qed.

(** One step of a proof that an action keeps the stricter discipline. *)
Ltac pace_step :=
  lazymatch goal with
  | |- keeps_pace _ _ _ (ret _) => apply keeps_pace_ret
  | |- keeps_pace _ _ _ (bind _ _) =>
      eapply keeps_pace_bind; [ | intros; cbv beta ]
  | |- keeps_pace _ _ _ (exit_ _) => apply keeps_pace_exit
  | |- keeps_pace _ _ _ out_of_fuel => apply keeps_pace_out_of_fuel
  | |- keeps_pace _ _ _ (get _) => apply keeps_pace_get
  | |- keeps_pace _ _ _ (modify _) =>
      apply keeps_pace_modify; intros; reflexivity
  | |- keeps_pace _ _ _ (when ?b _) => destruct b; cbn [when]
  | |- keeps_pace _ _ _ (setClock _ _) => apply setClock_keeps_pace
  | |- keeps_pace _ _ _ (getClock _) => apply setClock_keeps_pace
  | |- keeps_pace _ _ _ (StopHashcore _ _) => apply StopHashcore_keeps_pace
  | |- keeps_pace _ _ _ (SQRLAXIRead _ _ _) =>
      apply keeps_pace_read; intros; reflexivity
  | |- keeps_pace _ _ _ (emit _) => apply keeps_pace_emit; reflexivity
  | |- keeps_pace _ _ _ (sqrllog _) => apply keeps_pace_emit; reflexivity
  | |- keeps_pace _ _ _ lock => apply keeps_pace_emit; reflexivity
  | |- keeps_pace _ _ _ unlock => apply keeps_pace_emit; reflexivity
  | |- keeps_pace _ _ _ (usleep _) => apply keeps_pace_emit; reflexivity
  | |- keeps_pace _ _ _ (match ?x with _ => _ end) => destruct x
  | |- keeps_pace _ _ _ _ =>
      apply keeps_pace_query; intros; reflexivity
  end.

Lemma processHashrateAverages_keeps_pace env newTcks :
  keeps_pace is_wait Held Held (processHashrateAverages env newTcks).
Proof. unfold processHashrateAverages. repeat pace_step. Qed.

Lemma search_iteration_keeps_pace env cfg lastSCnt lastTChecks :
  keeps_pace is_wait Held Held (search_iteration env cfg lastSCnt lastTChecks).
Proof.
  unfold search_iteration.
  repeat first
    [ apply processHashrateAverages_keeps_pace
    | pace_step ].
Qed.

Lemma search_loop_keeps_pace env cfg fuel : forall lastSCnt lastTChecks,
  keeps_pace is_wait Held Held (search_loop env cfg fuel lastSCnt lastTChecks).
Proof.
  induction fuel as [|fuel IH]; intros lastSCnt lastTChecks;
    cbn [search_loop].
  - apply keeps_pace_out_of_fuel.
  - repeat first
      [ apply IH
      | apply search_iteration_keeps_pace
      | pace_step ].
Qed.

(** X22: [search] keeps the discipline of the lock however it ends, and the
    stricter one that has the wait for the interrupt as the pause.  The
    first event it adds is the taking of the lock.  From then on every read
    and write of a register is made while the lock is held, and no wait for
    the interrupt is; each wait is made after a release of the lock, one
    wait for a release, and the lock is taken again only after that wait.
    When [search] returns, the last thing it did with the lock was to
    release it. *)
Theorem search_keeps_lock_discipline env cfg w fuel :
  disciplined false false (search env cfg w fuel) /\
  keeps_pace is_wait Free Released (search env cfg w fuel) /\
  forall s, exists rest,
    trace (final (search env cfg w fuel s)) = trace s ++ EvLock :: rest.
Proof.
  split; [|split].
  - unfold search, search_entry, search_exit. cbv zeta.
    repeat first
      [ apply search_loop_disciplined
      | disciplined_step ].
  - unfold search, search_entry, search_exit. cbv zeta.
    repeat first
      [ apply search_loop_keeps_pace
      | pace_step ].
  - intros s. unfold search, search_entry, search_exit. cbv zeta.
    rewrite !bind_assoc, run_modify, !bind_assoc, run_lock.
    match goal with
    | |- context [final (?K _)] =>
        assert (P : keeps_pace is_wait Held Released K)
          by (repeat first [ apply search_loop_keeps_pace | pace_step ])
    end.
    destruct (P (push EvLock (set_new_work false s))) as (evs & b & T & _).
    rewrite T. exists evs. cbn [trace push set_new_work].
    now rewrite <- app_assoc.
Qed.

Lemma poll_cache_keeps_pace env cfg fuel : forall cstatus,
  keeps_pace poll_sleep Held Held (poll_cache env cfg fuel cstatus).
Proof.
  induction fuel as [|fuel IH]; intros cstatus; cbn [poll_cache].
  - repeat pace_step.
  - repeat first [ apply IH | pace_step ].
Qed.

Lemma upload_cache_keeps_pace env fuel : forall cacheSize pos steps,
  keeps_pace poll_sleep Held Held (upload_cache env fuel cacheSize pos steps).
Proof.
  induction fuel as [|fuel IH]; intros cacheSize pos steps;
    cbn [upload_cache].
  - repeat pace_step.
  - repeat first [ apply IH | pace_step ].
Qed.

Lemma program_mixers_keeps_pace env n : forall i dagPos mixer_size leftover,
  keeps_pace poll_sleep Held Held
    (program_mixers env n i dagPos mixer_size leftover).
Proof.
  induction n as [|n IH]; intros i dagPos mixer_size leftover;
    cbn [program_mixers].
  - pace_step.
  - repeat first [ apply IH | pace_step ].
Qed.

Lemma poll_dag_keeps_pace env cfg fuel : forall status cnt,
  keeps_pace poll_sleep Held Held (poll_dag env cfg fuel status cnt).
Proof.
  induction fuel as [|fuel IH]; intros status cnt; cbn [poll_dag].
  - repeat pace_step.
  - repeat first [ apply IH | pace_step ].
Qed.

Lemma swizzle_keeps_pace env n : forall i err,
  keeps_pace poll_sleep Held Held (swizzle env n i err).
Proof.
  induction n as [|n IH]; intros i err; cbn [swizzle].
  - pace_step.
  - repeat first [ apply IH | pace_step ].
Qed.

(** X23: the regeneration of the DAG, entered with the lock held, keeps
    the discipline of the lock however it ends, and the stricter one that
    has the sleeps of the two polling loops (a tenth of a second and a
    second) as the pause.  Every access to the device is made while the
    lock is held, and no such sleep is; each such sleep is made after a
    release of the lock, one sleep for a release, and the lock is taken
    again only after that sleep, before the next read.  On both ways to
    return (the failed upload and the end) the last thing done with the
    lock was to release it. *)
Theorem regenerate_keeps_lock_discipline env cfg ctx fuel :
  disciplined true false (regenerate env cfg ctx fuel) /\
  keeps_pace poll_sleep Held Released (regenerate env cfg ctx fuel).
Proof.
  split.
  - unfold regenerate. cbv zeta.
    repeat first
      [ apply poll_cache_disciplined
      | apply upload_cache_disciplined
      | apply program_mixers_disciplined
      | apply poll_dag_disciplined
      | apply swizzle_disciplined
      | disciplined_step ].
  - unfold regenerate. cbv zeta.
    repeat first
      [ apply poll_cache_keeps_pace
      | apply upload_cache_keeps_pace
      | apply program_mixers_keeps_pace
      | apply poll_dag_keeps_pace
      | apply swizzle_keeps_pace
      | pace_step ].
Qed.

(** ** The end of a stalled search *)






